(** * Statement extraction and categorisation pipeline of [backend/app.py]

    A shallow embedding of the Python functions [normalize_vendor],
    [categorize_transaction], [extract_transactions_from_pdf] and of the
    endpoints that read and write the store ([upload_file],
    [add_transaction], [update_transaction], [delete_transaction],
    [mark_month_processed], [get_workflow_status]), with the library
    primitives they call ([str] methods, [re], [float], [strptime]), and
    of the installer [setup.py].

    Text model: a Python [str] is a [string] whose characters are the code
    points U+0000..U+00FF (one [ascii] each).  Every character class below
    ([\d], [\s], [\w], [str.lower]) is the restriction of the Unicode one
    to that range. *)

From Stdlib Require Import String Ascii List ZArith Bool Lia DecimalString DecimalNat.
From Corelib Require Import SpecFloat PrimFloat FloatOps.
From stdpp Require Import gmap strings.
Import ListNotations.

Local Open Scope string_scope.
Local Open Scope bool_scope.

(** ** Characters and the [str] methods used by the program *)

Module PyStr.

Definition code (c : ascii) : nat := nat_of_ascii c.

Definition in_range (lo hi : nat) (c : ascii) : bool :=
  (lo <=? code c)%nat && (code c <=? hi)%nat.

Definition is_upper_az (c : ascii) : bool := in_range 65 90 c.
Definition is_lower_az (c : ascii) : bool := in_range 97 122 c.
Definition is_alpha_az (c : ascii) : bool := is_upper_az c || is_lower_az c.

(** [\d] and [str.isdecimal]: category Nd, which below U+0100 is 0-9. *)
Definition is_digit (c : ascii) : bool := in_range 48 57 c.

(** [str.isspace], also the [\s] of [re] on [str] patterns. *)
Definition is_space (c : ascii) : bool :=
  in_range 9 13 c || in_range 28 32 c
  || (code c =? 133)%nat || (code c =? 160)%nat.

(** [\w] of [re] on [str] patterns: alphanumeric or underscore. *)
Definition is_word (c : ascii) : bool :=
  is_digit c || is_alpha_az c || (code c =? 95)%nat
  || (code c =? 170)%nat || (code c =? 178)%nat || (code c =? 179)%nat
  || (code c =? 181)%nat || (code c =? 185)%nat || (code c =? 186)%nat
  || in_range 188 190 c || in_range 192 214 c || in_range 216 246 c
  || in_range 248 255 c.

(** One character of [str.lower]: A-Z, and the upper-case letters of
    U+00C0..U+00DE (U+00D7 is the multiplication sign). *)
Definition lower_char (c : ascii) : ascii :=
  if is_upper_az c || (in_range 192 222 c && negb (code c =? 215)%nat)
  then ascii_of_nat (code c + 32) else c.

Definition upper_char_az (c : ascii) : ascii :=
  if is_lower_az c then ascii_of_nat (code c - 32) else c.

Fixpoint lower (s : string) : string :=
  match s with
  | EmptyString => EmptyString
  | String c s' => String (lower_char c) (lower s')
  end.

(** [s.startswith(p)] *)
Fixpoint startswith (s p : string) {struct p} : bool :=
  match p with
  | EmptyString => true
  | String a p' =>
      match s with
      | EmptyString => false
      | String b s' => Ascii.eqb a b && startswith s' p'
      end
  end.

(** [p in s] on strings. *)
Fixpoint contains (p s : string) : bool :=
  startswith s p
  || match s with
     | EmptyString => false
     | String _ s' => contains p s'
     end.

Fixpoint endswith (s p : string) : bool :=
  String.eqb s p
  || match s with
     | EmptyString => false
     | String _ s' => endswith s' p
     end.

(** Dropping the characters of a class from the left end, and from the
    right end. *)
Fixpoint lstrip_by (f : ascii -> bool) (s : string) : string :=
  match s with
  | EmptyString => EmptyString
  | String c s' => if f c then lstrip_by f s' else s
  end.

Fixpoint rstrip_by (f : ascii -> bool) (s : string) : string :=
  match s with
  | EmptyString => EmptyString
  | String c s' =>
      match rstrip_by f s' with
      | EmptyString => if f c then EmptyString else String c EmptyString
      | r => String c r
      end
  end.

Definition strip_by (f : ascii -> bool) (s : string) : string :=
  rstrip_by f (lstrip_by f s).

(** [s.strip()] *)
Definition strip (s : string) : string := strip_by is_space s.

(** [s.split()] : maximal runs of non-whitespace; [cur] is the word
    being read. *)
Fixpoint split_from (cur s : string) : list string :=
  match s with
  | EmptyString => match cur with EmptyString => [] | _ => [cur] end
  | String c s' =>
      if is_space c
      then match cur with
           | EmptyString => split_from EmptyString s'
           | _ => cur :: split_from EmptyString s'
           end
      else split_from (cur +:+ String c EmptyString) s'
  end.

Definition split (s : string) : list string := split_from EmptyString s.

(** [s.split(sep)] for a one-character separator: empty pieces kept. *)
Fixpoint split_on (sep : ascii) (s : string) : list string :=
  match s with
  | EmptyString => [EmptyString]
  | String c s' =>
      if Ascii.eqb c sep then EmptyString :: split_on sep s'
      else match split_on sep s' with
           | h :: t => String c h :: t
           | [] => [String c EmptyString]
           end
  end.

(** [sep.join(l)] *)
Definition join (sep : string) (l : list string) : string :=
  String.concat sep l.

Fixpoint drop_last (s : string) : string :=
  match s with
  | EmptyString => EmptyString
  | String c EmptyString => EmptyString
  | String c s' => String c (drop_last s')
  end.

(** [s[1:-1]] *)
Definition slice_1_m1 (s : string) : string :=
  match s with
  | EmptyString => EmptyString
  | String _ s' => drop_last s'
  end.

(** [str.title] on text made of the letters A-Z, a-z and uncased
    characters, which is all [normalize_vendor] ever applies it to (see
    [cleaned_chars]): a letter that follows a letter is lowered, any
    other letter is raised.  [prev] tells whether the previous character
    was a letter. *)
Fixpoint title_from (prev : bool) (s : string) : string :=
  match s with
  | EmptyString => EmptyString
  | String c s' =>
      if is_alpha_az c
      then String (if prev then lower_char c else upper_char_az c)
                  (title_from true s')
      else String c (title_from false s')
  end.

Definition title (s : string) : string := title_from false s.

Fixpoint filter (f : ascii -> bool) (s : string) : string :=
  match s with
  | EmptyString => EmptyString
  | String c s' => if f c then String c (filter f s') else filter f s'
  end.

End PyStr.

(** ** The fragment of [re] used by the program *)

Module Re.
Import PyStr.

Inductive regex : Type :=
| Eps : regex
| Chr : (ascii -> bool) -> regex            (* one character of a class *)
| Seq : regex -> regex -> regex
| Alt : regex -> regex -> regex
| Star : regex -> regex
| WordB : regex.                            (* \b *)

Definition Opt (r : regex) : regex := Alt r Eps.
Definition Plus (r : regex) : regex := Seq r (Star r).

(** A literal character, and one under [re.IGNORECASE]. *)
Definition lit (c : ascii) : regex := Chr (Ascii.eqb c).
Definition lit_i (c : ascii) : regex :=
  Chr (fun x => Ascii.eqb (lower_char x) (lower_char c)).

Fixpoint word_i (w : string) : regex :=
  match w with
  | EmptyString => Eps
  | String c w' => Seq (lit_i c) (word_i w')
  end.

Definition is_word_opt (o : option ascii) : bool :=
  match o with Some c => is_word c | None => false end.

Definition next_char (s : string) : option ascii :=
  match s with EmptyString => None | String c _ => Some c end.

(** The iteration of a star.  [step] matches the body once; an iteration
    must consume at least one character, so [fuel], the length of the
    subject, is never exhausted. *)
Fixpoint star_loop
         (step : option ascii -> string -> (option ascii -> string -> bool) -> bool)
         (k : option ascii -> string -> bool)
         (fuel : nat) (prev : option ascii) (s : string) : bool :=
  match fuel with
  | O => k prev s
  | S fuel' =>
      step prev s
           (fun prev' s' =>
              (String.length s' <? String.length s)%nat
              && star_loop step k fuel' prev' s')
      || k prev s
  end.

(** Backtracking matcher in continuation style.  [prev] is the
    character before the current position (for [\b]), [s] the rest of
    the subject, [k] what must match after [r]. *)
Fixpoint run (r : regex) (prev : option ascii) (s : string)
         (k : option ascii -> string -> bool) {struct r} : bool :=
  match r with
  | Eps => k prev s
  | Chr p =>
      match s with
      | String c s' => p c && k (Some c) s'
      | EmptyString => false
      end
  | Seq r1 r2 => run r1 prev s (fun prev' s' => run r2 prev' s' k)
  | Alt r1 r2 => run r1 prev s k || run r2 prev s k
  | Star r1 => star_loop (run r1) k (String.length s) prev s
  | WordB => xorb (is_word_opt prev) (is_word_opt (next_char s)) && k prev s
  end.

Definition matches_at (r : regex) (prev : option ascii) (s : string) : bool :=
  run r prev s (fun _ _ => true).

(** [re.match(r, s)] as a truth value: a match starting at position 0. *)
Definition re_match (r : regex) (s : string) : bool :=
  matches_at r None s.

Fixpoint search_from (r : regex) (prev : option ascii) (s : string) : bool :=
  matches_at r prev s
  || match s with
     | EmptyString => false
     | String c s' => search_from r (Some c) s'
     end.

(** [re.search(r, s)] / [pattern.search(s)] as a truth value. *)
Definition re_search (r : regex) (s : string) : bool :=
  search_from r None s.

(** [re.sub(cls, "", s)] where [cls] is a single character class: every
    character of the class is deleted. *)
Definition re_sub_class (cls : ascii -> bool) (s : string) : string :=
  PyStr.filter (fun c => negb (cls c)) s.

Definition digit : regex := Chr is_digit.
Definition space : regex := Chr is_space.

(** [r{lo,hi}] *)
Fixpoint rep_exact (n : nat) (r : regex) : regex :=
  match n with O => Eps | S n' => Seq r (rep_exact n' r) end.
Fixpoint rep_upto (n : nat) (r : regex) : regex :=
  match n with O => Eps | S n' => Opt (Seq r (rep_upto n' r)) end.
Definition Rep (lo hi : nat) (r : regex) : regex :=
  Seq (rep_exact lo r) (rep_upto (hi - lo) r).

(** What it means for [r] to match at the head of [s], after the
    character [prev], leaving [s'] after the character [prev']. *)
Inductive rmatch : regex -> option ascii -> string -> option ascii -> string -> Prop :=
| M_eps prev s : rmatch Eps prev s prev s
| M_chr (p : ascii -> bool) prev c s :
    p c = true -> rmatch (Chr p) prev (String c s) (Some c) s
| M_seq r1 r2 prev s prev1 s1 prev2 s2 :
    rmatch r1 prev s prev1 s1 -> rmatch r2 prev1 s1 prev2 s2 ->
    rmatch (Seq r1 r2) prev s prev2 s2
| M_alt_l r1 r2 prev s prev' s' :
    rmatch r1 prev s prev' s' -> rmatch (Alt r1 r2) prev s prev' s'
| M_alt_r r1 r2 prev s prev' s' :
    rmatch r2 prev s prev' s' -> rmatch (Alt r1 r2) prev s prev' s'
| M_star_0 r prev s : rmatch (Star r) prev s prev s
| M_star_1 r prev s prev1 s1 prev2 s2 :
    rmatch r prev s prev1 s1 -> rmatch (Star r) prev1 s1 prev2 s2 ->
    rmatch (Star r) prev s prev2 s2
| M_wordb prev s :
    xorb (is_word_opt prev) (is_word_opt (next_char s)) = true ->
    rmatch WordB prev s prev s.

(** The character before the position reached after reading [a]. *)
Fixpoint prev_after (prev : option ascii) (a : string) : option ascii :=
  match a with
  | EmptyString => prev
  | String c a' => prev_after (Some c) a'
  end.

End Re.

(** ** [float(str)]: text to IEEE 754 binary64

    A Python [float] is a binary64 value, here a [spec_float] at
    precision 53 and maximal exponent 1024; [float] rounds the decimal it
    reads to the nearest binary64 value, ties to even. *)

Module PyFloat.
Import PyStr.
Local Open Scope Z_scope.

Definition float : Type := spec_float.

Definition zero : float := S754_zero false.

(** [x > y] on floats; false whenever a NaN is involved. *)
Definition gt (x y : float) : bool := SFltb y x.

(** [x <= y] on floats. *)
Definition le (x y : float) : bool := SFleb x y.

(** The nearest binary64 value to [m * 10^e] (for [m >= 0]), with sign
    [neg]: an exact integer when [e >= 0], otherwise the correctly
    rounded quotient of two integers. *)
Definition of_decimal (neg : bool) (m e : Z) : float :=
  match m with
  | Zpos p =>
      match e with
      | Zneg _ =>
          SFdiv prec emax (S754_finite neg p 0)
                (S754_finite false (Z.to_pos (10 ^ (- e))) 0)
      | _ => binary_normalize prec emax
               (if neg then (- (m * 10 ^ e)) else m * 10 ^ e)%Z 0 false
      end
  | _ => S754_zero neg
  end.

(** [float(n)] for an [int]: [None] is [OverflowError]. *)
Definition of_int (n : Z) : option float :=
  match binary_normalize prec emax n 0 false with
  | S754_infinity _ => None
  | f => Some f
  end.

Definition digit_val (c : ascii) : Z := Z.of_nat (code c - 48).

(** Reads the longest run of digits at the head of [s]: the number read
    (continuing [acc]), how many digits, and the rest. *)
Fixpoint read_digits (acc : Z) (n : nat) (s : string) : Z * nat * string :=
  match s with
  | String c s' =>
      if is_digit c then read_digits (10 * acc + digit_val c) (S n) s'
      else (acc, n, s)
  | EmptyString => (acc, n, s)
  end.

(** Underscores are dropped; each must stand between two digits.
    [None] is [ValueError]. *)
Fixpoint drop_underscores (prev : ascii) (s : string) : option string :=
  match s with
  | EmptyString => if Ascii.eqb prev "_" then None else Some EmptyString
  | String c s' =>
      if Ascii.eqb c "_"
      then if is_digit prev then drop_underscores c s' else None
      else if Ascii.eqb prev "_" && negb (is_digit c) then None
           else option_map (String c) (drop_underscores c s')
  end.

Definition read_sign (s : string) : bool * string :=
  match s with
  | String c s' =>
      if Ascii.eqb c "-" then (true, s')
      else if Ascii.eqb c "+" then (false, s')
      else (false, s)
  | EmptyString => (false, s)
  end.

Definition lower_az (s : string) : string :=
  let fix go s :=
    match s with
    | EmptyString => EmptyString
    | String c s' =>
        String (if is_upper_az c then ascii_of_nat (code c + 32) else c) (go s')
    end in go s.

Definition is_exp_mark (c : ascii) : bool := Ascii.eqb c "e" || Ascii.eqb c "E".

(** digits [. digits] [(e|E) [sign] digits], at least one digit in the
    mantissa, nothing after it. *)
Definition parse_number (neg : bool) (s : string) : option float :=
  let '(i, ni, s1) := read_digits 0 0 s in
  let '(m, nf, s2) :=
    match s1 with
    | String c s1' =>
        if Ascii.eqb c "." then read_digits i 0 s1' else (i, 0%nat, s1)
    | EmptyString => (i, 0%nat, s1)
    end in
  if (ni + nf =? 0)%nat then None
  else match s2 with
       | EmptyString => Some (of_decimal neg m (- Z.of_nat nf))
       | String c s3 =>
           if is_exp_mark c then
             let '(eneg, s4) := read_sign s3 in
             let '(ex, ne, s5) := read_digits 0 0 s4 in
             if (ne =? 0)%nat then None
             else match s5 with
                  | EmptyString =>
                      Some (of_decimal neg m
                              ((if eneg then - ex else ex) - Z.of_nat nf))
                  | _ => None
                  end
           else None
       end.

Definition parse_signed (s : string) : option float :=
  let '(neg, body) := read_sign s in
  let l := lower_az body in
  if String.eqb l "inf" || String.eqb l "infinity" then Some (S754_infinity neg)
  else if String.eqb l "nan" then Some S754_nan
  else parse_number neg body.

(** The whitespace [float] ignores at both ends of its argument: the
    ASCII blanks, and the other characters of [str.isspace] from U+0080
    on (the separators U+001C..U+001F are not among them). *)
Definition is_float_space (c : ascii) : bool :=
  in_range 9 13 c || (code c =? 32)%nat || (code c =? 133)%nat || (code c =? 160)%nat.

(** [float(s)] for a [str]; [None] is [ValueError]. *)
Definition of_string (s : string) : option float :=
  match drop_underscores "000"%char (strip_by is_float_space s) with
  | Some s' => parse_signed s'
  | None => None
  end.

End PyFloat.

(** ** [datetime.strptime(s, fmt).date()] and [date.isoformat()] *)

Module Strptime.
Import PyStr.
Local Open Scope Z_scope.

Record date : Type := mkdate { year : Z; month : Z; day : Z }.

Inductive directive : Type :=
| D_m | D_d | D_y | D_Y          (* %m %d %y %Y *)
| D_lit (c : ascii).             (* any other, non-space, character *)

Inductive field : Type := F_month | F_day | F_year2 | F_year4 | F_none.

Definition dv (c : ascii) : Z := Z.of_nat (code c - 48).

(** The ways one directive can match at the head of [s], in the order
    the alternatives of its regular expression are tried:
    %m is [1[0-2]|0[1-9]|[1-9]], %d is
    [3[0-1]|[1-2]\d|0[1-9]|[1-9]| [1-9]], %y is [\d\d], %Y is
    [\d\d\d\d]. *)
Definition alternatives (d : directive) (s : string)
  : list (field * Z * string) :=
  match d with
  | D_m =>
      match s with
      | String a t =>
          (match t with
           | String b u =>
               (if Ascii.eqb a "1" && in_range 48 50 b
                then [(F_month, 10 + dv b, u)] else [])
               ++ (if Ascii.eqb a "0" && in_range 49 57 b
                   then [(F_month, dv b, u)] else [])
           | EmptyString => []
           end)
          ++ (if in_range 49 57 a then [(F_month, dv a, t)] else [])
      | EmptyString => []
      end
  | D_d =>
      match s with
      | String a t =>
          (match t with
           | String b u =>
               (if Ascii.eqb a "3" && in_range 48 49 b
                then [(F_day, 30 + dv b, u)] else [])
               ++ (if in_range 49 50 a && is_digit b
                   then [(F_day, 10 * dv a + dv b, u)] else [])
               ++ (if Ascii.eqb a "0" && in_range 49 57 b
                   then [(F_day, dv b, u)] else [])
           | EmptyString => []
           end)
          ++ (if in_range 49 57 a then [(F_day, dv a, t)] else [])
          ++ (match t with
              | String b u =>
                  if Ascii.eqb a " " && in_range 49 57 b
                  then [(F_day, dv b, u)] else []
              | EmptyString => []
              end)
      | EmptyString => []
      end
  | D_y =>
      match s with
      | String a (String b u) =>
          if is_digit a && is_digit b
          then [(F_year2, 10 * dv a + dv b, u)] else []
      | _ => []
      end
  | D_Y =>
      match s with
      | String a (String b (String c (String d u))) =>
          if is_digit a && is_digit b && is_digit c && is_digit d
          then [(F_year4, 1000 * dv a + 100 * dv b + 10 * dv c + dv d, u)]
          else []
      | _ => []
      end
  | D_lit c =>
      match s with
      | String a t =>
          if Ascii.eqb (lower_char a) (lower_char c)
          then [(F_none, 0%Z, t)] else []
      | EmptyString => []
      end
  end.

(** The fields read so far: year (after the two-digit pivot), month,
    day; the defaults are 1900-01-01. *)
Definition set_field (f : field) (v : Z) (d : date) : date :=
  match f with
  | F_month => mkdate (year d) v (day d)
  | F_day => mkdate (year d) (month d) v
  | F_year2 => mkdate (if (v <=? 68)%Z then 2000 + v else 1900 + v)
                      (month d) (day d)
  | F_year4 => mkdate v (month d) (day d)
  | F_none => d
  end.

(** All matches of the format at the head of [s], in backtracking
    order, each with the text left over. *)
Fixpoint match_format (fmt : list directive) (acc : date) (s : string)
  : list (date * string) :=
  match fmt with
  | [] => [(acc, s)]
  | d :: fmt' =>
      flat_map (fun '(f, v, rest) => match_format fmt' (set_field f v acc) rest)
               (alternatives d s)
  end.

Definition is_leap (y : Z) : bool :=
  ((y mod 4 =? 0) && (negb (y mod 100 =? 0) || (y mod 400 =? 0)))%Z.

Definition days_in_month (y m : Z) : Z :=
  if (m =? 2)%Z then (if is_leap y then 29 else 28)
  else if ((m =? 4) || (m =? 6) || (m =? 9) || (m =? 11))%Z then 30
  else 31.

(** What the [date] constructor accepts. *)
Definition valid_date (d : date) : bool :=
  ((1 <=? year d) && (year d <=? 9999)
   && (1 <=? month d) && (month d <=? 12)
   && (1 <=? day d) && (day d <=? days_in_month (year d) (month d)))%Z.

(** [datetime.strptime(s, fmt).date()]: the first match of the format
    is taken; text left over, or an impossible date, is [ValueError]
    ([None]). *)
Definition strptime (s : string) (fmt : list directive) : option date :=
  match match_format fmt (mkdate 1900 1 1) s with
  | (d, EmptyString) :: _ => if valid_date d then Some d else None
  | _ => None
  end.

Fixpoint zpad (w : nat) (n : Z) : string :=
  match w with
  | O => EmptyString
  | S w' =>
      zpad w' (n / 10)
      +:+ String (ascii_of_nat (48 + Z.to_nat (n mod 10))) EmptyString
  end.

(** [date.isoformat()] : YYYY-MM-DD *)
Definition isoformat (d : date) : string :=
  zpad 4 (year d) +:+ "-" +:+ zpad 2 (month d) +:+ "-" +:+ zpad 2 (day d).

(** ['%m/%d/%y'] and ['%m/%d/%Y'] *)
Definition fmt_mdy : list directive := [D_m; D_lit "/"; D_d; D_lit "/"; D_y].
Definition fmt_mdY : list directive := [D_m; D_lit "/"; D_d; D_lit "/"; D_Y].

End Strptime.

Import PyStr Re.

(** ** Rule tables of [backend/app.py] *)

Definition CATEGORIES : list string :=
  [ "Uncategorized"; "Processing"; "Bank Fees"; "Advertisement"; "Marketing";
    "Repairs and Maintenance"; "EV/Gas"; "Supplies"; "Software"; "Meals 50%";
    "Shipping"; "Travel"; "Utilities"; "Office Rent"; "Professional Services";
    "Equipment"; "Sales"; "Insurance"; "Other" ].

(** The dict [CATEGORIZATION_RULES], in insertion order (the order in which
    [.items()] yields it). *)
Definition CATEGORIZATION_RULES : list (string * list string) :=
  [ ("Processing", ["square"; "stripe"; "paypal"]);
    ("Bank Fees", ["fee"; "charge"; "interest"; "overdraft"]);
    ("Advertisement", ["photo"; "photohub"; "printing"; "ad"; "advertisement"]);
    ("Marketing", ["facebook"; "instagram"; "google ads"; "advertising"; "marketing"]);
    ("Repairs and Maintenance",
      ["home depot"; "lowe"; "advance auto"; "autozone"; "autopart"; "repair";
       "maintenance"]);
    ("EV/Gas", ["supercharging"; "super charging"; "gas station"; "fuel"]);
    ("Supplies", ["office depot"; "staples"; "ikea"; "amazon"; "supplies"; "paper"; "ink"]);
    ("Software",
      ["google svcs"; "google"; "microsoft"; "adobe"; "slack"; "zoom"; "dropbox";
       "aws"; "github"; "canva"; "expens"]);
    ("Meals 50%",
      ["mcdonald"; "starbucks"; "chick-fil-a"; "chipotle"; "wendy"; "burger king";
       "dunkin"; "panera"; "subway"; "domino"]);
    ("Shipping", ["ups store"; "fedex"; "usps"; "shipping"]);
    ("Travel", ["uber"; "lyft"; "hotel"; "airline"; "parking"]);
    ("Utilities",
      ["bge"; "balt gas"; "gas and electric"; "utility"; "utilities"; "electric";
       "water"; "verizon"; "comcast"]);
    ("Professional Services", ["legal"; "accounting"; "consulting"; "lawyer"; "cpa"]) ].

(** [\bW\b] under [re.IGNORECASE] *)
Definition bword (w : string) : regex := Seq WordB (Seq (word_i w) WordB).

Definition VENDOR_NORMALIZATION_RULES : list (regex * string) :=
  [ (bword "AFFIRM", "Affirm");
    (* \bGOO?GLE\b *)
    (Seq WordB (Seq (word_i "GO") (Seq (Opt (lit_i "O")) (Seq (word_i "GLE") WordB))),
     "Google");
    (Alt (bword "GSUITE") (bword "WORKSPACE"), "Google");
    (* \bPAY\s*PAL\b|\bPAYPAL\b *)
    (Alt (Seq WordB (Seq (word_i "PAY") (Seq (Star space) (Seq (word_i "PAL") WordB))))
         (bword "PAYPAL"),
     "PayPal");
    (bword "AMAZON", "Amazon");
    (word_i "MCDONALD", "McDonald's");
    (bword "STARBUCKS", "Starbucks");
    (* HOME\s*DEPOT *)
    (Seq (word_i "HOME") (Seq (Star space) (word_i "DEPOT")), "The Home Depot");
    (* \bAPPLE\b|APPLE\.?COM|APPLECARD *)
    (Alt (bword "APPLE")
         (Alt (Seq (word_i "APPLE") (Seq (Opt (lit ".")) (word_i "COM")))
              (word_i "APPLECARD")),
     "Apple");
    (Alt (bword "MICROSOFT") (bword "MSFT"), "Microsoft");
    (bword "UBER", "Uber");
    (bword "LYFT", "Lyft") ].

(** ** [normalize_vendor] *)

(** [for pattern, name in rules: if pattern.search(description): return name] *)
Fixpoint first_rule (rules : list (regex * string)) (description : string)
  : option string :=
  match rules with
  | [] => None
  | (pattern, name) :: rules' =>
      if re_search pattern description then Some name
      else first_rule rules' description
  end.

(** The class [[^A-Za-z\s]] *)
Definition not_alpha_space (c : ascii) : bool :=
  negb (is_alpha_az c || is_space c).

Definition normalize_vendor (description : string) : string :=
  if String.eqb description "" then "Unknown"
  else
    match first_rule VENDOR_NORMALIZATION_RULES description with
    | Some name => name
    | None =>
        let cleaned := strip (re_sub_class not_alpha_space description) in
        if String.eqb cleaned "" then description
        else
          let words := split cleaned in
          let candidate :=
            if (3 <=? length words)%nat then join " " (firstn 3 words)
            else join " " words in
          title candidate
    end.

(** ** [categorize_transaction] *)

(** The two nested [for] loops over the keyword table: the first category
    one of whose keywords occurs in the text. *)
Fixpoint first_category (rules : list (string * list string))
         (description_lower : string) : option string :=
  match rules with
  | [] => None
  | (category, keywords) :: rules' =>
      if existsb (fun keyword => contains keyword description_lower) keywords
      then Some category
      else first_category rules' description_lower
  end.

(** [amount] is [None] for Python's [None] (the default argument). *)
Definition categorize_transaction (description : string)
           (amount : option PyFloat.float) : string :=
  let description_lower := lower description in
  if contains "tesla" description_lower then
    if contains "super" description_lower || contains "charge" description_lower
    then "EV/Gas"
    else "Repairs and Maintenance"
  else if contains "home depot" description_lower then "Repairs and Maintenance"
  else if contains "hdphotohub" description_lower then "Software"
  else if contains "affirm" description_lower then "Equipment"
  else if contains "amex" description_lower then "Bank Fees"
  else if contains "square inc" description_lower
          || startswith description_lower "square "
          || startswith description_lower "sq *"
  then match amount with
       | Some a => if PyFloat.gt a PyFloat.zero then "Sales" else "Uncategorized"
       | None => "Uncategorized"
       end
  else if contains "apple" description_lower then "Software"
  else if contains "bk od amer" description_lower then "Bank Fees"
  else if contains "cubicasa" description_lower then "Software"
  else match first_category CATEGORIZATION_RULES description_lower with
       | Some category => category
       | None => "Uncategorized"
       end.

(** ** Transactions *)

(** Values that arrive in a JSON request body. *)
#[warnings="-register-all"]
Inductive json : Type :=
| JNull
| JBool (b : bool)
| JInt (n : Z)
| JFloat (f : PyFloat.float)
| JStr (s : string)
| JArr (l : list json)
| JObj (l : list (string * json)).

(** The transaction dict: the key ['id'] is absent until the caller
    assigns it; the other four keys are always present and hold whatever
    was last stored in them. *)
Record transaction : Type := mk_transaction {
  t_id : option string;
  t_date : json;
  t_description : json;
  t_amount : json;
  t_category : json
}.

(** ** [extract_transactions_from_pdf] *)

(** What [pdfplumber] gives for a page: [extract_tables()] is a list of
    tables, a table a list of rows, a row a list of cells ([None] or text);
    [extract_text()] is text or [None]. *)
Record page : Type := mk_page {
  extract_tables : list (list (list (option string)));
  extract_text : option string
}.

Inductive exn : Type := Exception (msg : string).

Inductive outcome (A : Type) : Type :=
| Returns (a : A)
| Raises (e : exn).
Arguments Returns {A} a.
Arguments Raises {A} e.

#[global] Instance outcome_ret : MRet outcome := fun A a => Returns a.

(** Sequencing: an exception raised by the first statement skips the rest. *)
#[global] Instance outcome_bind : MBind outcome := fun A B f m =>
  match m with
  | Returns a => f a
  | Raises e => Raises e
  end.

(** [try: body  except Exception as e: handler(e)] *)
Definition try_except {A : Type} (body : outcome A) (handler : exn -> outcome A)
  : outcome A :=
  match body with
  | Returns a => Returns a
  | Raises e => handler e
  end.

(** The file at [pdf_path] as [pdfplumber.open] sees it. *)
Inductive pdf_file : Type :=
| Unreadable (e : exn)
| Readable (pages : list page).

Definition pdfplumber_open (f : pdf_file) : outcome (list page) :=
  match f with
  | Unreadable e => Raises e
  | Readable pages => Returns pages
  end.

(** [\d{1,2}[/-]\d{1,2}[/-]\d{2,4}] *)
Definition date_sep : regex := Chr (fun c => Ascii.eqb c "/" || Ascii.eqb c "-").
Definition date_re : regex :=
  Seq (Rep 1 2 digit) (Seq date_sep (Seq (Rep 1 2 digit) (Seq date_sep (Rep 2 4 digit)))).

(** [[\d,]+\.?\d*] *)
Definition amount_re : regex :=
  Seq (Plus (Chr (fun c => is_digit c || Ascii.eqb c ",")))
      (Seq (Opt (lit ".")) (Star digit)).

(** The class [[,$]] *)
Definition comma_dollar (c : ascii) : bool := Ascii.eqb c "," || Ascii.eqb c "$".

(** The amount parser (lines 200-204, and again 264-267). *)
Definition parse_amount (amount_str : string) : option PyFloat.float :=
  let amount_clean := re_sub_class comma_dollar amount_str in
  let amount_clean :=
    if startswith amount_clean "(" && endswith amount_clean ")"
    then "-" +:+ slice_1_m1 amount_clean
    else amount_clean in
  PyFloat.of_string amount_clean.

(** The date parser (lines 207-214, and again 270-277). *)
Definition parse_date (date_str : string) : option Strptime.date :=
  match Strptime.strptime date_str Strptime.fmt_mdy with
  | Some d => Some d
  | None => Strptime.strptime date_str Strptime.fmt_mdY
  end.

(** The body of the inner [try]: [None] when an exception of the parsers
    sends control to [continue]. *)
Definition candidate_transaction (date_str description amount_str : string)
  : option transaction :=
  match parse_amount amount_str with
  | None => None
  | Some amount =>
      match parse_date date_str with
      | None => None
      | Some date_obj =>
          let category := categorize_transaction description (Some amount) in
          Some {| t_id := None;
                  t_date := JStr (Strptime.isoformat date_obj);
                  t_description := JStr description;
                  t_amount := JFloat amount;
                  t_category := JStr category |}
      end
  end.

Definition clean_cell (cell : option string) : string :=
  match cell with
  | Some c => if String.eqb c "" then "" else strip c
  | None => ""
  end.

(** [l[1:-1]] *)
Definition interior {A : Type} (l : list A) : list A := removelast (tl l).

Definition nonempty (s : string) : bool := negb (String.eqb s "").

(** The guards of the table pass (lines 177-196): the date, description
    and amount texts of a row that passes them. *)
Definition table_row_candidate (row : list (option string))
  : option (string * string * string) :=
  if (3 <=? length row)%nat then
    let cleaned_row := map clean_cell row in
    if negb (nonempty (nth 0 cleaned_row "")) || negb (existsb nonempty cleaned_row)
    then None
    else
      let date_str := nth 0 cleaned_row "" in
      let description :=
        if (2 <? length cleaned_row)%nat then join " " (interior cleaned_row)
        else nth 1 cleaned_row "" in
      let amount_str :=
        if (1 <? length cleaned_row)%nat then List.last cleaned_row "" else "" in
      if re_match date_re date_str && re_search amount_re amount_str
      then Some (date_str, description, amount_str)
      else None
  else None.

Definition table_row_transaction (row : list (option string)) : option transaction :=
  match table_row_candidate row with
  | Some (date_str, description, amount_str) =>
      candidate_transaction date_str description amount_str
  | None => None
  end.

(** The guards of the text-line pass (lines 245-260). *)
Definition text_line_candidate (line : string) : option (string * string * string) :=
  let line := strip line in
  if negb (nonempty line) then None
  else if re_search date_re line && re_search amount_re line then
    let parts := split line in
    if (3 <=? length parts)%nat
    then Some (nth 0 parts "", join " " (interior parts), List.last parts "")
    else None
  else None.

Definition text_line_transaction (line : string) : option transaction :=
  match text_line_candidate line with
  | Some (date_str, description, amount_str) =>
      candidate_transaction date_str description amount_str
  | None => None
  end.

(** [transactions_data.append(transaction)] when there is one. *)
Definition append_opt (transactions_data : list transaction)
           (t : option transaction) : list transaction :=
  match t with
  | Some t => transactions_data ++ [t]
  | None => transactions_data
  end.

Definition process_table (transactions_data : list transaction)
           (table : list (list (option string))) : list transaction :=
  fold_left (fun acc row => append_opt acc (table_row_transaction row))
            table transactions_data.

Definition process_text (transactions_data : list transaction) (text : string)
  : list transaction :=
  fold_left (fun acc line => append_opt acc (text_line_transaction line))
            (split_on "010"%char text) transactions_data.

(** One iteration of [for page_num, page in enumerate(pdf.pages)]. *)
Definition process_page (transactions_data : list transaction) (p : page)
  : list transaction :=
  let after_tables :=
    match extract_tables p with
    | [] => transactions_data
    | tables => fold_left process_table tables transactions_data
    end in
  match extract_text p with
  | Some text =>
      if nonempty text then process_text after_tables text else after_tables
  | None => after_tables
  end.

Definition extract_transactions_from_pdf (pdf_path : pdf_file)
  : outcome (list transaction) :=
  try_except
    (pages ← pdfplumber_open pdf_path;
     mret (fold_left process_page pages []))
    (fun _ => Returns []).

(** ** The in-memory store and the endpoints that write transactions *)

Record pdf_info_t : Type := mk_pdf_info {
  filename : string;
  upload_date : string;
  transaction_count : nat
}.

Record bucket : Type := mk_bucket {
  transactions : list transaction;
  pdf_info : option pdf_info_t;
  processed : bool
}.

(** [financial_data]: year -> month -> bucket. *)
Abbreviation store := (gmap string (gmap string bucket)).

Inductive response : Type :=
| Ok (body : list transaction)      (* status 200 and the transactions sent back *)
| Error (status : nat).

Definition empty_bucket : bucket :=
  {| transactions := []; pdf_info := None; processed := false |}.

Definition months_of (financial_data : store) (year : string) : gmap string bucket :=
  default ∅ (financial_data !! year).

Definition get_bucket (financial_data : store) (year month : string) : option bucket :=
  financial_data !! year ≫= (λ months, months !! month).

(** [financial_data[year][month] = b] *)
Definition set_bucket (financial_data : store) (year month : string) (b : bucket)
  : store :=
  <[year := <[month := b]> (months_of financial_data year)]> financial_data.

(** The two [if ... not in ...] statements that create a bucket lazily. *)
Definition ensure_bucket (financial_data : store) (year month : string) : store :=
  let financial_data :=
    match financial_data !! year with
    | Some _ => financial_data
    | None => <[year := ∅]> financial_data
    end in
  match get_bucket financial_data year month with
  | Some _ => financial_data
  | None => set_bucket financial_data year month empty_bucket
  end.

(** [str(n)] for a natural number. *)
Definition str_of_nat (n : nat) : string :=
  DecimalString.NilEmpty.string_of_uint (Nat.to_uint n).

(** [float(v)] for a JSON value; [None] is [TypeError], [ValueError] or
    [OverflowError]. *)
Definition py_float (v : json) : option PyFloat.float :=
  match v with
  | JFloat f => Some f
  | JInt n => PyFloat.of_int n
  | JBool b => PyFloat.of_int (if b then 1 else 0)
  | JStr s => PyFloat.of_string s
  | JNull | JArr _ | JObj _ => None
  end.

(** [add_transaction(year, month)], with [data] the JSON object of the
    request.  A failing [float(data['amount'])] is an unhandled exception
    (status 500); the bucket has been created by then. *)
Definition add_transaction (financial_data : store) (year month : string)
           (data : gmap string json) : store * response :=
  match data !! "date", data !! "description", data !! "amount" with
  | Some date, Some description, Some amount =>
      let financial_data := ensure_bucket financial_data year month in
      let b := default empty_bucket (get_bucket financial_data year month) in
      let transaction_count := length (transactions b) in
      let transaction_id :=
        year +:+ "_" +:+ month +:+ "_manual_" +:+ str_of_nat transaction_count in
      match py_float amount with
      | None => (financial_data, Error 500)
      | Some amount =>
          let new_transaction :=
            {| t_id := Some transaction_id;
               t_date := date;
               t_description := description;
               t_amount := JFloat amount;
               t_category := default (JStr "Uncategorized") (data !! "category") |} in
          (set_bucket financial_data year month
             {| transactions := transactions b ++ [new_transaction];
                pdf_info := pdf_info b;
                processed := processed b |},
           Ok [new_transaction])
      end
  | _, _, _ => (financial_data, Error 400)
  end.

(** The four [if key in data: transaction[key] = data[key]] statements. *)
Definition apply_update (data : gmap string json) (t : transaction) : transaction :=
  {| t_id := t_id t;
     t_date := default (t_date t) (data !! "date");
     t_description := default (t_description t) (data !! "description");
     t_amount := default (t_amount t) (data !! "amount");
     t_category := default (t_category t) (data !! "category") |}.

(** The loop of [update_transaction]: the first transaction whose id is
    [transaction_id] is overwritten in place; the list after the update
    and the updated transaction, or [None] when no id matches. *)
Fixpoint update_first (transaction_id : string) (data : gmap string json)
         (l : list transaction) : option (list transaction * transaction) :=
  match l with
  | [] => None
  | t :: l' =>
      if bool_decide (t_id t = Some transaction_id)
      then Some (apply_update data t :: l', apply_update data t)
      else match update_first transaction_id data l' with
           | Some (l'', t') => Some (t :: l'', t')
           | None => None
           end
  end.

Definition update_transaction (financial_data : store)
           (year month transaction_id : string) (data : gmap string json)
  : store * response :=
  match get_bucket financial_data year month with
  | Some b =>
      match update_first transaction_id data (transactions b) with
      | Some (l, t) =>
          (set_bucket financial_data year month
             {| transactions := l; pdf_info := pdf_info b; processed := processed b |},
           Ok [t])
      | None => (financial_data, Error 404)
      end
  | None => (financial_data, Error 404)
  end.

(** [transaction['id'] = f"{year}_{month}_{filename}_{i}"] for the
    transactions from index [i] on. *)
Fixpoint assign_ids (year month filename : string) (i : nat)
         (l : list transaction) : list transaction :=
  match l with
  | [] => []
  | t :: l' =>
      {| t_id := Some (year +:+ "_" +:+ month +:+ "_" +:+ filename +:+ "_"
                       +:+ str_of_nat i);
         t_date := t_date t;
         t_description := t_description t;
         t_amount := t_amount t;
         t_category := t_category t |}
      :: assign_ids year month filename (S i) l'
  end.

Definition UPLOAD_FOLDER : string := "uploads".

(** [os.path.join(a, b)] as [posixpath] has it. *)
Definition path_join (a b : string) : string :=
  if startswith b "/" then b
  else if String.eqb a "" || endswith a "/" then a +:+ b
  else a +:+ "/" +:+ b.

(** The file system as [upload_file] meets it: what [file.save(path)] and
    [os.remove(path)] do at a path, [None] when the call succeeds and the
    exception it raises otherwise. *)
Record filesystem : Type := {
  file_save : string → option exn;
  os_remove : string → option exn
}.

(** [upload_file]: [fs] is the file system, [file] the uploaded file (its
    name and what [pdfplumber] makes of it once saved), [year] and [month]
    the form fields, [now] the text of [datetime.now().isoformat()].  Any
    exception inside the [try] is answered with status 500; the removal of
    the saved file comes after the store has been written. *)
Definition upload_file (financial_data : store) (fs : filesystem)
           (file : option (string * pdf_file)) (year month : option string)
           (now : string) : store * response :=
  match file with
  | None => (financial_data, Error 400)
  | Some (fname, content) =>
      if negb (nonempty fname) then (financial_data, Error 400)
      else
        match year, month with
        | Some year, Some month =>
            if negb (nonempty year) || negb (nonempty month)
            then (financial_data, Error 400)
            else if endswith (lower fname) ".pdf" then
              let filepath := path_join UPLOAD_FOLDER fname in
              match file_save fs filepath with
              | Some _ => (financial_data, Error 500)
              | None =>
                  match extract_transactions_from_pdf content with
                  | Raises _ => (financial_data, Error 500)
                  | Returns extracted =>
                      let extracted_transactions :=
                        assign_ids year month fname 0 extracted in
                      let financial_data := ensure_bucket financial_data year month in
                      let b :=
                        default empty_bucket (get_bucket financial_data year month) in
                      let financial_data :=
                        set_bucket financial_data year month
                          {| transactions := extracted_transactions;
                             pdf_info := Some {| filename := fname;
                                                 upload_date := now;
                                                 transaction_count :=
                                                   length extracted_transactions |};
                             processed := processed b |} in
                      match os_remove fs filepath with
                      | Some _ => (financial_data, Error 500)
                      | None => (financial_data, Ok extracted_transactions)
                      end
                  end
              end
            else (financial_data, Error 400)
        | _, _ => (financial_data, Error 400)
        end
  end.

(** ** Vocabulary of the specification *)

(** [p] occurs in [d] as a substring, letter case ignored. *)
Definition ci_contains (p d : string) : Prop :=
  ∃ a m b, d = a +:+ m +:+ b ∧ lower m = lower p.

(** [d] starts with [p], letter case ignored. *)
Definition ci_startswith (p d : string) : Prop :=
  ∃ m b, d = m +:+ b ∧ lower m = lower p.

(** One of the keywords [kws] occurs in [d], letter case ignored. *)
Definition any_ci (kws : list string) (d : string) : Prop :=
  Exists (λ kw, ci_contains kw d) kws.

(** [d] is caught by one of the special cases that
    [categorize_transaction] tests before the keyword table. *)
Definition step1_override (d : string) : Prop :=
  any_ci ["tesla"; "home depot"; "hdphotohub"; "affirm"; "amex"; "square inc";
          "apple"; "bk od amer"; "cubicasa"] d
  ∨ ci_startswith "square " d ∨ ci_startswith "sq *" d.

(** The special cases tested before the payment-processor one. *)
Definition earlier_override (d : string) : Prop :=
  any_ci ["tesla"; "home depot"; "hdphotohub"; "affirm"; "amex"] d.

(** The category of a transaction is one of the enumerated names. *)
Definition category_ok (t : transaction) : Prop :=
  ∃ c, t_category t = JStr c ∧ In c CATEGORIES.

(** Every stored transaction has such a category. *)
Definition store_ok (financial_data : store) : Prop :=
  ∀ year months month b,
    financial_data !! year = Some months → months !! month = Some b →
    Forall category_ok (transactions b).

(** The request body names no category, or names an enumerated one. *)
Definition supplied_ok (data : gmap string json) : Prop :=
  match data !! "category" with
  | None => True
  | Some v => ∃ c, v = JStr c ∧ In c CATEGORIES
  end.

(** A request body that [add_transaction] accepts, with a category
    outside the enumeration. *)
Definition groceries_request : gmap string json :=
  {[ "date" := JStr "2024-03-04"; "description" := JStr "Corner market";
     "amount" := JInt (-12); "category" := JStr "Groceries" ]}.

(** [name] is the canonical name of the first rule, in list order, whose
    pattern is found in [d]. *)
Definition first_match (rules : list (regex * string)) (d name : string) : Prop :=
  ∃ before pattern after,
    rules = (before ++ (pattern, name) :: after)%list
    ∧ re_search pattern d = true
    ∧ Forall (λ r, re_search r.1 d = false) before.

Definition no_match (rules : list (regex * string)) (d : string) : Prop :=
  Forall (λ r, re_search r.1 d = false) rules.

(** What is left of [d] when every character that is neither a letter
    A-Z, a-z nor whitespace is deleted and the ends are trimmed. *)
Definition letters_of (d : string) : string :=
  strip (PyStr.filter (λ c, is_alpha_az c || is_space c) d).

(** Every character of [s] satisfies [P]. *)
Fixpoint all_chars (P : ascii → bool) (s : string) : Prop :=
  match s with
  | EmptyString => True
  | String c s' => P c = true ∧ all_chars P s'
  end.

(** [s] has a digit in it. *)
Fixpoint has_digit (s : string) : bool :=
  match s with
  | EmptyString => false
  | String c s' => is_digit c || has_digit s'
  end.

(** Not a finite number: NaN or an infinity. *)
Definition not_finite (v : PyFloat.float) : Prop :=
  v = S754_nan ∨ ∃ sign, v = S754_infinity sign.

(** The number a run of decimal digits denotes. *)
Fixpoint number (ds : string) : Z :=
  match ds with
  | EmptyString => 0
  | String c ds' =>
      (PyFloat.digit_val c * 10 ^ Z.of_nat (String.length ds') + number ds')%Z
  end.

(** A sign: a minus, a plus or nothing. *)
Definition sign_text (neg : bool) (sg : string) : Prop :=
  (neg = true ∧ sg = "-") ∨ (neg = false ∧ (sg = "+" ∨ sg = "")).

(** An exponent: nothing, or e or E, a sign and one or more digits. *)
Definition exponent_text (ex : string) (e : Z) : Prop :=
  (ex = "" ∧ e = 0%Z)
  ∨ ∃ mark sg ds eneg,
      ex = String mark (sg +:+ ds)
      ∧ (mark = "e"%char ∨ mark = "E"%char)
      ∧ sign_text eneg sg ∧ ds ≠ "" ∧ all_chars is_digit ds
      ∧ e = (if eneg : bool then - number ds else number ds)%Z.

(** A decimal numeral and the value it denotes under the sign [neg]:
    digits with at most one decimal point, at least one digit before or
    after the point, and an exponent. *)
Definition numeral_text (neg : bool) (body : string) (v : PyFloat.float) : Prop :=
  ∃ ip fp ex e (point : bool),
    body = ip +:+ (if point then "." else "") +:+ fp +:+ ex
    ∧ all_chars is_digit ip ∧ all_chars is_digit fp
    ∧ (ip ≠ "" ∨ fp ≠ "") ∧ (point = false → fp = "")
    ∧ exponent_text ex e
    ∧ v = PyFloat.of_decimal neg (number (ip +:+ fp))
                             (e - Z.of_nat (String.length fp)).

(** One of the words inf, infinity and nan, in any letter case. *)
Definition word_text (neg : bool) (body : string) (v : PyFloat.float) : Prop :=
  ((PyFloat.lower_az body = "inf" ∨ PyFloat.lower_az body = "infinity")
   ∧ v = S754_infinity neg)
  ∨ (PyFloat.lower_az body = "nan" ∧ v = S754_nan).

(** The character of [t] at index [i] is a digit. *)
Definition digit_at (t : string) (i : nat) : Prop :=
  ∃ d, String.get i t = Some d ∧ is_digit d = true.

(** Every underscore of [t] stands between two digits. *)
Definition underscores_between_digits (t : string) : Prop :=
  ∀ i, String.get i t = Some "_"%char →
       (∃ j, i = S j ∧ digit_at t j) ∧ digit_at t (S i).

(** [s] with the characters of the class [drop] deleted. *)
Definition without (drop : ascii → bool) (s : string) : string :=
  PyStr.filter (λ c, negb (drop c)) s.

(** What a text must be for [float] to read the value [v] in it: trimmed
    of the whitespace at its ends, it has underscores between digits
    only, and once they are dropped it is a sign followed by one of the
    three words or by a decimal numeral. *)
Definition float_reads (text : string) (v : PyFloat.float) : Prop :=
  let t := strip_by PyFloat.is_float_space text in
  underscores_between_digits t
  ∧ ∃ sg body neg,
      without (λ c, Ascii.eqb c "_") t = sg +:+ body
      ∧ sign_text neg sg
      ∧ (word_text neg body v ∨ numeral_text neg body v).

(** The text does not go on with a digit. *)
Definition no_digit_ahead (rest : string) : Prop :=
  match rest with
  | EmptyString => True
  | String c _ => is_digit c = false
  end.

(** The condition on underscores for a text that follows the character
    [prev]. *)
Definition guarded (prev : ascii) (s : string) : Prop :=
  (∀ i, String.get i s = Some "_"%char →
        match i with
        | O => is_digit prev = true
        | S j => digit_at s j
        end ∧ digit_at s (S i))
  ∧ (prev = "_"%char → digit_at s 0).

(** The characters of an amount written the plain way: digits, the
    decimal point, thousands separators and the dollar sign. *)
Definition plain_amount_char (c : ascii) : bool :=
  is_digit c || Ascii.eqb c "." || Ascii.eqb c "," || Ascii.eqb c "$".

(** Digits and the decimal point. *)
Definition numeral_char (c : ascii) : bool := is_digit c || Ascii.eqb c ".".

(** The character of a decimal digit. *)
Definition digit_char (k : Z) : ascii := ascii_of_nat (48 + Z.to_nat k).

(** A date written MM/DD/YY and MM/DD/YYYY, zero padded. *)
Definition text_mdy (d : Strptime.date) : string :=
  Strptime.zpad 2 (Strptime.month d) +:+ "/" +:+ Strptime.zpad 2 (Strptime.day d)
  +:+ "/" +:+ Strptime.zpad 2 (Strptime.year d mod 100).

Definition text_mdY (d : Strptime.date) : string :=
  Strptime.zpad 2 (Strptime.month d) +:+ "/" +:+ Strptime.zpad 2 (Strptime.day d)
  +:+ "/" +:+ Strptime.zpad 4 (Strptime.year d).

(** The first cell of a row that is not empty once trimmed. *)
Definition first_nonempty_cell (row : list (option string)) : option string :=
  List.find nonempty (map clean_cell row).

(** The transactions of the table pass on a page, in table and row
    order, and those of the text-line pass, in line order. *)
Definition table_pass (p : page) : list transaction :=
  flat_map (λ table, flat_map (λ row, option_list (table_row_transaction row)) table)
           (extract_tables p).

Definition text_pass (p : page) : list transaction :=
  match extract_text p with
  | Some text =>
      flat_map (λ line, option_list (text_line_transaction line))
               (split_on "010"%char text)
  | None => []
  end.

(** A page whose only table row is also a line of its text. *)
Definition amazon_page : page :=
  {| extract_tables := [[[Some "03/01/24"; Some "AMAZON MARKETPLACE"; Some "$45.67"]]];
     extract_text := Some "03/01/24 AMAZON MARKETPLACE $45.67" |}.

Definition amazon_transaction : transaction :=
  {| t_id := None;
     t_date := JStr "2024-03-01";
     t_description := JStr "AMAZON MARKETPLACE";
     t_amount := JFloat (S754_finite false 6427481093187830 (-47));
     t_category := JStr "Supplies" |}.

(** ** The other endpoints on the store *)

(** [get_transactions_by_month]: the transactions, the upload record and
    the processed flag of a month, or the defaults. *)
Definition get_transactions_by_month (financial_data : store) (year month : string)
  : list transaction * option pdf_info_t * bool :=
  match get_bucket financial_data year month with
  | Some b => (transactions b, pdf_info b, processed b)
  | None => ([], None, false)
  end.

(** [mark_month_processed] *)
Definition mark_month_processed (financial_data : store) (year month : string)
  : store * response :=
  match get_bucket financial_data year month with
  | Some b =>
      (set_bucket financial_data year month
         {| transactions := transactions b; pdf_info := pdf_info b;
            processed := true |},
       Ok [])
  | None => (financial_data, Error 404)
  end.

(** The body of the answer of [get_workflow_status]; the key ['months'] is
    absent when the year is unknown. *)
Record workflow_status : Type := mk_workflow_status {
  total_months : nat;
  processed_months : nat;
  completed : bool;
  months : option (gmap string bool)
}.

Definition get_workflow_status (financial_data : store) (year : string)
  : workflow_status :=
  match financial_data !! year with
  | None =>
      {| total_months := 0; processed_months := 0; completed := false;
         months := None |}
  | Some year_data =>
      let total_months := size year_data in
      let processed_months :=
        size (base.filter (λ kv : string * bucket, processed kv.2 = true)
                          year_data) in
      {| total_months := total_months;
         processed_months := processed_months;
         completed := (processed_months =? total_months)%nat
                      && (0 <? total_months)%nat;
         months := Some (processed <$> year_data) |}
  end.

(** The loop of [delete_transaction]: the first transaction whose id is
    [transaction_id] is popped; the list left and the transaction popped,
    or [None] when no id matches. *)
Fixpoint delete_first (transaction_id : string) (l : list transaction)
  : option (list transaction * transaction) :=
  match l with
  | [] => None
  | t :: l' =>
      if bool_decide (t_id t = Some transaction_id)
      then Some (l', t)
      else match delete_first transaction_id l' with
           | Some (l'', d) => Some (t :: l'', d)
           | None => None
           end
  end.

Definition delete_transaction (financial_data : store)
           (year month transaction_id : string) : store * response :=
  match get_bucket financial_data year month with
  | Some b =>
      match delete_first transaction_id (transactions b) with
      | Some (l, deleted_transaction) =>
          (set_bucket financial_data year month
             {| transactions := l; pdf_info := pdf_info b; processed := processed b |},
           Ok [deleted_transaction])
      | None => (financial_data, Error 404)
      end
  | None => (financial_data, Error 404)
  end.

(** ** Vocabulary for the store *)

(** A call of one of the endpoints that write to the store. *)
Inductive request : Type :=
| Upload (fs : filesystem) (file : option (string * pdf_file))
         (year month : option string) (now : string)
| Add (year month : string) (data : gmap string json)
| Update (year month transaction_id : string) (data : gmap string json)
| Delete (year month transaction_id : string)
| MarkProcessed (year month : string).

Definition handle (financial_data : store) (r : request) : store * response :=
  match r with
  | Upload fs file year month now =>
      upload_file financial_data fs file year month now
  | Add year month data => add_transaction financial_data year month data
  | Update year month transaction_id data =>
      update_transaction financial_data year month transaction_id data
  | Delete year month transaction_id =>
      delete_transaction financial_data year month transaction_id
  | MarkProcessed year month => mark_month_processed financial_data year month
  end.

(** The store after a sequence of calls. *)
Definition run_requests (financial_data : store) (rs : list request) : store :=
  fold_left (λ fd r, (handle fd r).1) rs financial_data.

(** The id [add_transaction] gives to the transaction number [n] of a month. *)
Definition manual_id (year month : string) (n : nat) : string :=
  year +:+ "_" +:+ month +:+ "_manual_" +:+ str_of_nat n.

(** The id [upload_file] gives to the transaction number [i] of a file. *)
Definition upload_id (year month fname : string) (i : nat) : string :=
  year +:+ "_" +:+ month +:+ "_" +:+ fname +:+ "_" +:+ str_of_nat i.

(** The transaction a request body describes, when it has the three
    required keys and an amount [float] accepts. *)
Definition described (data : gmap string json) (id : string) : option transaction :=
  match data !! "date", data !! "description", data !! "amount" with
  | Some date, Some description, Some amount =>
      match py_float amount with
      | Some a =>
          Some {| t_id := Some id; t_date := date; t_description := description;
                  t_amount := JFloat a;
                  t_category := default (JStr "Uncategorized") (data !! "category") |}
      | None => None
      end
  | _, _, _ => None
  end.

(** No transaction of [l] has the id [id]. *)
Definition id_free (id : string) (l : list transaction) : Prop :=
  Forall (λ t, t_id t ≠ Some id) l.

(** Every stored transaction has an id. *)
Definition all_have_ids (financial_data : store) : Prop :=
  ∀ year month b, get_bucket financial_data year month = Some b →
                  Forall (λ t, is_Some (t_id t)) (transactions b).

(** The conditions under which [upload_file] goes on to read the file:
    a file name that ends in .pdf, in any letter case, and a year and a
    month that are not empty. *)
Definition upload_accepted (fname year month : string) : Prop :=
  fname ≠ "" ∧ year ≠ "" ∧ month ≠ ""
  ∧ ∃ stem, lower fname = stem +:+ ".pdf".

(** Where [upload_file] saves a file of that name. *)
Definition upload_path (fname : string) : string := path_join UPLOAD_FOLDER fname.

(** A file system on which every call succeeds. *)
Definition sound_disk : filesystem :=
  {| file_save := λ _, None; os_remove := λ _, None |}.

(** A file system without the directory [uploads/sub]: a file cannot be
    saved under it. *)
Definition flat_disk : filesystem :=
  {| file_save := λ path,
       if startswith path "uploads/sub/"
       then Some (Exception "[Errno 2] No such file or directory")
       else None;
     os_remove := λ _, None |}.

(** A file system on which a saved file cannot be removed again. *)
Definition locked_disk : filesystem :=
  {| file_save := λ _, None;
     os_remove := λ _, Some (Exception "[Errno 13] Permission denied") |}.

(** ** Vocabulary for the extraction passes *)

(** A transaction as the extraction builds it from a date, a description
    and an amount: no id, the date in ISO form, the category computed
    from the description and the amount. *)
Definition built_from (d : Strptime.date) (description : string)
           (amount : PyFloat.float) (t : transaction) : Prop :=
  Strptime.valid_date d = true
  ∧ t = {| t_id := None;
           t_date := JStr (Strptime.isoformat d);
           t_description := JStr description;
           t_amount := JFloat amount;
           t_category := JStr (categorize_transaction description (Some amount)) |}.

(** A page without tables and without text. *)
Definition blank_page (p : page) : Prop :=
  extract_tables p = [] ∧ (extract_text p = None ∨ extract_text p = Some "").

(** The characters a date text can be made of: digits, the slash, and
    the space that may stand for the first digit of the day. *)
Definition date_char (c : ascii) : bool :=
  is_digit c || Ascii.eqb c "/" || Ascii.eqb c " ".

Definition digit_or_space (c : ascii) : bool := is_digit c || Ascii.eqb c " ".

(** What one directive of a date format can have read. *)
Definition consumed (d : Strptime.directive) (piece : string) : Prop :=
  match d with
  | Strptime.D_m => all_chars is_digit piece
  | Strptime.D_d => all_chars digit_or_space piece
  | Strptime.D_y => all_chars is_digit piece ∧ String.length piece = 2%nat
  | Strptime.D_Y => all_chars is_digit piece ∧ String.length piece = 4%nat
  | Strptime.D_lit x => ∃ a, piece = String a "" ∧ lower_char a = lower_char x
  end.

(** The concatenation of the pieces. *)
Fixpoint glue (pieces : list string) : string :=
  match pieces with
  | [] => ""
  | p :: ps => p +:+ glue ps
  end.

(** A store with one month holding one transaction added by hand. *)
Definition lunch_request : gmap string json :=
  {[ "date" := JStr "2024-03-04"; "description" := JStr "Lunch";
     "amount" := JStr "12.50" ]}.

Definition lunch : transaction :=
  {| t_id := Some "2024_03_manual_0";
     t_date := JStr "2024-03-04";
     t_description := JStr "Lunch";
     t_amount := JFloat (S754_finite false 7036874417766400 (-49));
     t_category := JStr "Uncategorized" |}.

Definition lunch_bucket : bucket :=
  {| transactions := [lunch]; pdf_info := None; processed := false |}.

Definition lunch_store : store :=
  (add_transaction ∅ "2024" "03" lunch_request).1.

(** The payment-processor special case of [categorize_transaction]. *)
Definition square_case (d : string) : Prop :=
  ci_contains "square inc" d ∨ ci_startswith "square " d ∨ ci_startswith "sq *" d.

(** An amount was given and is above zero. *)
Definition above_zero (amount : option PyFloat.float) : Prop :=
  ∃ a, amount = Some a ∧ PyFloat.gt a PyFloat.zero = true.

(** * The installer [setup.py]

    The script starts processes and ends the interpreter; what it prints
    is left out.  A run is modelled by the list of processes it started,
    in order, and the way it ended. *)

Module Setup.

(** [sys.version_info] *)
Record version_info : Type := { major : Z; minor : Z }.

(** What [subprocess.run(command, shell=True, cwd=cwd, check=True)] meets:
    the shell ran and exited with a return code, or it could not be
    started ([OSError], for instance when [cwd] does not exist). *)
Inductive shell_outcome : Type :=
| Exited (returncode : Z)
| NotStarted.

(** What [subprocess.run(['node', '--version'], ...)] meets. *)
Inductive node_outcome : Type :=
| NodeExited (returncode : Z)
| NodeNotFound      (* FileNotFoundError *)
| NodeError.        (* any other exception *)

(** The machine the script runs on. *)
Record world : Type := {
  version : version_info;
  system : string;                           (* platform.system() *)
  node : node_outcome;
  shell : string → string → shell_outcome    (* command, cwd *)
}.

(** A call of [subprocess.run]. *)
Inductive event : Type :=
| RunNode
| RunShell (command cwd : string).

Inductive result (A : Type) : Type :=
| Return (a : A)
| Raise                (* an exception that nothing catches *)
| SysExit (code : Z).
Arguments Return {A} a.
Arguments Raise {A}.
Arguments SysExit {A} code.

(** A computation: the processes started, and how it ended. *)
Definition M (A : Type) : Type := (list event * result A)%type.

#[export] Instance M_ret : MRet M := λ A a, ([], Return a).

#[export] Instance M_bind : MBind M := λ A B f m,
  match m with
  | (tr, Return a) => let '(tr', r) := f a in ((tr ++ tr')%list, r)
  | (tr, Raise) => (tr, Raise)
  | (tr, SysExit code) => (tr, SysExit code)
  end.

Definition sys_exit {A : Type} (code : Z) : M A := ([], SysExit code).

(** Only [CalledProcessError], raised for a return code other than 0, is
    caught. *)
Definition run_command (w : world) (command cwd : string) : M bool :=
  match shell w command cwd with
  | Exited returncode =>
      ([RunShell command cwd], Return (returncode =? 0)%Z)
  | NotStarted => ([RunShell command cwd], Raise)
  end.

Definition check_python (w : world) : bool :=
  (3 <=? major (version w))%Z && (10 <=? minor (version w))%Z.

Definition check_node (w : world) : M bool :=
  match node w with
  | NodeExited returncode => ([RunNode], Return (returncode =? 0)%Z)
  | NodeNotFound => ([RunNode], Return false)
  | NodeError => ([RunNode], Raise)
  end.

Definition venv_command : string := "python -m venv venv".

Definition activate_command (w : world) : string :=
  if String.eqb (system w) "Windows"
  then "venv\Scripts\activate && pip install -r requirements.txt"
  else "source venv/bin/activate && pip install -r requirements.txt".

Definition setup_backend (w : world) : M bool :=
  created ← run_command w venv_command "backend";
  if negb created then mret false
  else
    installed ← run_command w (activate_command w) "backend";
    if negb installed then mret false else mret true.

Definition setup_frontend (w : world) : M bool :=
  installed ← run_command w "npm install" "frontend-nextjs";
  if negb installed then mret false else mret true.

(** [not check_python() or not check_node()]: the second test is made only
    when the first passes. *)
Definition main (w : world) : M unit :=
  prerequisites ←
    (if negb (check_python w) then mret false else check_node w);
  if negb prerequisites then sys_exit 1
  else
    backend ← setup_backend w;
    if negb backend then sys_exit 1
    else
      frontend ← setup_frontend w;
      if negb frontend then sys_exit 1 else mret tt.

(** The version is [M.m] or later. *)
Definition at_least (v : version_info) (M m : Z) : Prop :=
  (M < major v ∨ (major v = M ∧ m <= minor v))%Z.



(** A machine on which every command succeeds. *)
Definition machine (M m : Z) : world :=
  {| version := {| major := M; minor := m |};
     system := "Linux";
     node := NodeExited 0;
     shell := λ _ _, Exited 0 |}.

End Setup.

(** * Properties *)

(** ** Strings *)

Section StringFacts.

Lemma str_app_nil_l (s : string) : "" +:+ s = s.
Proof. reflexivity. Qed.

Lemma str_app_cons (c : ascii) (a b : string) :
  String c a +:+ b = String c (a +:+ b).
Proof. reflexivity. Qed.

Lemma str_app_nil_r (s : string) : s +:+ "" = s.
Proof. induction s as [|c s IH]; [reflexivity | now rewrite str_app_cons, IH]. Qed.

Lemma str_app_assoc (a b c : string) : (a +:+ b) +:+ c = a +:+ b +:+ c.
Proof. induction a as [|x a IH]; [reflexivity | now rewrite !str_app_cons, IH]. Qed.

Lemma startswith_spec (s p : string) :
  startswith s p = true ↔ ∃ b, s = p +:+ b.
Proof.
  revert s. induction p as [|x p IH]; intros s; simpl.
  - split; [intros _; now exists s | reflexivity].
  - destruct s as [|y s]; [split; [discriminate | intros [b Hb]; discriminate] |].
    rewrite andb_true_iff, Ascii.eqb_eq, IH. split.
    + intros [-> [b ->]]. now exists b.
    + intros [b Hb]. rewrite str_app_cons in Hb. injection Hb as -> ->. eauto.
Qed.

Lemma contains_spec (p s : string) :
  contains p s = true ↔ ∃ a b, s = a +:+ p +:+ b.
Proof.
  induction s as [|y s IH]; simpl.
  - rewrite orb_false_r, startswith_spec. split.
    + intros [b Hb]. now exists "", b.
    + intros [a [b Hb]]. destruct a; [now exists b | discriminate].
  - rewrite orb_true_iff, IH, startswith_spec. split.
    + intros [[b Hb] | [a [b Hb]]].
      * now exists "", b.
      * exists (String y a), b. now rewrite str_app_cons, Hb.
    + intros [a [b Hb]]. destruct a as [|x a].
      * left. now exists b.
      * right. rewrite str_app_cons in Hb. injection Hb as _ Hb. now exists a, b.
Qed.

Lemma lower_app (a b : string) : lower (a +:+ b) = lower a +:+ lower b.
Proof.
  induction a as [|x a IH]; [reflexivity |].
  rewrite str_app_cons. simpl. now rewrite IH, str_app_cons.
Qed.

(** A decomposition of [lower d] comes from one of [d]. *)
Lemma lower_app_inv (d a' b' : string) :
  lower d = a' +:+ b' → ∃ a b, d = a +:+ b ∧ lower a = a' ∧ lower b = b'.
Proof.
  revert d. induction a' as [|x a' IH]; intros d H.
  - now exists "", d.
  - destruct d as [|y d]; [discriminate |].
    rewrite str_app_cons in H. simpl in H. injection H as Hx H.
    destruct (IH d H) as (a & b & -> & Ha & Hb).
    exists (String y a), b. simpl. now rewrite Hx, Ha.
Qed.

Lemma ci_contains_iff (p d : string) :
  ci_contains p d ↔ contains (lower p) (lower d) = true.
Proof.
  rewrite contains_spec. split.
  - intros (a & m & b & -> & Hm). exists (lower a), (lower b).
    now rewrite !lower_app, Hm.
  - intros (a' & b' & H).
    destruct (lower_app_inv _ _ _ H) as (a & r & -> & Ha & Hr).
    destruct (lower_app_inv _ _ _ Hr) as (m & b & -> & Hm & Hb).
    now exists a, m, b.
Qed.

Lemma ci_startswith_iff (p d : string) :
  ci_startswith p d ↔ startswith (lower d) (lower p) = true.
Proof.
  rewrite startswith_spec. split.
  - intros (m & b & -> & Hm). exists (lower b). now rewrite lower_app, Hm.
  - intros (b' & H).
    destruct (lower_app_inv _ _ _ H) as (m & b & -> & Hm & Hb).
    now exists m, b.
Qed.

Lemma not_ci_contains (p d : string) :
  ¬ ci_contains p d ↔ contains (lower p) (lower d) = false.
Proof. rewrite ci_contains_iff. destruct (contains _ _); split; congruence. Qed.

(** The same for a pattern written in lower case, as all keywords of the
    program are. *)
Lemma ci_contains_lit (p d : string) :
  lower p = p → (ci_contains p d ↔ contains p (lower d) = true).
Proof. intros Hp. now rewrite ci_contains_iff, Hp. Qed.

Lemma not_ci_contains_lit (p d : string) :
  lower p = p → (¬ ci_contains p d ↔ contains p (lower d) = false).
Proof. intros Hp. now rewrite not_ci_contains, Hp. Qed.

Lemma ci_startswith_lit (p d : string) :
  lower p = p → (ci_startswith p d ↔ startswith (lower d) p = true).
Proof. intros Hp. now rewrite ci_startswith_iff, Hp. Qed.

End StringFacts.

(** ** The regular-expression matcher *)

Section Matcher.

Lemma rmatch_shorter (r : regex) (prev prev' : option ascii) (s s' : string) :
  rmatch r prev s prev' s' →
  (String.length s' <= String.length s)%nat
  ∧ (String.length s' = String.length s → prev' = prev ∧ s' = s).
Proof.
  induction 1 as [ | | ? ? ? ? ? ? ? ? _ [L1 E1] _ [L2 E2] | ? ? ? ? ? ? _ IH
                 | ? ? ? ? ? ? _ IH | | ? ? ? ? ? ? ? _ [L1 E1] _ [L2 E2] | ];
    simpl; try (split; [lia | tauto]); try exact IH.
  - split; [lia | intros; lia].
  - split; [lia |]. intros E.
    destruct E2 as [-> ->]; [lia |]. apply E1. lia.
  - split; [lia |]. intros E.
    destruct E2 as [-> ->]; [lia |]. apply E1. lia.
Qed.

(** The loop of a star computes the matches of the star, given that
    [step] computes those of its body. *)
Lemma star_loop_spec (r : regex)
      (step : option ascii → string → (option ascii → string → bool) → bool)
      (k : option ascii → string → bool) :
  (∀ prev s k', step prev s k' = true
                ↔ ∃ prev' s', rmatch r prev s prev' s' ∧ k' prev' s' = true) →
  ∀ fuel prev s, (String.length s <= fuel)%nat →
    (star_loop step k fuel prev s = true
     ↔ ∃ prev' s', rmatch (Star r) prev s prev' s' ∧ k prev' s' = true).
Proof.
  intros Hstep fuel prev s Hf. split.
  - revert prev s Hf. induction fuel as [|fuel IH]; intros prev s Hf; simpl.
    + intros Hk. exists prev, s. split; [constructor | exact Hk].
    + rewrite orb_true_iff, Hstep.
      intros [(prev1 & s1 & Hm & Hk) | Hk].
      * apply andb_true_iff in Hk. destruct Hk as [Hlt Hk].
        apply Nat.ltb_lt in Hlt.
        destruct (IH prev1 s1 ltac:(lia) Hk) as (prev2 & s2 & Hm2 & Hk2).
        exists prev2, s2. split; [econstructor; eassumption | exact Hk2].
      * exists prev, s. split; [constructor | exact Hk].
  - intros (prev' & s' & Hm & Hk). revert fuel Hf.
    remember (Star r) as R eqn:ER.
    induction Hm as [ | | | | | r0 prev s
                    | r0 prev s prev1 s1 prev2 s2 Hm1 _ Hm2 IH2 | ];
      try discriminate ER; intros fuel Hf.
    + destruct fuel; simpl; [exact Hk |]. rewrite Hk. apply orb_true_r.
    + injection ER as ->. specialize (IH2 eq_refl Hk).
      destruct (rmatch_shorter _ _ _ _ _ Hm1) as [L1 E1].
      destruct (Nat.eq_dec (String.length s1) (String.length s)) as [E | NE].
      * destruct (E1 E) as [-> ->]. now apply IH2.
      * destruct fuel as [|fuel]; [lia |]. simpl.
        apply orb_true_iff. left. apply Hstep. exists prev1, s1.
        split; [exact Hm1 |]. apply andb_true_iff. split.
        -- apply Nat.ltb_lt. lia.
        -- apply IH2. lia.
Qed.

(** The matcher decides the matching relation. *)
Lemma run_spec (r : regex) (prev : option ascii) (s : string)
      (k : option ascii → string → bool) :
  run r prev s k = true
  ↔ ∃ prev' s', rmatch r prev s prev' s' ∧ k prev' s' = true.
Proof.
  revert prev s k. induction r as [ | p | r1 IH1 r2 IH2 | r1 IH1 r2 IH2 | r IH | ];
    intros prev s k; simpl.
  - split; [intros Hk; exists prev, s; split; [constructor | exact Hk] |].
    intros (prev' & s' & Hm & Hk). now inversion Hm; subst.
  - destruct s as [|c s].
    + split; [discriminate |]. intros (prev' & s' & Hm & _). inversion Hm.
    + rewrite andb_true_iff. split.
      * intros [Hp Hk]. exists (Some c), s. split; [now constructor | exact Hk].
      * intros (prev' & s' & Hm & Hk). now inversion Hm; subst.
  - rewrite IH1. split.
    + intros (prev1 & s1 & Hm1 & H2). apply IH2 in H2.
      destruct H2 as (prev2 & s2 & Hm2 & Hk).
      exists prev2, s2. split; [econstructor; eassumption | exact Hk].
    + intros (prev2 & s2 & Hm & Hk). inversion Hm; subst.
      eexists _, _. split; [eassumption |]. apply IH2. eauto.
  - rewrite orb_true_iff, IH1, IH2. split.
    + intros [(prev' & s' & Hm & Hk) | (prev' & s' & Hm & Hk)];
        exists prev', s'; (split; [| exact Hk]);
        [now apply M_alt_l | now apply M_alt_r].
    + intros (prev' & s' & Hm & Hk). inversion Hm; subst; eauto.
  - apply star_loop_spec; [intros; apply IH | lia].
  - rewrite andb_true_iff. split.
    + intros [Hb Hk]. exists prev, s. split; [now constructor | exact Hk].
    + intros (prev' & s' & Hm & Hk). now inversion Hm; subst.
Qed.

Lemma re_match_spec (r : regex) (s : string) :
  re_match r s = true ↔ ∃ prev' s', rmatch r None s prev' s'.
Proof.
  unfold re_match, matches_at. rewrite run_spec. split.
  - intros (prev' & s' & Hm & _). eauto.
  - intros (prev' & s' & Hm). exists prev', s'. split; [exact Hm | reflexivity].
Qed.

Lemma search_from_spec (r : regex) (prev : option ascii) (s : string) :
  search_from r prev s = true
  ↔ ∃ a b prev' s', s = a +:+ b ∧ rmatch r (prev_after prev a) b prev' s'.
Proof.
  revert prev. induction s as [|c s IH]; intros prev; simpl;
    unfold matches_at; rewrite orb_true_iff, run_spec.
  - split.
    + intros [(prev' & s' & Hm & _) | H]; [| discriminate].
      now exists "", "", prev', s'.
    + intros (a & b & prev' & s' & E & Hm). left.
      destruct a; [| discriminate]. rewrite str_app_nil_l in E. subst b. eauto.
  - rewrite IH. split.
    + intros [(prev' & s' & Hm & _) | (a & b & prev' & s' & -> & Hm)].
      * now exists "", (String c s), prev', s'.
      * now exists (String c a), b, prev', s'.
    + intros (a & b & prev' & s' & E & Hm). destruct a as [|x a].
      * left. rewrite str_app_nil_l in E. subst b. eauto.
      * right. rewrite str_app_cons in E. injection E as -> ->.
        now exists a, b, prev', s'.
Qed.

(** [re.search] finds a match at some position of the subject. *)
Lemma re_search_spec (r : regex) (s : string) :
  re_search r s = true
  ↔ ∃ a b prev' s', s = a +:+ b ∧ rmatch r (prev_after None a) b prev' s'.
Proof. apply search_from_spec. Qed.

End Matcher.

(** ** The categorizer *)

(** C4. A description with "tesla" in it (any letter case) is EV/Gas when
    it also has "super" or "charge" in it, and Repairs and Maintenance
    when it has neither, whatever the amount. *)
Theorem categorize_tesla (description : string) (amount : option PyFloat.float) :
  ci_contains "tesla" description →
  ((ci_contains "super" description ∨ ci_contains "charge" description) →
   categorize_transaction description amount = "EV/Gas")
  ∧ (¬ ci_contains "super" description → ¬ ci_contains "charge" description →
     categorize_transaction description amount = "Repairs and Maintenance").
Proof.
  intros Ht. apply (ci_contains_lit _ _ eq_refl) in Ht.
  unfold categorize_transaction. cbv zeta. rewrite Ht. split.
  - intros [H | H]; apply (ci_contains_lit _ _ eq_refl) in H; rewrite H;
      [reflexivity | now rewrite orb_true_r].
  - intros Hs Hc. apply (not_ci_contains_lit _ _ eq_refl) in Hs, Hc.
    now rewrite Hs, Hc.
Qed.

Lemma categorize_tesla_witness :
  categorize_transaction "TESLA Supercharger 0421" None = "EV/Gas"
  ∧ categorize_transaction "Tesla Service Ctr" (PyFloat.of_string "-250.00")
    = "Repairs and Maintenance".
Proof.
  split.
  - apply (categorize_tesla "TESLA Supercharger 0421" None).
    + exists "", "TESLA", " Supercharger 0421". split; reflexivity.
    + left. exists "TESLA ", "Super", "charger 0421". split; reflexivity.
  - apply (categorize_tesla "Tesla Service Ctr" (PyFloat.of_string "-250.00")).
    + exists "", "Tesla", " Service Ctr". split; reflexivity.
    + apply not_ci_contains. vm_compute. reflexivity.
    + apply not_ci_contains. vm_compute. reflexivity.
Defined.

Lemma contains_trans (p q s : string) :
  contains p q = true → contains q s = true → contains p s = true.
Proof.
  rewrite !contains_spec. intros (a & b & ->) (a' & b' & ->).
  exists (a' +:+ a), (b +:+ b'). now rewrite !str_app_assoc.
Qed.

Lemma le_not_gt (a : PyFloat.float) :
  PyFloat.le a PyFloat.zero = true → PyFloat.gt a PyFloat.zero = false.
Proof. destruct a as [[]|[]| |[] m e]; cbv; congruence. Qed.

(** A keyword list none of whose members occurs: the [any(...)] of the
    table loop is false. *)
Lemma existsb_keywords (kws : list string) (d : string) :
  Forall (λ kw, lower kw = kw) kws →
  (any_ci kws d ↔ existsb (λ kw, contains kw (lower d)) kws = true).
Proof.
  unfold any_ci. induction 1 as [|kw kws Hkw _ IH]; simpl.
  - rewrite Exists_nil. split; [tauto | discriminate].
  - rewrite Exists_cons, orb_true_iff, IH, (ci_contains_lit _ _ Hkw). tauto.
Qed.

Lemma existsb_keywords_ad (kws : list string) (s : string) :
  contains "ad" s = true →
  existsb (λ kw, contains kw s)
          ("photo" :: "photohub" :: "printing" :: "ad" :: kws) = true.
Proof. intros H. simpl. rewrite H. now rewrite !orb_true_r. Qed.

Lemma not_any_ci_tests (kws : list string) (d : string) :
  Forall (λ kw, lower kw = kw) kws →
  existsb (λ kw, contains kw (lower d)) kws = false → ¬ any_ci kws d.
Proof. intros Hk He. rewrite (existsb_keywords _ _ Hk), He. discriminate. Qed.

Lemma not_any_ci_cons (kw : string) (kws : list string) (d : string) :
  ¬ any_ci (kw :: kws) d → ¬ ci_contains kw d ∧ ¬ any_ci kws d.
Proof. unfold any_ci. rewrite Exists_cons. tauto. Qed.

(** Turns the hypotheses about occurrences into the truth values of the
    tests of the program. *)
Ltac to_tests :=
  repeat match goal with
    | H : ¬ any_ci (_ :: _) _ |- _ =>
        apply not_any_ci_cons in H; destruct H as [? H]
    | H : ¬ any_ci [] _ |- _ => clear H
    | H : ¬ ci_contains _ _ |- _ => apply (not_ci_contains_lit _ _ eq_refl) in H
    | H : ci_contains _ _ |- _ => apply (ci_contains_lit _ _ eq_refl) in H
    | H : ci_startswith _ _ |- _ => apply (ci_startswith_lit _ _ eq_refl) in H
    | H : ¬ ci_startswith _ _ |- _ =>
        rewrite (ci_startswith_lit _ _ eq_refl) in H;
        apply not_true_is_false in H
    end.

(** C2, as the program has it.  A description that starts with "square "
    or "sq *" (any letter case) and has none of "tesla", "home depot",
    "hdphotohub", "affirm", "amex" in it is Sales for an amount above
    zero and Uncategorized for an amount of zero or below (and for no
    amount at all). *)
Theorem categorize_square (description : string) :
  (ci_startswith "square " description ∨ ci_startswith "sq *" description) →
  ¬ earlier_override description →
  (∀ a, PyFloat.gt a PyFloat.zero = true →
        categorize_transaction description (Some a) = "Sales")
  ∧ (∀ a, PyFloat.le a PyFloat.zero = true →
          categorize_transaction description (Some a) = "Uncategorized")
  ∧ categorize_transaction description None = "Uncategorized".
Proof.
  intros Hsq Hno. unfold earlier_override in Hno. to_tests.
  assert (Hs : startswith (lower description) "square "
               || startswith (lower description) "sq *" = true)
    by (destruct Hsq as [Hsq | Hsq]; to_tests; rewrite Hsq;
        [reflexivity | apply orb_true_r]).
  unfold categorize_transaction. cbv zeta.
  repeat match goal with H : contains _ _ = false |- _ => rewrite H; clear H end.
  rewrite <- orb_assoc, Hs, orb_true_r.
  split; [| split]; [intros a Ha | intros a Ha | reflexivity].
  - now rewrite Ha.
  - now rewrite (le_not_gt _ Ha).
Qed.

(** C2 as stated fails: the special cases for other vendors come first. *)
Lemma categorize_square_counterexample :
  ci_startswith "sq *" "SQ *TESLA DETAILING"
  ∧ PyFloat.of_string "120.00" = Some (S754_finite false 8444249301319680 (-46))
  ∧ PyFloat.gt (S754_finite false 8444249301319680 (-46)) PyFloat.zero = true
  ∧ categorize_transaction "SQ *TESLA DETAILING" (Some (S754_finite false 8444249301319680 (-46)))
    = "Repairs and Maintenance".
Proof.
  split; [exists "SQ *", "TESLA DETAILING"; split; reflexivity |].
  split; [vm_compute; reflexivity |]. split; vm_compute; reflexivity.
Qed.

Lemma categorize_square_witness :
  categorize_transaction "SQ *CORNER BAKERY" (Some (S754_finite false 8444249301319680 (-46))) = "Sales"
  ∧ categorize_transaction "Square Refund 8841" (Some (S754_finite true 8444249301319680 (-46)))
    = "Uncategorized".
Proof.
  split.
  - refine (proj1 (categorize_square "SQ *CORNER BAKERY" _ _) _ _).
    + right. exists "SQ *", "CORNER BAKERY". split; reflexivity.
    + apply not_any_ci_tests; [repeat constructor | vm_compute; reflexivity].
    + reflexivity.
  - refine (proj1 (proj2 (categorize_square "Square Refund 8841" _ _)) _ _).
    + left. exists "Square ", "Refund 8841". split; reflexivity.
    + apply not_any_ci_tests; [repeat constructor | vm_compute; reflexivity].
    + reflexivity.
Defined.

Lemma not_step1_override (d : string) :
  ¬ step1_override d →
  ¬ any_ci ["tesla"; "home depot"; "hdphotohub"; "affirm"; "amex"; "square inc";
            "apple"; "bk od amer"; "cubicasa"] d
  ∧ ¬ ci_startswith "square " d ∧ ¬ ci_startswith "sq *" d.
Proof. unfold step1_override. tauto. Qed.

Lemma not_step1_override_tests (d : string) :
  existsb (λ kw, contains kw (lower d))
          ["tesla"; "home depot"; "hdphotohub"; "affirm"; "amex"; "square inc";
           "apple"; "bk od amer"; "cubicasa"] = false →
  startswith (lower d) "square " = false →
  startswith (lower d) "sq *" = false →
  ¬ step1_override d.
Proof.
  intros H1 H2 H3 [H | [H | H]].
  - revert H. apply not_any_ci_tests; [repeat constructor | exact H1].
  - apply (ci_startswith_lit _ _ eq_refl) in H. congruence.
  - apply (ci_startswith_lit _ _ eq_refl) in H. congruence.
Qed.

(** With no special case in the way, the category comes from the keyword
    table. *)
Lemma categorize_by_table (description : string) (amount : option PyFloat.float) :
  ¬ step1_override description →
  categorize_transaction description amount
  = default "Uncategorized"
      (first_category CATEGORIZATION_RULES (lower description)).
Proof.
  intros H. apply not_step1_override in H. destruct H as (H & Hs1 & Hs2).
  to_tests. unfold categorize_transaction. cbv zeta.
  repeat match goal with H : _ = false |- _ => rewrite H; clear H end.
  cbn [orb]. cbv iota.
  now destruct (first_category CATEGORIZATION_RULES (lower description)).
Qed.

(** C10, as the program has it.  A description with "adobe" in it that no
    special case catches is never Software: it is Processing when it has
    "square", "stripe" or "paypal" in it, otherwise Bank Fees when it has
    "fee", "charge", "interest" or "overdraft" in it, and otherwise
    Advertisement, because "ad" is a keyword of Advertisement and that
    category is tried before Software. *)
Theorem categorize_adobe (description : string) (amount : option PyFloat.float) :
  ci_contains "adobe" description →
  ¬ step1_override description →
  categorize_transaction description amount ≠ "Software"
  ∧ (any_ci ["square"; "stripe"; "paypal"] description →
     categorize_transaction description amount = "Processing")
  ∧ (¬ any_ci ["square"; "stripe"; "paypal"] description →
     any_ci ["fee"; "charge"; "interest"; "overdraft"] description →
     categorize_transaction description amount = "Bank Fees")
  ∧ (¬ any_ci ["square"; "stripe"; "paypal"] description →
     ¬ any_ci ["fee"; "charge"; "interest"; "overdraft"] description →
     categorize_transaction description amount = "Advertisement").
Proof.
  intros Had Hno. rewrite (categorize_by_table _ _ Hno).
  apply (ci_contains_lit _ _ eq_refl) in Had.
  assert (Had' : contains "ad" (lower description) = true)
    by (apply (contains_trans _ "adobe"); [reflexivity | exact Had]).
  unfold CATEGORIZATION_RULES, first_category.
  rewrite !(existsb_keywords_ad _ _ Had').
  destruct (existsb _ ["square"; "stripe"; "paypal"]) eqn:E1;
    [| destruct (existsb _ ["fee"; "charge"; "interest"; "overdraft"]) eqn:E2].
  all: rewrite <- ?not_true_iff_false in *.
  all: rewrite <- ?(existsb_keywords _ description) in * by repeat constructor.
  all: simpl; repeat split; try discriminate; try reflexivity; tauto.
Qed.

(** C10 as stated fails: the categories Processing and Bank Fees are tried
    before Advertisement. *)
Lemma categorize_adobe_counterexample :
  ci_contains "adobe" "PAYPAL *ADOBE INC"
  ∧ ¬ step1_override "PAYPAL *ADOBE INC"
  ∧ categorize_transaction "PAYPAL *ADOBE INC" None = "Processing".
Proof.
  split; [exists "PAYPAL *", "ADOBE", " INC"; split; reflexivity |].
  split; [| vm_compute; reflexivity].
  apply not_step1_override_tests; vm_compute; reflexivity.
Qed.

Lemma categorize_adobe_witness :
  categorize_transaction "Adobe Creative Cloud" None = "Advertisement".
Proof.
  refine (proj2 (proj2 (proj2
            (categorize_adobe "Adobe Creative Cloud" None _ _))) _ _).
  - exists "", "Adobe", " Creative Cloud". split; reflexivity.
  - apply not_step1_override_tests; vm_compute; reflexivity.
  - apply not_any_ci_tests; [repeat constructor | vm_compute; reflexivity].
  - apply not_any_ci_tests; [repeat constructor | vm_compute; reflexivity].
Defined.

(** ** The category invariant *)

Section CategoryInvariant.

Lemma first_category_in (rules : list (string * list string)) (s c : string) :
  first_category rules s = Some c → In c (map fst rules).
Proof.
  induction rules as [|[cat kws] rules IH]; simpl; [discriminate |].
  destruct (existsb _ kws); [intros [= ->]; now left | auto].
Qed.

Lemma rule_categories_enumerated (c : string) :
  In c (map fst CATEGORIZATION_RULES) → In c CATEGORIES.
Proof. simpl. intuition (subst; simpl; tauto). Qed.

Lemma categorize_in_categories (description : string) (amount : option PyFloat.float) :
  In (categorize_transaction description amount) CATEGORIES.
Proof.
  unfold categorize_transaction. cbv zeta.
  repeat match goal with
    | |- In (if ?b then _ else _) _ => destruct b
    | |- In (match ?o with Some _ => _ | None => _ end) _ => destruct o eqn:?
    end;
    try (simpl; tauto).
  eapply rule_categories_enumerated, first_category_in; eassumption.
Qed.

Lemma candidate_category_ok (date_str description amount_str : string)
      (t : transaction) :
  candidate_transaction date_str description amount_str = Some t → category_ok t.
Proof.
  unfold candidate_transaction.
  destruct (parse_amount amount_str); [| discriminate].
  destruct (parse_date date_str); [| discriminate].
  intros [= <-]. eexists. split; [reflexivity | apply categorize_in_categories].
Qed.

Lemma append_opt_ok (acc : list transaction) (t : option transaction) :
  Forall category_ok acc → (∀ t', t = Some t' → category_ok t') →
  Forall category_ok (append_opt acc t).
Proof.
  intros Hacc Ht. destruct t as [t'|]; simpl; [| exact Hacc].
  apply Forall_app. split; [exact Hacc | constructor; auto].
Qed.

Lemma fold_left_preserves {A B : Type} (P : A → Prop) (f : A → B → A)
      (l : list B) (acc : A) :
  (∀ a x, P a → P (f a x)) → P acc → P (fold_left f l acc).
Proof. intros Hf. revert acc. induction l; simpl; auto. Qed.

Lemma process_page_ok (acc : list transaction) (p : page) :
  Forall category_ok acc → Forall category_ok (process_page acc p).
Proof.
  intros Hacc. unfold process_page.
  assert (Ht : Forall category_ok
                 (match extract_tables p with
                  | [] => acc
                  | _ :: _ => fold_left process_table (extract_tables p) acc
                  end)).
  { destruct (extract_tables p) eqn:E; [exact Hacc |]. rewrite <- E.
    apply fold_left_preserves; [| exact Hacc].
    intros a table Ha. unfold process_table.
    apply fold_left_preserves; [| exact Ha].
    intros a' row Ha'. apply append_opt_ok; [exact Ha' |].
    unfold table_row_transaction.
    destruct (table_row_candidate row) as [[[ds desc] am]|]; [| discriminate].
    apply candidate_category_ok. }
  destruct (extract_tables p) eqn:E.
  all: destruct (extract_text p) as [text|]; [| exact Ht].
  all: destruct (nonempty text); [| exact Ht].
  all: unfold process_text; apply fold_left_preserves; [| exact Ht].
  all: intros a' line Ha'; apply append_opt_ok; [exact Ha' |].
  all: unfold text_line_transaction.
  all: destruct (text_line_candidate line) as [[[ds desc] am]|]; [| discriminate].
  all: apply candidate_category_ok.
Qed.

Lemma extracted_ok (f : pdf_file) (l : list transaction) :
  extract_transactions_from_pdf f = Returns l → Forall category_ok l.
Proof.
  destruct f as [e | pages]; simpl; intros [= <-]; [constructor |].
  apply fold_left_preserves; [apply process_page_ok | constructor].
Qed.

Lemma assign_ids_ok (year month fname : string) (i : nat) (l : list transaction) :
  Forall category_ok l → Forall category_ok (assign_ids year month fname i l).
Proof.
  intros H. revert i. induction H as [|t l Ht _ IH]; intros i; simpl; constructor; auto.
Qed.

Lemma get_bucket_set_eq (fd : store) (y m : string) (b : bucket) :
  get_bucket (set_bucket fd y m b) y m = Some b.
Proof.
  unfold get_bucket, set_bucket. rewrite lookup_insert_eq. simpl.
  apply lookup_insert_eq.
Qed.

Lemma set_bucket_ok (fd : store) (year month : string) (b : bucket) :
  store_ok fd → Forall category_ok (transactions b) →
  store_ok (set_bucket fd year month b).
Proof.
  intros Hfd Hb y ms m b'. unfold set_bucket, months_of.
  destruct (decide (year = y)) as [<-|Hy].
  - rewrite lookup_insert_eq. intros [= <-].
    destruct (decide (month = m)) as [<-|Hm].
    + rewrite lookup_insert_eq. now intros [= <-].
    + rewrite lookup_insert_ne by exact Hm.
      destruct (fd !! year) as [ms|] eqn:E; simpl; [eauto |].
      now rewrite lookup_empty.
  - rewrite lookup_insert_ne by exact Hy. apply Hfd.
Qed.

Lemma ensure_bucket_ok (fd : store) (year month : string) :
  store_ok fd → store_ok (ensure_bucket fd year month).
Proof.
  intros Hfd. unfold ensure_bucket.
  assert (H1 : store_ok (match fd !! year with
                         | Some _ => fd
                         | None => <[year := ∅]> fd
                         end)).
  { destruct (fd !! year) eqn:E; [exact Hfd |].
    intros y ms m b. destruct (decide (year = y)) as [<-|Hy].
    - rewrite lookup_insert_eq. intros [= <-]. now rewrite lookup_empty.
    - rewrite lookup_insert_ne by exact Hy. apply Hfd. }
  destruct (get_bucket _ year month); [exact H1 |].
  apply set_bucket_ok; [exact H1 | constructor].
Qed.

Lemma get_bucket_ok (fd : store) (year month : string) (b : bucket) :
  store_ok fd → get_bucket fd year month = Some b →
  Forall category_ok (transactions b).
Proof.
  unfold get_bucket. intros Hfd.
  destruct (fd !! year) as [ms|] eqn:E; simpl; [| discriminate]. eauto.
Qed.

Lemma default_bucket_ok (fd : store) (year month : string) :
  store_ok fd →
  Forall category_ok
    (transactions (default empty_bucket (get_bucket fd year month))).
Proof.
  intros Hfd. destruct (get_bucket fd year month) as [b|] eqn:E; simpl.
  - eapply get_bucket_ok; eassumption.
  - constructor.
Qed.

Lemma apply_update_ok (data : gmap string json) (t : transaction) :
  supplied_ok data → category_ok t → category_ok (apply_update data t).
Proof.
  unfold supplied_ok, category_ok, apply_update. simpl.
  destruct (data !! "category"); simpl; auto.
Qed.

Lemma update_first_ok (tid : string) (data : gmap string json)
      (l l' : list transaction) (t : transaction) :
  supplied_ok data → Forall category_ok l →
  update_first tid data l = Some (l', t) → Forall category_ok l'.
Proof.
  intros Hd H. revert l' t. induction H as [|x l Hx Hl IH]; intros l' t; simpl.
  - discriminate.
  - destruct (bool_decide _).
    + intros [= <- <-]. constructor; [now apply apply_update_ok | exact Hl].
    + destruct (update_first tid data l) as [[l'' t'']|]; [| discriminate].
      intros [= <- <-]. constructor; [exact Hx | eapply IH; reflexivity].
Qed.

Lemma upload_file_ok (fd : store) (fs : filesystem)
      (file : option (string * pdf_file))
      (year month : option string) (now : string) :
  store_ok fd → store_ok (upload_file fd fs file year month now).1.
Proof.
  intros Hfd. unfold upload_file.
  destruct file as [[fname content]|]; [| exact Hfd].
  destruct (negb (nonempty fname)); [exact Hfd |].
  destruct year as [year|], month as [month|]; try exact Hfd.
  destruct (negb (nonempty year) || negb (nonempty month)); [exact Hfd |].
  destruct (endswith (lower fname) ".pdf"); [| exact Hfd].
  cbv zeta. destruct (file_save fs _); [exact Hfd |].
  destruct (extract_transactions_from_pdf content) as [l|e] eqn:E; [| exact Hfd].
  assert (H : store_ok
                (set_bucket (ensure_bucket fd year month) year month
                   {| transactions := assign_ids year month fname 0 l;
                      pdf_info :=
                        Some {| filename := fname; upload_date := now;
                                transaction_count :=
                                  length (assign_ids year month fname 0 l) |};
                      processed :=
                        processed
                          (default empty_bucket
                             (get_bucket (ensure_bucket fd year month)
                                         year month)) |})).
  { apply set_bucket_ok; [now apply ensure_bucket_ok |].
    simpl. apply assign_ids_ok. eapply extracted_ok; eassumption. }
  destruct (os_remove fs _); exact H.
Qed.

Lemma add_transaction_ok (fd : store) (year month : string)
      (data : gmap string json) :
  store_ok fd → supplied_ok data → store_ok (add_transaction fd year month data).1.
Proof.
  intros Hfd Hd. unfold add_transaction.
  destruct (data !! "date"); [| exact Hfd].
  destruct (data !! "description"); [| exact Hfd].
  destruct (data !! "amount") as [amount|]; [| exact Hfd].
  cbv zeta. pose proof (ensure_bucket_ok fd year month Hfd) as He.
  destruct (py_float amount); simpl; [| exact He].
  apply set_bucket_ok; [exact He |]. simpl.
  apply Forall_app. split; [now apply default_bucket_ok |].
  constructor; [| constructor]. unfold category_ok, supplied_ok in *. simpl.
  destruct (data !! "category"); simpl; [exact Hd |].
  eexists. split; [reflexivity | simpl; tauto].
Qed.

Lemma update_transaction_ok (fd : store) (year month tid : string)
      (data : gmap string json) :
  store_ok fd → supplied_ok data →
  store_ok (update_transaction fd year month tid data).1.
Proof.
  intros Hfd Hd. unfold update_transaction.
  destruct (get_bucket fd year month) as [b|] eqn:E; [| exact Hfd].
  destruct (update_first tid data (transactions b)) as [[l t]|] eqn:U; [| exact Hfd].
  simpl. apply set_bucket_ok; [exact Hfd |]. simpl.
  eapply update_first_ok; [exact Hd | | exact U].
  eapply get_bucket_ok; eassumption.
Qed.

(** What a successful add has stored. *)
Lemma add_transaction_stored (fd : store) (year month : string)
      (data : gmap string json) (t : transaction) :
  (add_transaction fd year month data).2 = Ok [t] →
  t_category t = default (JStr "Uncategorized") (data !! "category")
  ∧ ∃ b, get_bucket (add_transaction fd year month data).1 year month = Some b
         ∧ In t (transactions b).
Proof.
  unfold add_transaction.
  destruct (data !! "date"); [| discriminate].
  destruct (data !! "description"); [| discriminate].
  destruct (data !! "amount") as [amount|]; [| discriminate].
  cbv zeta. destruct (py_float amount); [| discriminate].
  cbn [fst snd]. intros [= <-]. split; [reflexivity |].
  eexists. split; [apply get_bucket_set_eq |].
  cbn [transactions]. apply in_or_app. right. now left.
Qed.

Lemma update_first_stored (tid : string) (data : gmap string json)
      (l l' : list transaction) (t : transaction) :
  update_first tid data l = Some (l', t) →
  In t l' ∧ ∃ t0, In t0 l ∧ t = apply_update data t0.
Proof.
  revert l' t. induction l as [|x l IH]; intros l' t; simpl; [discriminate |].
  destruct (bool_decide _).
  - intros [= <- <-]. split; [now left | exists x; split; [now left | reflexivity]].
  - destruct (update_first tid data l) as [[l'' t'']|]; [| discriminate].
    intros [= <- <-]. destruct (IH _ _ eq_refl) as (Hin & t0 & H0 & Ht).
    split; [now right | exists t0; split; [now right | exact Ht]].
Qed.

(** What a successful update has stored. *)
Lemma update_transaction_stored (fd : store) (year month tid : string)
      (data : gmap string json) (t : transaction) :
  (update_transaction fd year month tid data).2 = Ok [t] →
  (∃ t0, t = apply_update data t0)
  ∧ ∃ b, get_bucket (update_transaction fd year month tid data).1 year month
         = Some b
         ∧ In t (transactions b).
Proof.
  unfold update_transaction.
  destruct (get_bucket fd year month) as [b|]; [| discriminate].
  destruct (update_first tid data (transactions b)) as [[l t']|] eqn:U;
    [| discriminate].
  cbn [fst snd]. intros [= <-].
  destruct (update_first_stored _ _ _ _ _ U) as (Hin & t0 & _ & Ht).
  split; [now exists t0 |].
  eexists. split; [apply get_bucket_set_eq | exact Hin].
Qed.

(** A stored transaction with the category of the request: the request
    named an enumerated category, or none. *)
Lemma stored_supplied (fd : store) (year month : string) (b : bucket)
      (data : gmap string json) (t : transaction) (old : json) :
  store_ok fd → get_bucket fd year month = Some b → In t (transactions b) →
  t_category t = default old (data !! "category") →
  supplied_ok data.
Proof.
  intros Hfd Hb Hin Hc. unfold supplied_ok.
  destruct (data !! "category") as [v|]; [| exact I].
  pose proof (get_bucket_ok _ _ _ _ Hfd Hb) as Hall.
  rewrite List.Forall_forall in Hall. specialize (Hall t Hin).
  destruct Hall as (c & Ht & Hc'). simpl in Hc. rewrite Hc in Ht. eauto.
Qed.

(** No keyword of the table occurs: the loops fall through. *)
Lemma first_category_none (rules : list (string * list string)) (d : string) :
  Forall (λ rule, Forall (λ kw, lower kw = kw) rule.2) rules →
  Forall (λ rule, ¬ any_ci rule.2 d) rules →
  first_category rules (lower d) = None.
Proof.
  induction 1 as [|[c kws] rules Hk _ IH]; intros Hno; [reflexivity |].
  inversion Hno as [|? ? Hc Hrest]; subst. simpl in *.
  destruct (existsb (λ keyword, contains keyword (lower d)) kws) eqn:E.
  - destruct Hc. now apply (existsb_keywords _ _ Hk).
  - now apply IH.
Qed.

Lemma keywords_lower :
  Forall (λ rule : string * list string, Forall (λ kw, lower kw = kw) rule.2)
         CATEGORIZATION_RULES.
Proof. repeat constructor. Qed.

End CategoryInvariant.

(** C9, as the program has it.  [categorize_transaction] always answers
    with a member of the enumeration, and with Uncategorized when no
    special case and no keyword of the table applies, so every extracted
    transaction, and every transaction an upload stores, has an
    enumerated category.  A manual add stores Uncategorized when the
    request names no category.  A manual add or an update stores the
    category of the request as it is, whatever it is: after an add or an
    update that succeeds, the invariant of the store holds exactly when
    the request named an enumerated category or none. *)
Theorem category_invariant :
  (∀ description amount, In (categorize_transaction description amount) CATEGORIES)
  ∧ (∀ f l, extract_transactions_from_pdf f = Returns l → Forall category_ok l)
  ∧ (∀ fd fs file year month now,
       store_ok fd → store_ok (upload_file fd fs file year month now).1)
  ∧ (∀ fd year month data t,
       data !! "category" = None →
       (add_transaction fd year month data).2 = Ok [t] →
       t_category t = JStr "Uncategorized")
  ∧ (∀ fd year month data,
       store_ok fd → supplied_ok data →
       store_ok (add_transaction fd year month data).1)
  ∧ (∀ fd year month transaction_id data,
       store_ok fd → supplied_ok data →
       store_ok (update_transaction fd year month transaction_id data).1)
  ∧ (∀ description amount,
       ¬ step1_override description →
       Forall (λ rule, ¬ any_ci rule.2 description) CATEGORIZATION_RULES →
       categorize_transaction description amount = "Uncategorized")
  ∧ (∀ fd year month data v t,
       data !! "category" = Some v →
       (add_transaction fd year month data).2 = Ok [t] →
       t_category t = v)
  ∧ (∀ fd year month transaction_id data v t,
       data !! "category" = Some v →
       (update_transaction fd year month transaction_id data).2 = Ok [t] →
       t_category t = v)
  ∧ (∀ fd year month data t,
       store_ok fd →
       (add_transaction fd year month data).2 = Ok [t] →
       (store_ok (add_transaction fd year month data).1 ↔ supplied_ok data))
  ∧ (∀ fd year month transaction_id data t,
       store_ok fd →
       (update_transaction fd year month transaction_id data).2 = Ok [t] →
       (store_ok (update_transaction fd year month transaction_id data).1
        ↔ supplied_ok data)).
Proof.
  split; [exact categorize_in_categories |].
  split; [exact extracted_ok |].
  split; [exact upload_file_ok |].
  split; [| split; [exact add_transaction_ok |
                    split; [exact update_transaction_ok |]]].
  { intros fd year month data t Hc H.
    destruct (add_transaction_stored _ _ _ _ _ H) as [-> _]. now rewrite Hc. }
  split; [| split; [| split; [| split]]].
  - intros description amount Hno Hkw.
    rewrite (categorize_by_table _ _ Hno).
    now rewrite (first_category_none _ _ keywords_lower Hkw).
  - intros fd year month data v t Hc H.
    destruct (add_transaction_stored _ _ _ _ _ H) as [-> _]. now rewrite Hc.
  - intros fd year month tid data v t Hc H.
    destruct (update_transaction_stored _ _ _ _ _ _ H) as [[t0 ->] _].
    cbn [apply_update t_category]. now rewrite Hc.
  - intros fd year month data t Hfd H. split; [| now apply add_transaction_ok].
    intros Hafter.
    destruct (add_transaction_stored _ _ _ _ _ H) as (Hc & b & Hb & Hin).
    exact (stored_supplied _ _ _ _ _ _ _ Hafter Hb Hin Hc).
  - intros fd year month tid data t Hfd H.
    split; [| now apply update_transaction_ok].
    intros Hafter.
    destruct (update_transaction_stored _ _ _ _ _ _ H)
      as ([t0 Ht] & b & Hb & Hin).
    refine (stored_supplied _ _ _ _ _ _ (t_category t0) Hafter Hb Hin _).
    now rewrite Ht.
Qed.

Lemma store_ok_empty : store_ok ∅.
Proof. intros y ms m b H. now rewrite lookup_empty in H. Qed.

(** C9 as stated fails: a manual add stores a category that is not in the
    enumeration. *)
Lemma category_invariant_counterexample :
  store_ok ∅
  ∧ ¬ store_ok (add_transaction ∅ "2024" "03" groceries_request).1.
Proof.
  split; [exact store_ok_empty |]. intros H.
  pose (t := {| t_id := Some "2024_03_manual_0";
                t_date := JStr "2024-03-04";
                t_description := JStr "Corner market";
                t_amount := JFloat (S754_finite true 6755399441055744 (-49));
                t_category := JStr "Groceries" |}).
  pose (b := {| transactions := [t]; pdf_info := None; processed := false |}).
  assert (Hb : Forall category_ok (transactions b)).
  { apply (H "2024" {[ "03" := b ]} "03" b); vm_compute; reflexivity. }
  inversion Hb as [|? ? (c & Hc & Hin) _]. simpl in Hc. injection Hc as <-.
  simpl in Hin. intuition discriminate.
Qed.

Lemma category_invariant_witness :
  In (categorize_transaction "AMAZON MARKETPLACE" None) CATEGORIES
  ∧ store_ok (update_transaction
                (add_transaction ∅ "2024" "03"
                   {[ "date" := JStr "2024-03-04"; "description" := JStr "Lunch";
                      "amount" := JStr "12.50" ]}).1
                "2024" "03" "2024_03_manual_0"
                {[ "category" := JStr "Travel" ]}).1
  ∧ categorize_transaction "WIRE REFUND 8841" None = "Uncategorized".
Proof.
  split; [apply (proj1 category_invariant) |]. split.
  - apply (proj1 (proj2 (proj2 (proj2 (proj2 (proj2 category_invariant)))))).
    + apply (proj1 (proj2 (proj2 (proj2 (proj2 category_invariant))))).
      * exact store_ok_empty.
      * vm_compute. exact I.
    + exists "Travel". split; [reflexivity | simpl; tauto].
  - apply (proj1 (proj2 (proj2 (proj2 (proj2 (proj2 (proj2
             category_invariant))))))).
    + apply not_step1_override_tests; vm_compute; reflexivity.
    + repeat (constructor;
              [apply not_any_ci_tests;
               [repeat constructor | vm_compute; reflexivity] |]).
      constructor.
Defined.

(** ** The vendor normalizer *)

Section VendorNormalizer.

Lemma first_rule_some (rules : list (regex * string)) (d name : string) :
  first_match rules d name → first_rule rules d = Some name.
Proof.
  intros (before & pattern & after & -> & Hp & Hb).
  induction Hb as [|[p n] before Hpn _ IH]; simpl in *.
  - now rewrite Hp.
  - now rewrite Hpn.
Qed.

Lemma first_rule_none (rules : list (regex * string)) (d : string) :
  no_match rules d → first_rule rules d = None.
Proof.
  induction 1 as [|[p n] rules Hpn _ IH]; simpl in *; [reflexivity |].
  now rewrite Hpn.
Qed.

Lemma first_rule_complete (rules : list (regex * string)) (d : string) :
  (∃ name, first_match rules d name) ∨ no_match rules d.
Proof.
  induction rules as [|[p n] rules IH].
  - right. constructor.
  - destruct (re_search p d) eqn:E.
    + left. exists n, [], p, rules. repeat split; [exact E | constructor].
    + destruct IH as [(name & before & q & after & -> & Hq & Hb) | Hn].
      * left. exists name, ((p, n) :: before), q, after.
        repeat split; [exact Hq | constructor; [exact E | exact Hb]].
      * right. constructor; [exact E | exact Hn].
Qed.

Lemma sub_class_letters (d : string) :
  re_sub_class not_alpha_space d = PyStr.filter (λ c, is_alpha_az c || is_space c) d.
Proof.
  unfold re_sub_class, not_alpha_space.
  induction d as [|c d IH]; simpl; [reflexivity |].
  rewrite negb_involutive, IH. reflexivity.
Qed.

Lemma up_to_three {A : Type} (words : list A) :
  (if (3 <=? length words)%nat then firstn 3 words else words) = firstn 3 words.
Proof.
  destruct (3 <=? length words)%nat eqn:E; [reflexivity |].
  apply Nat.leb_gt in E. symmetry. apply firstn_all2. lia.
Qed.

Lemma all_chars_impl (P Q : ascii → bool) (s : string) :
  (∀ c, P c = true → Q c = true) → all_chars P s → all_chars Q s.
Proof. intros HPQ. induction s as [|c s IH]; simpl; [tauto | intuition]. Qed.

Lemma all_chars_app (P : ascii → bool) (a b : string) :
  all_chars P (a +:+ b) ↔ all_chars P a ∧ all_chars P b.
Proof.
  induction a as [|c a IH]; [simpl; tauto |].
  rewrite str_app_cons. simpl. rewrite IH. tauto.
Qed.

Lemma all_chars_filter (P : ascii → bool) (s : string) :
  all_chars P (PyStr.filter P s).
Proof.
  induction s as [|c s IH]; simpl; [exact I |].
  destruct (P c) eqn:E; simpl; auto.
Qed.

Lemma all_chars_lstrip (P f : ascii → bool) (s : string) :
  all_chars P s → all_chars P (lstrip_by f s).
Proof.
  induction s as [|c s IH]; simpl; [tauto |].
  destruct (f c); simpl; tauto.
Qed.

Lemma all_chars_rstrip (P f : ascii → bool) (s : string) :
  all_chars P s → all_chars P (rstrip_by f s).
Proof.
  induction s as [|c s IH]; simpl; [tauto |]. intros [Hc Hs].
  specialize (IH Hs).
  destruct (rstrip_by f s) eqn:E; [destruct (f c); simpl; auto |].
  split; [exact Hc | exact IH].
Qed.

Lemma all_chars_split_from (P : ascii → bool) (s cur : string) :
  all_chars P s → all_chars (λ c, P c && negb (is_space c)) cur →
  Forall (all_chars (λ c, P c && negb (is_space c))) (split_from cur s).
Proof.
  revert cur. induction s as [|c s IH]; intros cur; simpl.
  - intros _ Hcur. destruct cur; [constructor |].
    constructor; [exact Hcur | constructor].
  - intros [Hc Hs] Hcur. destruct (is_space c) eqn:E.
    + destruct cur; [| constructor; [exact Hcur |]]; apply IH; simpl; auto.
    + apply IH; [exact Hs |]. apply all_chars_app. split; [exact Hcur |].
      simpl. now rewrite Hc, E.
Qed.

Lemma all_chars_join (P : ascii → bool) (sep : string) (l : list string) :
  all_chars P sep → Forall (all_chars P) l → all_chars P (join sep l).
Proof.
  intros Hsep. induction 1 as [|w l Hw Hl IH]; simpl; [exact I |].
  destruct l as [|w' l']; [exact Hw |].
  rewrite !all_chars_app. auto.
Qed.

(** What [normalize_vendor] hands to [title] is made of the letters A-Z,
    a-z and the space character only. *)
Lemma cleaned_chars (description : string) :
  all_chars (λ c, is_alpha_az c || Ascii.eqb c " ")
            (join " " (firstn 3 (split (letters_of description)))).
Proof.
  apply all_chars_join; [simpl; auto |].
  apply Forall_take.
  assert (H : Forall (all_chars (λ c, (is_alpha_az c || is_space c)
                                      && negb (is_space c)))
                     (split (letters_of description))).
  { unfold split. apply all_chars_split_from; [| exact I].
    unfold letters_of, strip, strip_by.
    apply all_chars_rstrip, all_chars_lstrip, all_chars_filter. }
  eapply Forall_impl; [exact H |].
  intros w. apply all_chars_impl. intros c.
  destruct (is_alpha_az c), (is_space c); simpl; congruence.
Qed.

End VendorNormalizer.

(** C8, as the program has it.  An empty description gives "Unknown".  For
    any other description the canonical name of the first rule, in list
    order, whose pattern is found in it (letter case ignored) is returned;
    when no pattern is found, the letters and whitespace of the
    description are kept and trimmed: if nothing remains the description
    itself is returned, otherwise its first three words (or fewer), joined
    by one space and title-cased. *)
Theorem normalize_vendor_spec :
  normalize_vendor "" = "Unknown"
  ∧ (∀ description, description ≠ "" →
       ((∃ name, first_match VENDOR_NORMALIZATION_RULES description name)
        ∨ no_match VENDOR_NORMALIZATION_RULES description)
       ∧ (∀ name, first_match VENDOR_NORMALIZATION_RULES description name →
                  normalize_vendor description = name)
       ∧ (no_match VENDOR_NORMALIZATION_RULES description →
          (letters_of description = "" → normalize_vendor description = description)
          ∧ (letters_of description ≠ "" →
             normalize_vendor description
             = title (join " " (firstn 3 (split (letters_of description)))))))
  ∧ normalize_vendor "AMAZON.COM*AB12CD" = "Amazon"
  ∧ normalize_vendor "RANDOM STORE 123" = "Random Store".
Proof.
  split; [reflexivity |]. split; [| split; vm_compute; reflexivity].
  intros d Hd. apply String.eqb_neq in Hd.
  split; [apply first_rule_complete |].
  unfold normalize_vendor. rewrite Hd. cbv zeta. split.
  - intros name Hm. now rewrite (first_rule_some _ _ _ Hm).
  - intros Hn. rewrite (first_rule_none _ _ Hn).
    rewrite sub_class_letters. fold (letters_of d). split.
    + intros ->. reflexivity.
    + intros Hl. apply String.eqb_neq in Hl. rewrite Hl.
      pose proof (up_to_three (split (letters_of d))) as H3.
      destruct (3 <=? length (split (letters_of d)))%nat; [reflexivity |].
      now rewrite <- H3.
Qed.

(** C8 as stated fails on the empty description: no rule matches it and
    nothing is left of it, yet it is not returned unchanged. *)
Lemma normalize_vendor_counterexample :
  no_match VENDOR_NORMALIZATION_RULES ""
  ∧ letters_of "" = ""
  ∧ normalize_vendor "" ≠ "".
Proof.
  split; [repeat constructor |]. split; [reflexivity | discriminate].
Qed.

Lemma normalize_vendor_witness :
  normalize_vendor "amazon prime" = "Amazon"
  ∧ normalize_vendor "#4471-02" = "#4471-02"
  ∧ normalize_vendor "joe's 24hr diner & grill llc"
    = "Joes Hr Diner".
Proof.
  split; [| split].
  - refine (proj1 (proj2 (proj1 (proj2 normalize_vendor_spec) "amazon prime" _))
              _ _).
    + discriminate.
    + exists (firstn 4 VENDOR_NORMALIZATION_RULES), (bword "AMAZON"),
        (skipn 5 VENDOR_NORMALIZATION_RULES).
      split; [reflexivity |]. split; [vm_compute; reflexivity |].
      repeat constructor.
  - refine (proj1 (proj2 (proj2 (proj1 (proj2 normalize_vendor_spec)
                                     "#4471-02" _)) _) _).
    + discriminate.
    + repeat constructor.
    + reflexivity.
  - refine (proj2 (proj2 (proj2 (proj1 (proj2 normalize_vendor_spec)
                                     "joe's 24hr diner & grill llc" _)) _) _).
    + discriminate.
    + repeat constructor.
    + vm_compute. discriminate.
Defined.

(** ** The amount parser *)

Section AmountParser.

Local Open Scope Z_scope.

Lemma binary_round_aux_opp (mx ex : Z) (lx : location) :
  binary_round_aux prec emax true mx ex lx
  = SFopp (binary_round_aux prec emax false mx ex lx).
Proof.
  unfold binary_round_aux.
  destruct (shr_fexp prec emax mx ex lx) as [mrs' e'].
  destruct (shr_fexp prec emax _ e' loc_Exact) as [mrs'' e''].
  destruct (shr_m mrs''); [reflexivity | | reflexivity].
  now destruct (e'' <=? emax - prec).
Qed.

Lemma binary_round_opp (m : positive) (e : Z) :
  binary_round prec emax true m e = SFopp (binary_round prec emax false m e).
Proof.
  unfold binary_round. destruct (shl_align m e _) as [mz ez].
  apply binary_round_aux_opp.
Qed.

Lemma of_decimal_opp (m e : Z) :
  PyFloat.of_decimal true m e = SFopp (PyFloat.of_decimal false m e).
Proof.
  unfold PyFloat.of_decimal. destruct m as [|p|p]; [reflexivity | | reflexivity].
  assert (Hpos : ∀ k, 0 <= k → 0 < Z.pos p * 10 ^ k)
    by (intros k Hk; apply Z.mul_pos_pos; [lia | now apply Z.pow_pos_nonneg]).
  destruct e as [|k|k].
  - specialize (Hpos 0 ltac:(lia)).
    destruct (Z.pos p * 10 ^ 0) as [|q|q]; try lia. apply binary_round_opp.
  - specialize (Hpos (Z.pos k) ltac:(lia)).
    destruct (Z.pos p * 10 ^ Z.pos k) as [|q|q]; try lia. apply binary_round_opp.
  - unfold SFdiv.
    destruct (SFdiv_core_binary prec emax (Z.pos p) 0 _ 0) as [[mz ez] lz].
    apply binary_round_aux_opp.
Qed.

Lemma parse_number_opp (s : string) :
  PyFloat.parse_number true s = SFopp <$> PyFloat.parse_number false s.
Proof.
  unfold PyFloat.parse_number.
  destruct (PyFloat.read_digits 0 0 s) as [[i ni] s1].
  destruct (match s1 with
            | String c s1' =>
                if Ascii.eqb c "." then PyFloat.read_digits i 0 s1'
                else (i, 0%nat, s1)
            | EmptyString => (i, 0%nat, s1)
            end) as [[m nf] s2].
  destruct (ni + nf =? 0)%nat; [reflexivity |].
  destruct s2 as [|c s3]; [simpl; now rewrite of_decimal_opp |].
  destruct (PyFloat.is_exp_mark c); [| reflexivity].
  destruct (PyFloat.read_sign s3) as [eneg s4].
  destruct (PyFloat.read_digits 0 0 s4) as [[ex ne] s5].
  destruct (ne =? 0)%nat; [reflexivity |].
  destruct s5; [simpl; now rewrite of_decimal_opp | reflexivity].
Qed.

Lemma numeral_char_facts (c : ascii) :
  numeral_char c = true →
  PyFloat.is_float_space c = false
  ∧ Ascii.eqb c "_" = false ∧ Ascii.eqb c "+" = false
  ∧ Ascii.eqb c "-" = false ∧ is_upper_az c = false
  ∧ Ascii.eqb c "i" = false ∧ Ascii.eqb c "n" = false
  ∧ Ascii.eqb "(" c = false ∧ comma_dollar c = false.
Proof.
  destruct c as [[] [] [] [] [] [] [] []]; vm_compute; intros H;
    try discriminate H; repeat split.
Qed.

Lemma filter_app (f : ascii → bool) (a b : string) :
  PyStr.filter f (a +:+ b) = PyStr.filter f a +:+ PyStr.filter f b.
Proof.
  induction a as [|c a IH]; [reflexivity |].
  rewrite str_app_cons. simpl. destruct (f c); now rewrite IH.
Qed.

Lemma plain_filter (t : string) :
  all_chars plain_amount_char t →
  all_chars numeral_char (re_sub_class comma_dollar t).
Proof.
  unfold re_sub_class. induction t as [|c t IH]; simpl; [tauto |].
  intros [Hc Ht]. unfold plain_amount_char in Hc. unfold comma_dollar at 1.
  destruct (Ascii.eqb c ",") eqn:E1, (Ascii.eqb c "$") eqn:E2; simpl; auto.
  split; [| auto]. unfold numeral_char.
  now rewrite !orb_false_r in Hc.
Qed.

Lemma endswith_app (a p : string) : endswith (a +:+ p) p = true.
Proof.
  induction a as [|c a IH].
  - rewrite str_app_nil_l. destruct p as [|x p]; simpl; [reflexivity |].
    now rewrite Ascii.eqb_refl, String.eqb_refl.
  - rewrite str_app_cons. simpl. rewrite IH. apply orb_true_r.
Qed.

Lemma endswith_spec (s p : string) :
  endswith s p = true ↔ ∃ stem, s = stem +:+ p.
Proof.
  split; [| intros [stem ->]; apply endswith_app].
  induction s as [|c s IH]; cbn [endswith].
  - rewrite orb_false_r. intros H. apply String.eqb_eq in H. subst p.
    now exists "".
  - intros H. apply orb_true_iff in H. destruct H as [H | H].
    + apply String.eqb_eq in H. subst p. now exists "".
    + destruct (IH H) as [stem ->]. now exists (String c stem).
Qed.

Lemma drop_last_app (a : string) (c : ascii) :
  drop_last (a +:+ String c "") = a.
Proof.
  induction a as [|x a IH]; [reflexivity |].
  rewrite str_app_cons. simpl. rewrite IH.
  destruct a; reflexivity.
Qed.

Lemma lstrip_numeral (u : string) :
  all_chars numeral_char u → lstrip_by PyFloat.is_float_space u = u.
Proof.
  destruct u as [|c u]; simpl; [reflexivity |]. intros [Hc _].
  now destruct (numeral_char_facts c Hc) as (-> & _).
Qed.

Lemma rstrip_numeral (u : string) :
  all_chars numeral_char u → rstrip_by PyFloat.is_float_space u = u.
Proof.
  induction u as [|c u IH]; simpl; [reflexivity |]. intros [Hc Hu].
  rewrite (IH Hu). destruct (numeral_char_facts c Hc) as (-> & _).
  now destruct u.
Qed.

Lemma drop_underscores_numeral (prev : ascii) (u : string) :
  Ascii.eqb prev "_" = false → all_chars numeral_char u →
  PyFloat.drop_underscores prev u = Some u.
Proof.
  revert prev. induction u as [|c u IH]; intros prev Hp; simpl.
  - now rewrite Hp.
  - intros [Hc Hu]. destruct (numeral_char_facts c Hc) as (_ & Hus & _).
    rewrite Hus, Hp. simpl. now rewrite (IH c Hus Hu).
Qed.

Lemma parse_signed_numeral (neg : bool) (u : string) :
  all_chars numeral_char u →
  PyFloat.parse_signed (if neg then String "-" u else u)
  = PyFloat.parse_number neg u.
Proof.
  intros Hu.
  assert (Hsp : ∀ w, String.eqb (PyFloat.lower_az u) (String "i" w) = false
                     ∧ String.eqb (PyFloat.lower_az u) (String "n" w) = false).
  { intros w. destruct u as [|c u]; [split; reflexivity |].
    destruct Hu as [Hc _].
    destruct (numeral_char_facts c Hc) as (_ & _ & _ & _ & Hup & Hi & Hn & _).
    simpl. rewrite Hup, Hi, Hn. split; reflexivity. }
  assert (Hbody : ∀ b, (let l := PyFloat.lower_az u in
                        if String.eqb l "inf" || String.eqb l "infinity"
                        then Some (S754_infinity b)
                        else if String.eqb l "nan" then Some S754_nan
                             else PyFloat.parse_number b u)
                       = PyFloat.parse_number b u).
  { intros b. cbv zeta.
    rewrite (proj1 (Hsp "nf")), (proj1 (Hsp "nfinity")), (proj2 (Hsp "an")).
    reflexivity. }
  unfold PyFloat.parse_signed. destruct neg.
  - simpl PyFloat.read_sign. apply Hbody.
  - assert (Hs : PyFloat.read_sign u = (false, u)).
    { destruct u as [|c u]; [reflexivity |]. destruct Hu as [Hc _].
      destruct (numeral_char_facts c Hc) as (_ & _ & Hplus & Hminus & _).
      unfold PyFloat.read_sign. now rewrite Hplus, Hminus. }
    rewrite Hs. apply Hbody.
Qed.

(** [float] on a plain numeral, bare or with a minus sign in front. *)
Lemma of_string_numeral (neg : bool) (u : string) :
  all_chars numeral_char u →
  PyFloat.of_string (if neg then String "-" u else u)
  = PyFloat.parse_number neg u.
Proof.
  intros Hu. unfold PyFloat.of_string.
  assert (Hstrip : strip_by PyFloat.is_float_space
                     (if neg then String "-" u else u)
                   = if neg then String "-" u else u).
  { unfold strip_by. destruct neg.
    - simpl. rewrite (rstrip_numeral u Hu). now destruct u.
    - now rewrite (lstrip_numeral u Hu), (rstrip_numeral u Hu). }
  rewrite Hstrip.
  assert (Hdrop : PyFloat.drop_underscores "000"%char
                    (if neg then String "-" u else u)
                  = Some (if neg then String "-" u else u)).
  { destruct neg.
    - simpl. now rewrite (drop_underscores_numeral "-" u eq_refl Hu).
    - now apply drop_underscores_numeral. }
  rewrite Hdrop. now apply parse_signed_numeral.
Qed.

Lemma parse_amount_plain (t : string) :
  all_chars plain_amount_char t →
  parse_amount t = PyFloat.parse_number false (re_sub_class comma_dollar t).
Proof.
  intros Ht. pose proof (plain_filter t Ht) as Hu. unfold parse_amount.
  set (u := re_sub_class comma_dollar t) in *. cbv zeta.
  assert (Hs : startswith u "(" = false).
  { destruct u as [|c u']; [reflexivity |]. destruct Hu as [Hc _].
    cbn [startswith].
    destruct (numeral_char_facts c Hc) as (_ & _ & _ & _ & _ & _ & _ & -> & _).
    reflexivity. }
  rewrite Hs. simpl. exact (of_string_numeral false u Hu).
Qed.

Lemma parse_amount_parens (t : string) :
  all_chars plain_amount_char t →
  parse_amount ("(" +:+ t +:+ ")")
  = PyFloat.parse_number true (re_sub_class comma_dollar t).
Proof.
  intros Ht. pose proof (plain_filter t Ht) as Hu. unfold parse_amount.
  assert (Hc : re_sub_class comma_dollar ("(" +:+ t +:+ ")")
               = "(" +:+ re_sub_class comma_dollar t +:+ ")").
  { unfold re_sub_class. now rewrite !filter_app. }
  rewrite Hc. set (u := re_sub_class comma_dollar t) in *. cbv zeta.
  change ("(" +:+ u +:+ ")") with (String "(" (u +:+ ")")).
  assert (He : endswith (String "(" (u +:+ ")")) ")" = true)
    by (cbn [endswith]; rewrite endswith_app; apply orb_true_r).
  rewrite He. simpl startswith. simpl andb. cbv iota.
  unfold slice_1_m1. rewrite drop_last_app.
  exact (of_string_numeral true u Hu).
Qed.

(** *** A successful parse needs a digit, or names a special value *)

Lemma read_digits_cases (s : string) (acc m : Z) (n n' : nat) (rest : string) :
  PyFloat.read_digits acc n s = (m, n', rest) →
  (n' = n ∧ rest = s) ∨ has_digit s = true.
Proof.
  destruct s as [|c s]; simpl.
  - intros [= _ <- <-]. now left.
  - destruct (is_digit c); [now right |]. intros [= _ <- <-]. now left.
Qed.

Lemma parse_number_digit (neg : bool) (s : string) (v : PyFloat.float) :
  PyFloat.parse_number neg s = Some v → has_digit s = true.
Proof.
  unfold PyFloat.parse_number.
  destruct (PyFloat.read_digits 0 0 s) as [[i ni] s1] eqn:R1.
  destruct (read_digits_cases _ _ _ _ _ _ R1) as [[-> ->] | H]; [| auto].
  destruct s as [|c s'].
  - simpl. discriminate.
  - destruct (Ascii.eqb c ".") eqn:Ec.
    + destruct (PyFloat.read_digits i 0 s') as [[m nf] s2] eqn:R2.
      destruct (read_digits_cases _ _ _ _ _ _ R2) as [[-> ->] | H].
      * simpl. discriminate.
      * intros _. simpl. rewrite H. apply orb_true_r.
    + simpl. discriminate.
Qed.

Lemma read_sign_digit (s body : string) (neg : bool) :
  PyFloat.read_sign s = (neg, body) → has_digit body = true → has_digit s = true.
Proof.
  destruct s as [|c s]; simpl; [now intros [= _ <-] |].
  destruct (Ascii.eqb c "-"); [intros [= _ <-] H; rewrite H; apply orb_true_r |].
  destruct (Ascii.eqb c "+"); [intros [= _ <-] H; rewrite H; apply orb_true_r |].
  now intros [= _ <-].
Qed.

Lemma drop_underscores_digit (prev : ascii) (s s' : string) :
  PyFloat.drop_underscores prev s = Some s' →
  has_digit s' = true → has_digit s = true.
Proof.
  revert prev s'. induction s as [|c s IH]; intros prev s'; simpl.
  - destruct (Ascii.eqb prev "_"); [discriminate | now intros [= <-]].
  - destruct (Ascii.eqb c "_").
    + destruct (is_digit prev); [| discriminate].
      intros H Hd. rewrite (IH _ _ H Hd). apply orb_true_r.
    + destruct (Ascii.eqb prev "_" && negb (is_digit c)); [discriminate |].
      destruct (PyFloat.drop_underscores c s) as [r|] eqn:E; [| discriminate].
      simpl. intros [= <-]. simpl.
      destruct (is_digit c); [reflexivity |]. simpl. eauto.
Qed.

Lemma lstrip_digit (f : ascii → bool) (s : string) :
  has_digit (lstrip_by f s) = true → has_digit s = true.
Proof.
  induction s as [|c s IH]; simpl; [auto |].
  destruct (f c); [| auto].
  intros H. rewrite (IH H). apply orb_true_r.
Qed.

Lemma rstrip_digit (f : ascii → bool) (s : string) :
  has_digit (rstrip_by f s) = true → has_digit s = true.
Proof.
  induction s as [|c s IH]; simpl; [auto |].
  destruct (rstrip_by f s) as [|x r] eqn:E.
  - destruct (f c); simpl; [discriminate |].
    rewrite orb_false_r. now intros ->.
  - cbn [has_digit] in *. destruct (is_digit c); [reflexivity |]. simpl. auto.
Qed.

Lemma filter_digit (f : ascii → bool) (s : string) :
  has_digit (PyStr.filter f s) = true → has_digit s = true.
Proof.
  induction s as [|c s IH]; simpl; [auto |].
  destruct (f c); simpl; destruct (is_digit c); simpl; auto.
Qed.

Lemma drop_last_digit (s : string) :
  has_digit (drop_last s) = true → has_digit s = true.
Proof.
  induction s as [|c s IH]; simpl; [auto |].
  destruct s as [|x s']; [discriminate |].
  cbn [has_digit] in *. destruct (is_digit c); [reflexivity |]. simpl. auto.
Qed.

Lemma of_string_digit (s : string) (v : PyFloat.float) :
  PyFloat.of_string s = Some v → has_digit s = true ∨ not_finite v.
Proof.
  unfold PyFloat.of_string.
  destruct (PyFloat.drop_underscores _ (strip_by _ s)) as [s'|] eqn:D;
    [| discriminate].
  unfold PyFloat.parse_signed.
  destruct (PyFloat.read_sign s') as [neg body] eqn:R.
  cbv zeta.
  destruct (_ || _); [intros [= <-]; right; right; eauto |].
  destruct (String.eqb _ "nan"); [intros [= <-]; right; now left |].
  intros H. left. apply parse_number_digit in H.
  apply (lstrip_digit PyFloat.is_float_space),
        (rstrip_digit PyFloat.is_float_space).
  fold (strip_by PyFloat.is_float_space s).
  eapply drop_underscores_digit; [exact D |].
  eapply read_sign_digit; eassumption.
Qed.

Lemma parse_amount_digit (s : string) (v : PyFloat.float) :
  parse_amount s = Some v → has_digit s = true ∨ not_finite v.
Proof.
  unfold parse_amount. cbv zeta. intros H.
  apply of_string_digit in H. destruct H as [H | H]; [left | now right].
  apply (filter_digit (λ c, negb (comma_dollar c))).
  fold (re_sub_class comma_dollar s).
  destruct (startswith _ "(" && endswith _ ")"); [| exact H].
  destruct (re_sub_class comma_dollar s) as [|c u]; [discriminate H |].
  change ("-" +:+ slice_1_m1 (String c u)) with (String "-" (drop_last u)) in H.
  cbn [has_digit] in *. apply orb_true_iff in H. destruct H as [H | H];
    [discriminate H |].
  rewrite (drop_last_digit _ H). apply orb_true_r.
Qed.

End AmountParser.

(** ** What [float] reads *)

Section FloatText.

Local Open Scope Z_scope.

Lemma length_app (a b : string) :
  String.length (a +:+ b) = (String.length a + String.length b)%nat.
Proof.
  induction a as [|c a IH]; [now rewrite str_app_nil_l |].
  rewrite str_app_cons. simpl. now rewrite IH.
Qed.

Lemma number_app (a b : string) :
  number (a +:+ b) = number a * 10 ^ Z.of_nat (String.length b) + number b.
Proof.
  induction a as [|c a IH]; [rewrite str_app_nil_l; simpl; lia |].
  rewrite str_app_cons. cbn [number]. rewrite IH.
  rewrite length_app, Nat2Z.inj_add, Z.pow_add_r by lia. ring.
Qed.

Lemma read_digits_run (ds rest : string) (acc : Z) (n : nat) :
  all_chars is_digit ds → no_digit_ahead rest →
  PyFloat.read_digits acc n (ds +:+ rest)
  = (acc * 10 ^ Z.of_nat (String.length ds) + number ds,
     (n + String.length ds)%nat, rest).
Proof.
  intros Hds Hrest. revert acc n.
  induction ds as [|c ds IH]; intros acc n.
  - rewrite str_app_nil_l. cbn [String.length number].
    rewrite Nat.add_0_r, Z.pow_0_r, Z.mul_1_r, Z.add_0_r.
    destruct rest as [|c r]; [reflexivity |]. simpl in Hrest |- *.
    now rewrite Hrest.
  - destruct Hds as [Hc Hds]. rewrite str_app_cons.
    cbn [PyFloat.read_digits]. rewrite Hc, (IH Hds).
    cbn [String.length number]. rewrite Nat2Z.inj_succ, Z.pow_succ_r by lia.
    replace (S n + String.length ds)%nat with (n + S (String.length ds))%nat
      by lia.
    f_equal. f_equal. ring.
Qed.

Lemma digits_span (s : string) :
  ∃ ds rest, s = ds +:+ rest ∧ all_chars is_digit ds ∧ no_digit_ahead rest.
Proof.
  induction s as [|c s (ds & rest & -> & Hds & Hrest)].
  - exists "", "". repeat split.
  - destruct (is_digit c) eqn:E.
    + exists (String c ds), rest. rewrite str_app_cons. repeat split; assumption.
    + exists "", (String c (ds +:+ rest)). repeat split. exact E.
Qed.

Lemma digit_not_mark (c : ascii) :
  is_digit c = true →
  Ascii.eqb c "-" = false ∧ Ascii.eqb c "+" = false ∧ Ascii.eqb c "." = false
  ∧ PyFloat.is_exp_mark c = false ∧ Ascii.eqb c "_" = false.
Proof.
  destruct c as [[] [] [] [] [] [] [] []]; vm_compute; intros H;
    first [discriminate H | repeat split].
Qed.

Lemma exp_mark_spec (c : ascii) :
  PyFloat.is_exp_mark c = true ↔ c = "e"%char ∨ c = "E"%char.
Proof.
  unfold PyFloat.is_exp_mark. rewrite orb_true_iff, !Ascii.eqb_eq. tauto.
Qed.

Lemma length_nonempty (s : string) : s ≠ "" ↔ String.length s ≠ 0%nat.
Proof. destruct s; simpl; split; congruence. Qed.

Lemma read_sign_spec (s : string) (eneg : bool) (rest : string) :
  PyFloat.read_sign s = (eneg, rest)
  ↔ ∃ sg, s = sg +:+ rest ∧ sign_text eneg sg
          ∧ (sg = "" → match rest with
                       | String c _ => Ascii.eqb c "-" = false
                                       ∧ Ascii.eqb c "+" = false
                       | EmptyString => True
                       end).
Proof.
  unfold PyFloat.read_sign, sign_text. split.
  - destruct s as [|c s].
    + intros [= <- <-]. exists "". split; [reflexivity |].
      split; [right; auto | auto].
    + destruct (Ascii.eqb c "-") eqn:E1.
      * apply Ascii.eqb_eq in E1. subst c. intros [= <- <-].
        exists "-". split; [reflexivity |]. split; [now left | discriminate].
      * destruct (Ascii.eqb c "+") eqn:E2.
        -- apply Ascii.eqb_eq in E2. subst c. intros [= <- <-].
           exists "+". split; [reflexivity |].
           split; [right; auto | discriminate].
        -- intros [= <- <-]. exists "". split; [reflexivity |].
           split; [right; auto | auto].
  - intros (sg & -> & [[-> ->] | [-> [-> | ->]]] & Hrest).
    + reflexivity.
    + reflexivity.
    + rewrite str_app_nil_l. destruct rest as [|c r]; [reflexivity |].
      destruct (Hrest eq_refl) as [-> ->]. reflexivity.
Qed.

(** The part of [parse_number] that reads the exponent. *)
Lemma exponent_reads (neg : bool) (m : Z) (nf : nat) (s2 : string)
      (v : PyFloat.float) :
  match s2 with
  | EmptyString => Some (PyFloat.of_decimal neg m (- Z.of_nat nf))
  | String c s3 =>
      if PyFloat.is_exp_mark c then
        let '(eneg, s4) := PyFloat.read_sign s3 in
        let '(ex, ne, s5) := PyFloat.read_digits 0 0 s4 in
        if (ne =? 0)%nat then None
        else match s5 with
             | EmptyString =>
                 Some (PyFloat.of_decimal neg m
                         ((if eneg then - ex else ex) - Z.of_nat nf))
             | _ => None
             end
      else None
  end = Some v
  ↔ ∃ e, exponent_text s2 e ∧ v = PyFloat.of_decimal neg m (e - Z.of_nat nf).
Proof.
  split.
  - destruct s2 as [|c s3].
    + intros [= <-]. exists 0. split; [left; auto | reflexivity].
    + destruct (PyFloat.is_exp_mark c) eqn:Ec; [| discriminate].
      destruct (PyFloat.read_sign s3) as [eneg s4] eqn:Es.
      apply read_sign_spec in Es. destruct Es as (sg & -> & Hsg & _).
      destruct (digits_span s4) as (ds & s5 & -> & Hds & H5).
      rewrite (read_digits_run ds s5 0 0 Hds H5). cbv beta iota.
      destruct (0 + String.length ds =? 0)%nat eqn:En; [discriminate |].
      destruct s5; [| discriminate]. intros [= <-].
      apply Nat.eqb_neq in En. rewrite str_app_nil_r.
      exists (if eneg then - number ds else number ds). split.
      * right. exists c, sg, ds, eneg. repeat split; try assumption.
        -- now apply exp_mark_spec.
        -- apply length_nonempty. lia.
      * destruct eneg; f_equal; lia.
  - intros (e & [[-> ->] | (mark & sg & ds & eneg & -> & Hmark & Hsg & Hne & Hds
                            & ->)] & ->).
    + reflexivity.
    + rewrite (proj2 (exp_mark_spec mark) Hmark).
      assert (Hs : PyFloat.read_sign (sg +:+ ds) = (eneg, ds)).
      { apply read_sign_spec. exists sg. repeat split; [exact Hsg |].
        intros _. destruct ds as [|d ds]; [exact I |].
        destruct Hds as [Hd _]. apply digit_not_mark in Hd. tauto. }
      rewrite Hs. rewrite <- (str_app_nil_r ds) at 1.
      rewrite (read_digits_run ds "" 0 0 Hds I). cbv beta iota.
      apply length_nonempty in Hne.
      destruct (0 + String.length ds =? 0)%nat eqn:En;
        [apply Nat.eqb_eq in En; lia |].
      destruct eneg; f_equal; f_equal; lia.
Qed.

Lemma parse_number_reads (neg : bool) (body : string) (v : PyFloat.float) :
  PyFloat.parse_number neg body = Some v ↔ numeral_text neg body v.
Proof.
  unfold PyFloat.parse_number, numeral_text. split.
  - destruct (digits_span body) as (ip & s1 & -> & Hip & H1).
    rewrite (read_digits_run ip s1 0 0 Hip H1). cbv beta iota.
    assert (Hnone :
      (let '(m, nf, s2) := (0 * 10 ^ Z.of_nat (String.length ip) + number ip,
                            0%nat, s1) in
       if (0 + String.length ip + nf =? 0)%nat then None
       else match s2 with
            | EmptyString => Some (PyFloat.of_decimal neg m (- Z.of_nat nf))
            | String c s3 =>
                if PyFloat.is_exp_mark c then
                  let '(eneg, s4) := PyFloat.read_sign s3 in
                  let '(ex, ne, s5) := PyFloat.read_digits 0 0 s4 in
                  if (ne =? 0)%nat then None
                  else match s5 with
                       | EmptyString =>
                           Some (PyFloat.of_decimal neg m
                                   ((if eneg then - ex else ex) - Z.of_nat nf))
                       | _ => None
                       end
                else None
            end) = Some v →
      ∃ ip0 fp ex e (point : bool),
        ip +:+ s1 = ip0 +:+ (if point then "." else "") +:+ fp +:+ ex
        ∧ all_chars is_digit ip0 ∧ all_chars is_digit fp
        ∧ (ip0 ≠ "" ∨ fp ≠ "") ∧ (point = false → fp = "")
        ∧ exponent_text ex e
        ∧ v = PyFloat.of_decimal neg (number (ip0 +:+ fp))
                                 (e - Z.of_nat (String.length fp))).
    { cbv beta iota.
      destruct (0 + String.length ip + 0 =? 0)%nat eqn:En; [discriminate |].
      intros H. apply exponent_reads in H. destruct H as (e & He & ->).
      apply Nat.eqb_neq in En.
      exists ip, "", s1, e, false. rewrite !str_app_nil_l, str_app_nil_r.
      repeat split; try assumption; try reflexivity.
      left. apply length_nonempty. lia. }
    destruct s1 as [|c s1']; [exact Hnone |].
    destruct (Ascii.eqb c ".") eqn:Ec; [| exact Hnone]. clear Hnone.
    apply Ascii.eqb_eq in Ec. subst c.
    destruct (digits_span s1') as (fp & s2 & -> & Hfp & H2).
    rewrite (read_digits_run fp s2 _ 0 Hfp H2). cbv beta iota.
    destruct (0 + String.length ip + (0 + String.length fp) =? 0)%nat eqn:En;
      [discriminate |].
    intros H. apply exponent_reads in H. destruct H as (e & He & ->).
    apply Nat.eqb_neq in En.
    exists ip, fp, s2, e, true.
    rewrite !str_app_cons, !str_app_nil_l.
    repeat split; try assumption; try discriminate.
    + destruct (String.length ip) eqn:Li.
      * right. apply length_nonempty. lia.
      * left. apply length_nonempty. lia.
    + rewrite number_app. f_equal; lia.
  - intros (ip & fp & ex & e & point & -> & Hip & Hfp & Hne & Hpt & Hex & ->).
    assert (Hex0 : no_digit_ahead ex).
    { destruct Hex as [[-> _] | (mark & sg & ds & eneg & -> & [-> | ->] & _)];
        reflexivity. }
    assert (Hlen : (0 + String.length ip + (0 + String.length fp) =? 0)%nat
                   = false).
    { apply Nat.eqb_neq. destruct Hne as [H | H]; apply length_nonempty in H; lia. }
    destruct point.
    + rewrite !str_app_cons, !str_app_nil_l.
      rewrite (read_digits_run ip (String "." (fp +:+ ex)) 0 0 Hip eq_refl).
      cbv beta iota. rewrite Ascii.eqb_refl.
      rewrite (read_digits_run fp ex _ 0 Hfp Hex0). cbv beta iota.
      rewrite Hlen. apply exponent_reads. exists e. split; [exact Hex |].
      rewrite number_app. f_equal; lia.
    + rewrite (Hpt eq_refl) in *. rewrite !str_app_nil_l.
      rewrite (read_digits_run ip ex 0 0 Hip Hex0). cbv beta iota.
      assert (Hs1 : match ex with
                    | String c s1' =>
                        if Ascii.eqb c "."
                        then PyFloat.read_digits
                               (0 * 10 ^ Z.of_nat (String.length ip) + number ip)
                               0 s1'
                        else (0 * 10 ^ Z.of_nat (String.length ip) + number ip,
                              0%nat, ex)
                    | EmptyString =>
                        (0 * 10 ^ Z.of_nat (String.length ip) + number ip,
                         0%nat, ex)
                    end
                    = (0 * 10 ^ Z.of_nat (String.length ip) + number ip,
                       0%nat, ex)).
      { destruct Hex as [[-> _] | (mark & sg & ds & eneg & -> & [-> | ->] & _)];
          reflexivity. }
      rewrite Hs1. cbv beta iota.
      change ((0 + String.length ip + 0 =? 0)%nat = false) in Hlen.
      rewrite Hlen. apply exponent_reads. exists e. split; [exact Hex |].
      rewrite str_app_nil_r. f_equal; simpl; lia.
Qed.

Lemma numeral_head (neg : bool) (body : string) (v : PyFloat.float) :
  numeral_text neg body v →
  ∃ c r, body = String c r ∧ (is_digit c = true ∨ c = "."%char).
Proof.
  intros (ip & fp & ex & e & point & -> & Hip & Hfp & Hne & Hpt & _).
  destruct ip as [|c ip].
  - destruct point.
    + exists "."%char, (fp +:+ ex). split; [reflexivity | now right].
    + destruct Hne as [H | H]; [congruence | now destruct (H (Hpt eq_refl))].
  - destruct Hip as [Hc _]. rewrite str_app_cons. eauto.
Qed.

Lemma lower_az_cons (c : ascii) (r : string) :
  PyFloat.lower_az (String c r)
  = String (if is_upper_az c then ascii_of_nat (code c + 32) else c)
           (PyFloat.lower_az r).
Proof. reflexivity. Qed.

Lemma word_head (neg : bool) (body : string) (v : PyFloat.float) :
  word_text neg body v →
  ∃ c r, body = String c r ∧ Ascii.eqb c "-" = false ∧ Ascii.eqb c "+" = false.
Proof.
  intros H.
  assert (Hl : ∃ x r, PyFloat.lower_az body = String x r
                      ∧ (x = "i"%char ∨ x = "n"%char)).
  { destruct H as [[[-> | ->] _] | [-> _]]; eauto. }
  destruct Hl as (x & r & Hl & Hx). destruct body as [|c body]; [discriminate |].
  rewrite lower_az_cons in Hl. injection Hl as Hc _.
  exists c, body. split; [reflexivity |].
  split; apply Ascii.eqb_neq; intros ->; vm_compute in Hc; subst x;
    destruct Hx; discriminate.
Qed.

Lemma numeral_not_word (neg : bool) (body : string) (v : PyFloat.float) :
  numeral_text neg body v →
  String.eqb (PyFloat.lower_az body) "inf" = false
  ∧ String.eqb (PyFloat.lower_az body) "infinity" = false
  ∧ String.eqb (PyFloat.lower_az body) "nan" = false.
Proof.
  intros H. destruct (numeral_head _ _ _ H) as (c & r & -> & Hc).
  rewrite lower_az_cons.
  assert (Hx : (if is_upper_az c then ascii_of_nat (code c + 32) else c)
               ≠ "i"%char
               ∧ (if is_upper_az c then ascii_of_nat (code c + 32) else c)
                 ≠ "n"%char).
  { destruct Hc as [Hc | ->]; [| split; discriminate].
    revert Hc. destruct c as [[] [] [] [] [] [] [] []]; vm_compute;
      intros Hc; first [discriminate Hc | split; discriminate]. }
  destruct Hx as [Hi Hn].
  repeat split; apply String.eqb_neq; intros [= E _]; congruence.
Qed.

Lemma parse_signed_reads (u : string) (v : PyFloat.float) :
  PyFloat.parse_signed u = Some v
  ↔ ∃ sg body neg,
      u = sg +:+ body ∧ sign_text neg sg
      ∧ (word_text neg body v ∨ numeral_text neg body v).
Proof.
  unfold PyFloat.parse_signed. split.
  - destruct (PyFloat.read_sign u) as [neg body] eqn:Es.
    apply read_sign_spec in Es. destruct Es as (sg & -> & Hsg & _).
    intros H. exists sg, body, neg. split; [reflexivity |]. split; [exact Hsg |].
    destruct (String.eqb_spec (PyFloat.lower_az body) "inf") as [E1 | E1].
    { injection H as <-. left. left. auto. }
    destruct (String.eqb_spec (PyFloat.lower_az body) "infinity") as [E2 | E2].
    { injection H as <-. left. left. auto. }
    cbn [orb] in H.
    destruct (String.eqb_spec (PyFloat.lower_az body) "nan") as [E3 | E3].
    { injection H as <-. left. right. auto. }
    right. now apply parse_number_reads.
  - intros (sg & body & neg & -> & Hsg & Hv).
    assert (Hs : PyFloat.read_sign (sg +:+ body) = (neg, body)).
    { apply read_sign_spec. exists sg. split; [reflexivity |].
      split; [exact Hsg |]. intros _. destruct Hv as [Hw | Hn].
      - destruct (word_head _ _ _ Hw) as (c & r & -> & H1 & H2). auto.
      - destruct (numeral_head _ _ _ Hn) as (c & r & -> & [Hc | ->]).
        + apply digit_not_mark in Hc. tauto.
        + split; reflexivity. }
    rewrite Hs. destruct Hv as [[[[E | E] ->] | [E ->]] | Hn].
    + rewrite E. reflexivity.
    + rewrite E. reflexivity.
    + rewrite E. reflexivity.
    + destruct (numeral_not_word _ _ _ Hn) as (-> & -> & ->). cbn [orb].
      now apply parse_number_reads.
Qed.

Lemma digit_at_0 (c : ascii) (s : string) :
  digit_at (String c s) 0 ↔ is_digit c = true.
Proof.
  unfold digit_at. simpl. split.
  - now intros (d & [= <-] & H).
  - eauto.
Qed.

Lemma digit_at_S (c : ascii) (s : string) (i : nat) :
  digit_at (String c s) (S i) ↔ digit_at s i.
Proof. reflexivity. Qed.

Lemma guarded_nil (prev : ascii) : guarded prev "" ↔ prev ≠ "_"%char.
Proof.
  unfold guarded. split.
  - intros [_ H] ->. destruct (H eq_refl) as (d & Hd & _). discriminate Hd.
  - intros H. split; [intros i Hi; discriminate Hi | intros E; now destruct H].
Qed.

Lemma guarded_underscore (prev : ascii) (s : string) :
  guarded prev (String "_" s) ↔ is_digit prev = true ∧ guarded "_" s.
Proof.
  unfold guarded. split.
  - intros [HG Hp]. destruct (HG 0%nat eq_refl) as [Hd H1].
    split; [exact Hd |]. split; [| intros _; exact H1].
    intros i Hi. destruct (HG (S i) Hi) as [Ha Hb]. split; [| exact Hb].
    destruct i as [|j]; [now apply digit_at_0 in Ha | exact Ha].
  - intros [Hd [HG Hp]]. split.
    + intros [|i] Hi; [split; [exact Hd | exact (Hp eq_refl)] |].
      destruct (HG i Hi) as [Ha Hb]. split; [| exact Hb].
      destruct i as [|j]; [discriminate Ha | exact Ha].
    + intros ->. discriminate Hd.
Qed.

Lemma guarded_other (prev c : ascii) (s : string) :
  c ≠ "_"%char →
  (guarded prev (String c s)
   ↔ (prev = "_"%char → is_digit c = true) ∧ guarded c s).
Proof.
  intros Hc. unfold guarded. split.
  - intros [HG Hp]. split; [intros E; exact (proj1 (digit_at_0 c s) (Hp E)) |].
    split; [| intros E; now destruct Hc].
    intros i Hi. destruct (HG (S i) Hi) as [Ha Hb]. split; [| exact Hb].
    destruct i as [|j]; [now apply digit_at_0 in Ha | exact Ha].
  - intros [Hp [HG _]].
    split; [| intros E; exact (proj2 (digit_at_0 c s) (Hp E))].
    intros [|i] Hi; [injection Hi as Hi; now destruct Hc |].
    destruct (HG i Hi) as [Ha Hb]. split; [| exact Hb].
    destruct i as [|j]; [now apply digit_at_0 | exact Ha].
Qed.

Lemma drop_underscores_reads (s : string) (prev : ascii) (u : string) :
  PyFloat.drop_underscores prev s = Some u
  ↔ u = without (λ c, Ascii.eqb c "_") s ∧ guarded prev s.
Proof.
  revert prev u. induction s as [|c s IH]; intros prev u;
    cbn [PyFloat.drop_underscores without PyStr.filter].
  - rewrite guarded_nil. destruct (Ascii.eqb_spec prev "_") as [-> | Hp].
    + split; [discriminate | intros [_ H]; now destruct H].
    + split; [intros [= <-]; auto | intros [-> _]; reflexivity].
  - destruct (Ascii.eqb_spec c "_") as [-> | Hc]; cbn [negb].
    + rewrite guarded_underscore. destruct (is_digit prev).
      * rewrite IH. unfold without. tauto.
      * split; [discriminate | intros [_ [H _]]; discriminate H].
    + rewrite (guarded_other _ _ _ Hc).
      destruct (Ascii.eqb_spec prev "_") as [-> | Hp]; cbn [andb].
      * destruct (is_digit c); cbn [negb].
        -- destruct (PyFloat.drop_underscores c s) as [u'|] eqn:D; cbn [option_map].
           ++ apply IH in D. destruct D as [-> HG]. unfold without.
              split; [intros [= <-]; auto | intros [-> _]; reflexivity].
           ++ split; [discriminate |]. intros (-> & _ & HG).
              assert (H : PyFloat.drop_underscores c s
                          = Some (without (λ c, Ascii.eqb c "_") s))
                by (apply IH; auto).
              congruence.
        -- split; [discriminate | intros (_ & H & _)]. now specialize (H eq_refl).
      * destruct (PyFloat.drop_underscores c s) as [u'|] eqn:D; cbn [option_map].
        -- apply IH in D. destruct D as [-> HG]. unfold without.
           split; [intros [= <-]; split; [reflexivity | split; [tauto | exact HG]]
                  | intros [-> _]; reflexivity].
        -- split; [discriminate |]. intros (-> & _ & HG).
           assert (H : PyFloat.drop_underscores c s
                       = Some (without (λ c, Ascii.eqb c "_") s))
             by (apply IH; auto).
           congruence.
Qed.

Lemma guarded_top (t : string) :
  guarded "000" t ↔ underscores_between_digits t.
Proof.
  unfold guarded, underscores_between_digits. split.
  - intros [HG _] i Hi. destruct (HG i Hi) as [Ha Hb]. split; [| exact Hb].
    destruct i as [|j]; [discriminate Ha | eauto].
  - intros H. split; [| discriminate].
    intros i Hi. destruct (H i Hi) as [(j & -> & Ha) Hb]. auto.
Qed.

Lemma of_string_reads (text : string) (v : PyFloat.float) :
  PyFloat.of_string text = Some v ↔ float_reads text v.
Proof.
  unfold PyFloat.of_string, float_reads. cbv zeta.
  destruct (PyFloat.drop_underscores "000"
              (strip_by PyFloat.is_float_space text)) as [u|] eqn:D.
  - apply drop_underscores_reads in D. destruct D as [-> HG].
    apply guarded_top in HG. rewrite parse_signed_reads. tauto.
  - split; [discriminate |]. intros [HG _].
    assert (H : PyFloat.drop_underscores "000"
                  (strip_by PyFloat.is_float_space text)
                = Some (without (λ c, Ascii.eqb c "_")
                          (strip_by PyFloat.is_float_space text)))
      by (apply drop_underscores_reads; split; [reflexivity |];
          now apply guarded_top).
    congruence.
Qed.

Lemma wrapped_spec (t : string) :
  startswith t "(" && endswith t ")" = true ↔ ∃ inner, t = "(" +:+ inner +:+ ")".
Proof.
  rewrite andb_true_iff, startswith_spec, endswith_spec. split.
  - intros [[b ->] [stem H]]. destruct stem as [|c stem].
    + rewrite str_app_cons, !str_app_nil_l in H. discriminate H.
    + rewrite !str_app_cons, str_app_nil_l in H. injection H as <- ->.
      now exists stem.
  - intros [inner ->]. split; [now exists (inner +:+ ")") |].
    exists ("(" +:+ inner). now rewrite str_app_assoc.
Qed.

Lemma slice_wrapped (inner : string) : slice_1_m1 ("(" +:+ inner +:+ ")") = inner.
Proof.
  rewrite str_app_cons, str_app_nil_l. cbn [slice_1_m1]. apply drop_last_app.
Qed.

Lemma parse_amount_wrapped (s inner : string) :
  without comma_dollar s = "(" +:+ inner +:+ ")" →
  parse_amount s = PyFloat.of_string ("-" +:+ inner).
Proof.
  intros H. unfold parse_amount. change (re_sub_class comma_dollar s)
    with (without comma_dollar s). cbv zeta.
  rewrite (proj2 (wrapped_spec _)) by eauto.
  now rewrite H, slice_wrapped.
Qed.

Lemma parse_amount_bare (s : string) :
  (∀ inner, without comma_dollar s ≠ "(" +:+ inner +:+ ")") →
  parse_amount s = PyFloat.of_string (without comma_dollar s).
Proof.
  intros H. unfold parse_amount. change (re_sub_class comma_dollar s)
    with (without comma_dollar s). cbv zeta.
  destruct (startswith (without comma_dollar s) "("
            && endswith (without comma_dollar s) ")") eqn:E; [| reflexivity].
  apply wrapped_spec in E. destruct E as [inner E]. now destruct (H inner).
Qed.

End FloatText.

(* The decimal literals below denote the nearest binary64 value, as they do
   in Python. *)
Set Warnings "-inexact-float".

(** C5, as the program has it.  The amount parser deletes every comma and
    dollar sign, wherever it stands; if what is left is wrapped in
    parentheses, they are replaced by a minus sign in front; the residue
    is handed to [float].  So the parse succeeds, with the value [v],
    exactly when the residue, trimmed of whitespace at its ends and with
    underscores standing between digits only, is a sign followed by a
    decimal numeral that denotes [v] (digits with at most one decimal
    point, at least one digit, and an optional exponent), or by one of
    the words inf, infinity and nan in any letter case, which give an
    infinity and NaN; every other residue fails, among them the empty
    one, "abc", "12abc", "1.2.3" and "12-".  An amount written with
    digits, a decimal point, commas and dollar signs and wrapped in
    parentheses parses to the negation of what it parses to unwrapped; a
    parse that succeeds has read a digit or else gives NaN or an
    infinity; and "(1,234.56)" parses to -1234.56, "$1,234.56" to
    1234.56. *)
Theorem parse_amount_spec :
  (∀ a b, parse_amount (a +:+ "," +:+ b) = parse_amount (a +:+ b)
          ∧ parse_amount (a +:+ "$" +:+ b) = parse_amount (a +:+ b))
  ∧ (∀ t, all_chars plain_amount_char t →
          parse_amount ("(" +:+ t +:+ ")") = SFopp <$> parse_amount t)
  ∧ (∀ s v, parse_amount s = Some v → has_digit s = true ∨ not_finite v)
  ∧ parse_amount "(1,234.56)" = Some (Prim2SF (-1234.56)%float)
  ∧ parse_amount "$1,234.56" = Some (Prim2SF (1234.56)%float)
  ∧ (∀ s inner v,
       without comma_dollar s = "(" +:+ inner +:+ ")" →
       (parse_amount s = Some v ↔ float_reads ("-" +:+ inner) v))
  ∧ (∀ s v,
       (∀ inner, without comma_dollar s ≠ "(" +:+ inner +:+ ")") →
       (parse_amount s = Some v ↔ float_reads (without comma_dollar s) v))
  ∧ parse_amount "" = None
  ∧ parse_amount "abc" = None
  ∧ parse_amount "12abc" = None
  ∧ parse_amount "1.2.3" = None
  ∧ parse_amount "12-" = None.
Proof.
  split; [| split; [| split; [exact parse_amount_digit |]]].
  - intros a b. unfold parse_amount, re_sub_class.
    rewrite !filter_app. split; reflexivity.
  - intros t Ht.
    rewrite (parse_amount_parens t Ht), (parse_amount_plain t Ht).
    apply parse_number_opp.
  - split; [vm_compute; reflexivity |]. split; [vm_compute; reflexivity |].
    split; [| split].
    + intros s inner v H. rewrite (parse_amount_wrapped _ _ H).
      apply of_string_reads.
    + intros s v H. rewrite (parse_amount_bare _ H). apply of_string_reads.
    + repeat split; vm_compute; reflexivity.
Qed.

(** C5 as stated fails: a residue with no digit in it can parse, to a
    value that is not a number, and such an amount reaches a
    transaction. *)
Lemma parse_amount_counterexample :
  has_digit "nan" = false
  ∧ parse_amount "nan" = Some S754_nan
  ∧ table_row_transaction [Some "03/04/24"; Some "WIRE REFUND"; Some "nan,"]
    = Some {| t_id := None;
              t_date := JStr "2024-03-04";
              t_description := JStr "WIRE REFUND";
              t_amount := JFloat S754_nan;
              t_category := JStr "Uncategorized" |}.
Proof. repeat split; vm_compute; reflexivity. Qed.

Lemma parse_amount_witness :
  parse_amount "($2,500)" = SFopp <$> parse_amount "$2,500"
  ∧ (has_digit "1e3" = true ∨ not_finite (S754_finite false 8796093022208000 (-43)))
  ∧ float_reads "-2500" (S754_finite true 5497558138880000 (-41))
  ∧ float_reads "1e3" (S754_finite false 8796093022208000 (-43)).
Proof.
  split; [| split; [| split]].
  - apply (proj1 (proj2 parse_amount_spec) "$2,500"). repeat split.
  - apply (proj1 (proj2 (proj2 parse_amount_spec)) "1e3").
    vm_compute. reflexivity.
  - apply (proj1 (proj1 (proj2 (proj2 (proj2 (proj2 (proj2 parse_amount_spec)))))
                    "($2,500)" "2500" _ eq_refl)).
    vm_compute. reflexivity.
  - refine (proj1 (proj1 (proj2 (proj2 (proj2 (proj2 (proj2 (proj2
                     parse_amount_spec))))))
                     "1e3" _ _) _).
    + intros inner H. vm_compute in H. discriminate H.
    + vm_compute. reflexivity.
Defined.

(** ** The date parser *)

Section DateParser.

Import Strptime.
Local Open Scope Z_scope.

Lemma match_lit (c : ascii) (fmt : list directive) (acc : date) (tail : string) :
  match_format (D_lit c :: fmt) acc (String c tail) = match_format fmt acc tail.
Proof.
  cbn [match_format alternatives]. rewrite Ascii.eqb_refl.
  cbn [flat_map set_field]. apply List.app_nil_r.
Qed.

Lemma match_month (m : Z) (fmt : list directive) (acc : date) (tail : string) :
  1 <= m <= 12 →
  match_format (D_m :: D_lit "/" :: fmt) acc (zpad 2 m +:+ String "/" tail)
  = match_format fmt (set_field F_month m acc) tail.
Proof.
  intros Hm.
  assert (H : m = 1 ∨ m = 2 ∨ m = 3 ∨ m = 4 ∨ m = 5 ∨ m = 6 ∨ m = 7 ∨ m = 8
              ∨ m = 9 ∨ m = 10 ∨ m = 11 ∨ m = 12) by lia.
  repeat (destruct H as [-> | H]); [.. | subst m].
  all: simpl; rewrite ?List.app_nil_r; reflexivity.
Qed.

Lemma match_day (d : Z) (fmt : list directive) (acc : date) (tail : string) :
  1 <= d <= 31 →
  match_format (D_d :: D_lit "/" :: fmt) acc (zpad 2 d +:+ String "/" tail)
  = match_format fmt (set_field F_day d acc) tail.
Proof.
  intros Hd.
  assert (H : (d = 1 ∨ d = 2 ∨ d = 3 ∨ d = 4 ∨ d = 5 ∨ d = 6 ∨ d = 7 ∨ d = 8
               ∨ d = 9 ∨ d = 10)
              ∨ (d = 11 ∨ d = 12 ∨ d = 13 ∨ d = 14 ∨ d = 15 ∨ d = 16 ∨ d = 17
                 ∨ d = 18 ∨ d = 19 ∨ d = 20)
              ∨ (d = 21 ∨ d = 22 ∨ d = 23 ∨ d = 24 ∨ d = 25 ∨ d = 26 ∨ d = 27
                 ∨ d = 28 ∨ d = 29 ∨ d = 30 ∨ d = 31)) by lia.
  destruct H as [H | [H | H]];
    repeat (destruct H as [-> | H]); try subst d.
  all: simpl; rewrite ?List.app_nil_r; reflexivity.
Qed.

Lemma digit_char_facts (k : Z) :
  0 <= k <= 9 → is_digit (digit_char k) = true ∧ dv (digit_char k) = k.
Proof.
  intros Hk.
  assert (H : k = 0 ∨ k = 1 ∨ k = 2 ∨ k = 3 ∨ k = 4 ∨ k = 5 ∨ k = 6 ∨ k = 7
              ∨ k = 8 ∨ k = 9) by lia.
  repeat (destruct H as [-> | H]); [.. | subst k]; split; reflexivity.
Qed.

Lemma digit_mod_facts (x : Z) :
  is_digit (digit_char (x mod 10)) = true ∧ dv (digit_char (x mod 10)) = x mod 10.
Proof. apply digit_char_facts. pose proof (Z.mod_pos_bound x 10). lia. Qed.

Lemma zpad_2 (n : Z) :
  zpad 2 n = String (digit_char (n / 10 mod 10)) (String (digit_char (n mod 10)) "").
Proof. reflexivity. Qed.

Lemma zpad_4 (n : Z) :
  zpad 4 n
  = String (digit_char (n / 10 / 10 / 10 mod 10))
      (String (digit_char (n / 10 / 10 mod 10))
         (String (digit_char (n / 10 mod 10))
            (String (digit_char (n mod 10)) ""))).
Proof. reflexivity. Qed.

Lemma match_year4 (y : Z) (acc : date) :
  0 <= y <= 9999 →
  match_format [D_Y] acc (zpad 4 y) = [(set_field F_year4 y acc, "")].
Proof.
  intros Hy. rewrite zpad_4.
  destruct (digit_mod_facts (y / 10 / 10 / 10)) as [H1 V1].
  destruct (digit_mod_facts (y / 10 / 10)) as [H2 V2].
  destruct (digit_mod_facts (y / 10)) as [H3 V3].
  destruct (digit_mod_facts (y)) as [H4 V4].
  cbn [match_format alternatives]. rewrite H1, H2, H3, H4, V1, V2, V3, V4.
  cbn [andb flat_map match_format app]. do 2 f_equal. f_equal.
  Z.div_mod_to_equations. lia.
Qed.

(** The two-digit directive on a four-digit year leaves two digits over. *)
Lemma match_year2_of_4 (y : Z) (acc : date) :
  0 <= y <= 9999 →
  ∃ acc' c3 c4, match_format [D_y] acc (zpad 4 y) = [(acc', String c3 (String c4 ""))].
Proof.
  intros Hy. rewrite zpad_4.
  destruct (digit_mod_facts (y / 10 / 10 / 10)) as [H1 V1].
  destruct (digit_mod_facts (y / 10 / 10)) as [H2 V2].
  cbn [match_format alternatives]. rewrite H1, H2.
  cbn [andb flat_map match_format app]. eauto.
Qed.

Lemma match_year2 (y : Z) (acc : date) :
  1969 <= y <= 2068 →
  match_format [D_y] acc (zpad 2 (y mod 100))
  = [(mkdate y (month acc) (day acc), "")].
Proof.
  intros Hy. rewrite zpad_2.
  destruct (digit_mod_facts (y mod 100 / 10)) as [H1 V1].
  destruct (digit_mod_facts (y mod 100)) as [H2 V2].
  cbn [match_format alternatives]. rewrite H1, H2, V1, V2.
  cbn [andb flat_map match_format app set_field]. do 2 f_equal. f_equal.
  destruct (_ <=? 68) eqn:E; [apply Z.leb_le in E | apply Z.leb_gt in E];
    Z.div_mod_to_equations; lia.
Qed.

Lemma valid_date_bounds (d : date) :
  valid_date d = true →
  1 <= year d <= 9999 ∧ 1 <= month d <= 12 ∧ 1 <= day d <= 31.
Proof.
  unfold valid_date, days_in_month. rewrite !andb_true_iff, !Z.leb_le.
  intros (((((? & ?) & ?) & ?) & ?) & Hd).
  repeat split; try assumption.
  repeat match type of Hd with context [if ?b then _ else _] => destruct b end; lia.
Qed.

Lemma strptime_text_mdY (d : date) :
  valid_date d = true →
  strptime (text_mdY d) fmt_mdy = None ∧ strptime (text_mdY d) fmt_mdY = Some d.
Proof.
  intros Hv. destruct (valid_date_bounds d Hv) as (Hy & Hm & Hd).
  unfold strptime, text_mdY, fmt_mdy, fmt_mdY.
  rewrite !(str_app_cons "/" ""), !str_app_nil_l.
  rewrite !match_month, !match_day by assumption. split.
  - destruct (match_year2_of_4 (year d)
                (set_field F_day (day d) (set_field F_month (month d)
                   (mkdate 1900 1 1)))) as (acc' & c3 & c4 & ->); [lia |].
    reflexivity.
  - rewrite match_year4 by lia. cbn [set_field year month day].
    destruct d as [y m dd]. cbn [year month day]. now rewrite Hv.
Qed.

Lemma strptime_text_mdy (d : date) :
  valid_date d = true → 1969 <= year d <= 2068 →
  strptime (text_mdy d) fmt_mdy = Some d.
Proof.
  intros Hv Hy. destruct (valid_date_bounds d Hv) as (_ & Hm & Hd).
  unfold strptime, text_mdy, fmt_mdy.
  rewrite !(str_app_cons "/" ""), !str_app_nil_l.
  rewrite match_month, match_day by assumption.
  rewrite match_year2 by assumption. cbn [set_field year month day].
  destruct d as [y m dd]. cbn [year month day]. now rewrite Hv.
Qed.

End DateParser.

(** C6.  The date parser answers with what the format %m/%d/%y reads when
    that succeeds, and otherwise with what %m/%d/%Y reads, failing when
    that fails too.  A date written MM/DD/YY (years 1969 to 2068, the
    window of %y) or MM/DD/YYYY is read back as that date, and "3/4/24"
    and "03/04/2024" both parse to 2024-03-04. *)
Theorem parse_date_spec :
  (∀ s d, Strptime.strptime s Strptime.fmt_mdy = Some d → parse_date s = Some d)
  ∧ (∀ s, Strptime.strptime s Strptime.fmt_mdy = None →
          parse_date s = Strptime.strptime s Strptime.fmt_mdY)
  ∧ (∀ d, Strptime.valid_date d = true →
          (1969 <= Strptime.year d <= 2068)%Z →
          parse_date (text_mdy d) = Some d)
  ∧ (∀ d, Strptime.valid_date d = true → parse_date (text_mdY d) = Some d)
  ∧ parse_date "3/4/24" = Some (Strptime.mkdate 2024 3 4)
  ∧ parse_date "03/04/2024" = Some (Strptime.mkdate 2024 3 4)
  ∧ Strptime.isoformat (Strptime.mkdate 2024 3 4) = "2024-03-04".
Proof.
  unfold parse_date. repeat split.
  - now intros s d ->.
  - now intros s ->.
  - intros d Hv Hy. now rewrite (strptime_text_mdy d Hv Hy).
  - intros d Hv. destruct (strptime_text_mdY d Hv) as [-> ->]. reflexivity.
Qed.

Lemma parse_date_witness :
  parse_date "12/31/99" = Some (Strptime.mkdate 1999 12 31)
  ∧ parse_date "02/29/2024" = Some (Strptime.mkdate 2024 2 29)
  ∧ parse_date "2024-03-04" = Strptime.strptime "2024-03-04" Strptime.fmt_mdY.
Proof.
  split; [| split].
  - apply (proj1 (proj2 (proj2 parse_date_spec)) (Strptime.mkdate 1999 12 31)).
    + reflexivity.
    + simpl. lia.
  - apply (proj1 (proj2 (proj2 (proj2 parse_date_spec)))
             (Strptime.mkdate 2024 2 29)).
    reflexivity.
  - apply (proj1 (proj2 parse_date_spec) "2024-03-04"). reflexivity.
Defined.

(** ** The table pass *)

Section TablePass.

Lemma nth_0_hd (l : list string) : nth 0 l "" = hd "" l.
Proof. now destruct l. Qed.

Lemma date_re_nonempty (s : string) : re_match date_re s = true → nonempty s = true.
Proof. destruct s; [vm_compute; discriminate | reflexivity]. Qed.

Lemma existsb_hd (l : list string) :
  nonempty (hd "" l) = true → existsb nonempty l = true.
Proof. destruct l as [|x l]; simpl; [discriminate | now intros ->]. Qed.

End TablePass.

(** C3, as the program has it.  A table row is a transaction candidate
    exactly when it has at least 3 cells, its first cell (trimmed; a
    missing cell counts as empty) starts with a match of the date
    pattern, hence is not empty, and its last cell (trimmed) contains a
    match of the numeric pattern; the date text is then the first cell,
    the amount text the last cell and the description the cells between
    them joined by spaces.  A row with fewer than 3 cells, so any row of
    2 cells, yields no transaction. *)
Theorem table_row_candidate_spec (row : list (option string))
        (date_str description amount_str : string) :
  (table_row_candidate row = Some (date_str, description, amount_str)
   ↔ (3 <= length row)%nat
     ∧ re_match date_re (hd "" (map clean_cell row)) = true
     ∧ re_search amount_re (List.last (map clean_cell row) "") = true
     ∧ date_str = hd "" (map clean_cell row)
     ∧ description = join " " (interior (map clean_cell row))
     ∧ amount_str = List.last (map clean_cell row) "")
  ∧ ((length row < 3)%nat → table_row_transaction row = None)
  ∧ (length row = 2%nat → ∀ acc, process_table acc [row] = acc).
Proof.
  assert (Hshort : (length row < 3)%nat → table_row_transaction row = None).
  { intros Hl. unfold table_row_transaction, table_row_candidate.
    apply Nat.leb_gt in Hl. now rewrite Hl. }
  split; [| split; [exact Hshort |]].
  - unfold table_row_candidate. cbv zeta. rewrite !nth_0_hd, length_map.
    destruct (3 <=? length row)%nat eqn:El.
    + apply Nat.leb_le in El.
      assert (H2 : (2 <? length row)%nat = true) by (apply Nat.ltb_lt; lia).
      assert (H1 : (1 <? length row)%nat = true) by (apply Nat.ltb_lt; lia).
      rewrite H2, H1.
      destruct (re_match date_re (hd "" (map clean_cell row))) eqn:Ed.
      * pose proof (date_re_nonempty _ Ed) as Hne.
        rewrite Hne, (existsb_hd _ Hne). simpl.
        destruct (re_search amount_re _) eqn:Ea.
        -- split; [intros [= <- <- <-]; auto 10 | intros (_ & _ & _ & -> & -> & ->); reflexivity].
        -- split; [discriminate | intros (_ & _ & Hf & _); discriminate].
      * split; [| intros (_ & Hf & _); discriminate].
        destruct (_ || _); [discriminate | simpl; discriminate].
    + apply Nat.leb_gt in El. split; [discriminate | lia].
  - intros Hl acc. unfold process_table. simpl.
    rewrite Hshort by lia. reflexivity.
Qed.

(** C3 as stated fails on a row that begins with an empty cell: its
    first non-empty cell is a date and its last cell a number, yet the row
    is skipped. *)
Lemma table_row_candidate_counterexample :
  (3 <= length [Some ""; Some "03/01/24"; Some "AMAZON MARKETPLACE"; Some "$45.67"])%nat
  ∧ first_nonempty_cell
      [Some ""; Some "03/01/24"; Some "AMAZON MARKETPLACE"; Some "$45.67"]
    = Some "03/01/24"
  ∧ re_match date_re "03/01/24" = true
  ∧ re_search amount_re "$45.67" = true
  ∧ table_row_candidate
      [Some ""; Some "03/01/24"; Some "AMAZON MARKETPLACE"; Some "$45.67"]
    = None.
Proof. split; [simpl; lia |]. repeat split; vm_compute; reflexivity. Qed.

Lemma table_row_candidate_witness :
  table_row_candidate [Some "03/01/24"; Some "AMAZON MARKETPLACE"; Some " $45.67 "]
  = Some ("03/01/24", "AMAZON MARKETPLACE", "$45.67")
  ∧ table_row_transaction [Some "03/01/24"; Some "45.67"] = None.
Proof.
  split.
  - apply (proj1 (table_row_candidate_spec
                    [Some "03/01/24"; Some "AMAZON MARKETPLACE"; Some " $45.67 "]
                    "03/01/24" "AMAZON MARKETPLACE" "$45.67")).
    repeat split; simpl; lia.
  - apply (proj1 (proj2 (table_row_candidate_spec
                           [Some "03/01/24"; Some "45.67"] "" "" ""))).
    simpl. lia.
Defined.

(** ** The extraction loop *)

Section Extraction.

Lemma fold_append_opt {A : Type} (f : A → option transaction) (l : list A)
      (acc : list transaction) :
  fold_left (λ acc x, append_opt acc (f x)) l acc
  = (acc ++ flat_map (λ x, option_list (f x)) l)%list.
Proof.
  revert acc. induction l as [|x l IH]; intros acc; simpl.
  - now rewrite List.app_nil_r.
  - rewrite IH. destruct (f x); simpl; [| reflexivity].
    now rewrite <- List.app_assoc.
Qed.

Lemma fold_process_table (tables : list (list (list (option string))))
      (acc : list transaction) :
  fold_left process_table tables acc
  = (acc ++ flat_map (λ table,
               flat_map (λ row, option_list (table_row_transaction row)) table)
             tables)%list.
Proof.
  revert acc. induction tables as [|table tables IH]; intros acc; simpl.
  - now rewrite List.app_nil_r.
  - rewrite IH. unfold process_table. rewrite fold_append_opt.
    now rewrite <- List.app_assoc.
Qed.

Lemma process_page_eq (acc : list transaction) (p : page) :
  process_page acc p = (acc ++ table_pass p ++ text_pass p)%list.
Proof.
  unfold process_page.
  match goal with
  | |- context [match extract_text p with Some _ => _ | None => ?a end] =>
      set (after_tables := a)
  end.
  assert (Ht : after_tables = (acc ++ table_pass p)%list).
  { subst after_tables. unfold table_pass.
    destruct (extract_tables p) eqn:E; [simpl; now rewrite List.app_nil_r |].
    apply fold_process_table. }
  clearbody after_tables. subst after_tables. unfold text_pass.
  destruct (extract_text p) as [text|]; [| now rewrite !List.app_nil_r].
  destruct text as [|c text]; [simpl; now rewrite !List.app_nil_r |].
  cbn [nonempty String.eqb negb]. cbv iota.
  unfold process_text. rewrite fold_append_opt.
  now rewrite List.app_assoc.
Qed.

Lemma fold_process_page (pages : list page) (acc : list transaction) :
  fold_left process_page pages acc
  = (acc ++ flat_map (λ p, table_pass p ++ text_pass p) pages)%list.
Proof.
  revert acc. induction pages as [|p pages IH]; intros acc; simpl.
  - now rewrite List.app_nil_r.
  - rewrite IH, process_page_eq. now rewrite <- !List.app_assoc.
Qed.

End Extraction.

(** C7.  For a readable document the result is, page after page, the
    transactions of the table pass on the page followed by those of the
    text-line pass on the same page; both passes run on every page and
    nothing is removed, so a row that is also a line of the text gives
    the same transaction twice. *)
Theorem extract_order :
  (∀ pages,
     extract_transactions_from_pdf (Readable pages)
     = Returns (flat_map (λ p, (table_pass p ++ text_pass p)%list) pages))
  ∧ table_pass amazon_page = [amazon_transaction]
  ∧ text_pass amazon_page = [amazon_transaction]
  ∧ extract_transactions_from_pdf (Readable [amazon_page])
    = Returns [amazon_transaction; amazon_transaction].
Proof.
  split; [| repeat split; vm_compute; reflexivity].
  intros pages. unfold extract_transactions_from_pdf. simpl.
  now rewrite fold_process_page.
Qed.

(** C1, as the program has it.  The extraction call never fails: it
    returns a list for every file, and the empty list for a file that
    cannot be opened, so that an upload of such a file (saved and removed
    again without trouble) is stored and answered like one of a document
    without transactions. *)
Theorem extract_always_returns :
  (∀ f, ∃ l, extract_transactions_from_pdf f = Returns l)
  ∧ (∀ e, extract_transactions_from_pdf (Unreadable e) = Returns [])
  ∧ (∀ e fd fs now,
       file_save fs "uploads/march.pdf" = None →
       os_remove fs "uploads/march.pdf" = None →
       (upload_file fd fs (Some ("march.pdf", Unreadable e)) (Some "2024")
                    (Some "03") now).2
       = Ok []).
Proof.
  split; [| split].
  - intros [e | pages]; eexists; reflexivity.
  - reflexivity.
  - intros e fd fs now Hs Hr. unfold upload_file.
    change (path_join UPLOAD_FOLDER "march.pdf") with "uploads/march.pdf".
    cbn. rewrite Hs, Hr. reflexivity.
Qed.

Lemma extract_always_returns_witness :
  (upload_file ∅ sound_disk
               (Some ("march.pdf", Unreadable (Exception "No /Root object")))
               (Some "2024") (Some "03") "2024-04-01T09:00:00").2
  = Ok [].
Proof.
  apply (proj2 (proj2 extract_always_returns)); reflexivity.
Defined.

(** C1 as stated fails: the failure to open the document is caught inside
    the extraction call and does not reach the caller. *)
Lemma extract_open_failure_counterexample :
  pdfplumber_open (Unreadable (Exception "No /Root object! - Is this really a PDF?"))
  = Raises (Exception "No /Root object! - Is this really a PDF?")
  ∧ extract_transactions_from_pdf
      (Unreadable (Exception "No /Root object! - Is this really a PDF?"))
    = Returns [].
Proof. split; reflexivity. Qed.

(** * Further properties of the store endpoints *)

Local Open Scope list_scope.

Section StoreFacts.

Lemma get_bucket_set_ne (fd : store) (y m y' m' : string) (b : bucket) :
  (y', m') ≠ (y, m) →
  get_bucket (set_bucket fd y m b) y' m' = get_bucket fd y' m'.
Proof.
  intros H. unfold get_bucket, set_bucket, months_of.
  destruct (decide (y = y')) as [<-|Hy].
  - rewrite lookup_insert_eq. simpl.
    rewrite lookup_insert_ne by congruence.
    destruct (fd !! y); simpl; [reflexivity | apply lookup_empty].
  - now rewrite lookup_insert_ne.
Qed.

Lemma get_bucket_new_year (fd : store) (y y' m' : string) :
  fd !! y = None → get_bucket (<[y := ∅]> fd) y' m' = get_bucket fd y' m'.
Proof.
  intros H. unfold get_bucket. destruct (decide (y = y')) as [<-|Hy].
  - rewrite lookup_insert_eq, H. simpl. apply lookup_empty.
  - now rewrite lookup_insert_ne.
Qed.

Lemma get_bucket_ensure_eq (fd : store) (y m : string) :
  get_bucket (ensure_bucket fd y m) y m
  = Some (default empty_bucket (get_bucket fd y m)).
Proof.
  unfold ensure_bucket.
  assert (H : get_bucket (match fd !! y with
                          | Some _ => fd
                          | None => <[y := ∅]> fd
                          end) y m = get_bucket fd y m).
  { destruct (fd !! y) eqn:E; [reflexivity | now apply get_bucket_new_year]. }
  destruct (get_bucket (match fd !! y with
                        | Some _ => fd
                        | None => <[y := ∅]> fd
                        end) y m) as [b|] eqn:E.
  - rewrite E. now rewrite <- H.
  - rewrite get_bucket_set_eq. now rewrite <- H.
Qed.

Lemma get_bucket_ensure_ne (fd : store) (y m y' m' : string) :
  (y', m') ≠ (y, m) →
  get_bucket (ensure_bucket fd y m) y' m' = get_bucket fd y' m'.
Proof.
  intros Hne. unfold ensure_bucket.
  assert (H : ∀ y' m', get_bucket (match fd !! y with
                                   | Some _ => fd
                                   | None => <[y := ∅]> fd
                                   end) y' m' = get_bucket fd y' m').
  { intros y2 m2. destruct (fd !! y) eqn:E; [reflexivity |].
    now apply get_bucket_new_year. }
  destruct (get_bucket _ y m); [apply H |].
  rewrite get_bucket_set_ne by exact Hne. apply H.
Qed.

(** Writing back the bucket that is there changes nothing. *)
Lemma set_bucket_same (fd : store) (y m : string) (b : bucket) :
  get_bucket fd y m = Some b → set_bucket fd y m b = fd.
Proof.
  unfold get_bucket, set_bucket, months_of. intros H.
  destruct (fd !! y) as [ms|] eqn:E; simpl in H; [| discriminate].
  simpl. rewrite (insert_id ms m b H). now apply insert_id.
Qed.

Lemma bucket_eta (b : bucket) :
  {| transactions := transactions b; pdf_info := pdf_info b;
     processed := processed b |} = b.
Proof. now destruct b. Qed.

Lemma get_transactions_default (fd : store) (y m : string) :
  get_transactions_by_month fd y m
  = (transactions (default empty_bucket (get_bucket fd y m)),
     pdf_info (default empty_bucket (get_bucket fd y m)),
     processed (default empty_bucket (get_bucket fd y m))).
Proof. unfold get_transactions_by_month. now destruct (get_bucket fd y m). Qed.

End StoreFacts.

(** X1.  A manual add that is accepted answers with the transaction the
    request describes, under the id made of the year, the month and the
    number of transactions the month had; afterwards the month holds its
    former transactions followed by the new one, its upload record and
    processed flag are as before, and no other month has changed.  The
    request is accepted exactly when it has the three required keys and
    an amount that [float] accepts. *)
Theorem add_transaction_appends (fd : store) (year month : string)
        (data : gmap string json) (t : transaction) :
  described data
    (manual_id year month
       (length (get_transactions_by_month fd year month).1.1)) = Some t →
  (add_transaction fd year month data).2 = Ok [t]
  ∧ get_transactions_by_month (add_transaction fd year month data).1 year month
    = ((get_transactions_by_month fd year month).1.1 ++ [t],
       (get_transactions_by_month fd year month).1.2,
       (get_transactions_by_month fd year month).2)
  ∧ (∀ y' m', (y', m') ≠ (year, month) →
       get_bucket (add_transaction fd year month data).1 y' m'
       = get_bucket fd y' m').
Proof.
  rewrite (get_transactions_default fd year month). cbn [fst snd].
  unfold described, add_transaction, manual_id.
  destruct (data !! "date") as [date|]; [| discriminate].
  destruct (data !! "description") as [description|]; [| discriminate].
  destruct (data !! "amount") as [amount|]; [| discriminate].
  cbv zeta. rewrite get_bucket_ensure_eq. cbn [default from_option id].
  destruct (py_float amount) as [a|]; [| discriminate].
  intros [= <-]. cbn [fst snd]. split; [reflexivity |]. split.
  - unfold get_transactions_by_month. now rewrite get_bucket_set_eq.
  - intros y' m' Hne. rewrite get_bucket_set_ne by exact Hne.
    now apply get_bucket_ensure_ne.
Qed.

Lemma add_transaction_appends_witness :
  (add_transaction ∅ "2024" "03" lunch_request).2 = Ok [lunch].
Proof.
  refine (proj1 (add_transaction_appends ∅ "2024" "03" _ _ _)).
  vm_compute. reflexivity.
Defined.

(** X2.  A manual add that lacks one of the keys date, description,
    amount answers 400 and leaves the store as it is.  One whose amount
    [float] rejects answers 500; by then the month has been created, so
    the month exists afterwards even if it did not before, while the
    transactions, upload record and flag read from any month are
    unchanged. *)
Theorem add_transaction_rejects (fd : store) (year month : string)
        (data : gmap string json) :
  ((data !! "date" = None ∨ data !! "description" = None ∨ data !! "amount" = None) →
   add_transaction fd year month data = (fd, Error 400))
  ∧ (∀ amount, is_Some (data !! "date") → is_Some (data !! "description") →
       data !! "amount" = Some amount → py_float amount = None →
       (add_transaction fd year month data).2 = Error 500
       ∧ is_Some (get_bucket (add_transaction fd year month data).1 year month)
       ∧ ∀ y m, get_transactions_by_month (add_transaction fd year month data).1 y m
                = get_transactions_by_month fd y m).
Proof.
  unfold add_transaction. split.
  - intros H.
    destruct (data !! "date"), (data !! "description"), (data !! "amount");
      try reflexivity; destruct H as [H | [H | H]]; discriminate.
  - intros amount [date ->] [description ->] -> Hf. cbv zeta. rewrite Hf.
    cbn [fst snd]. split; [reflexivity |]. split.
    + rewrite get_bucket_ensure_eq. eauto.
    + intros y m. rewrite !get_transactions_default.
      destruct (decide ((y, m) = (year, month))) as [[= -> ->]|Hne].
      * rewrite get_bucket_ensure_eq. reflexivity.
      * now rewrite get_bucket_ensure_ne.
Qed.

Lemma add_transaction_rejects_witness :
  add_transaction ∅ "2024" "03" {[ "date" := JStr "2024-03-04" ]} = (∅, Error 400)
  ∧ (add_transaction ∅ "2024" "03"
       {[ "date" := JStr "2024-03-04"; "description" := JStr "Lunch";
          "amount" := JStr "twelve" ]}).2 = Error 500.
Proof.
  split.
  - apply (proj1 (add_transaction_rejects ∅ "2024" "03" _)).
    right. left. vm_compute. reflexivity.
  - refine (proj1 (proj2 (add_transaction_rejects ∅ "2024" "03" _)
                     (JStr "twelve") _ _ _ _)).
    + vm_compute. eauto.
    + vm_compute. eauto.
    + vm_compute. reflexivity.
    + vm_compute. reflexivity.
Defined.

Section FirstWithId.

Lemma first_with_id (id : string) (l : list transaction) :
  id_free id l
  ∨ ∃ l1 t l2, l = l1 ++ t :: l2 ∧ id_free id l1 ∧ t_id t = Some id.
Proof.
  induction l as [|x l IH]; [left; constructor |].
  destruct (decide (t_id x = Some id)) as [Hx|Hx].
  - right. exists [], x, l. repeat split; [constructor | exact Hx].
  - destruct IH as [IH | (l1 & t & l2 & -> & Hf & Ht)].
    + left. now constructor.
    + right. exists (x :: l1), t, l2. repeat split; [now constructor | exact Ht].
Qed.

Lemma update_first_found (id : string) (data : gmap string json)
      (l1 l2 : list transaction) (t : transaction) :
  id_free id l1 → t_id t = Some id →
  update_first id data (l1 ++ t :: l2)
  = Some (l1 ++ apply_update data t :: l2, apply_update data t).
Proof.
  intros Hf Ht. induction Hf as [|x l1 Hx _ IH]; simpl.
  - now rewrite bool_decide_eq_true_2.
  - rewrite bool_decide_eq_false_2 by exact Hx. now rewrite IH.
Qed.

Lemma update_first_missing (id : string) (data : gmap string json)
      (l : list transaction) :
  id_free id l → update_first id data l = None.
Proof.
  induction 1 as [|x l Hx _ IH]; simpl; [reflexivity |].
  rewrite bool_decide_eq_false_2 by exact Hx. now rewrite IH.
Qed.

Lemma delete_first_found (id : string) (l1 l2 : list transaction) (t : transaction) :
  id_free id l1 → t_id t = Some id →
  delete_first id (l1 ++ t :: l2) = Some (l1 ++ l2, t).
Proof.
  intros Hf Ht. induction Hf as [|x l1 Hx _ IH]; simpl.
  - now rewrite bool_decide_eq_true_2.
  - rewrite bool_decide_eq_false_2 by exact Hx. now rewrite IH.
Qed.

Lemma delete_first_missing (id : string) (l : list transaction) :
  id_free id l → delete_first id l = None.
Proof.
  induction 1 as [|x l Hx _ IH]; simpl; [reflexivity |].
  rewrite bool_decide_eq_false_2 by exact Hx. now rewrite IH.
Qed.

End FirstWithId.

(** X3.  An update finds the first transaction of the month that has the
    given id.  If there is one, it answers with that transaction after
    the update: its id is as before, and each of date, description,
    amount, category is the value of the request when the request has
    the key and the old value otherwise; the month then holds the same
    transactions in the same order with that one replaced, and no other
    month has changed.  If the month is unknown or has no transaction
    with that id, the answer is 404 and the store is as it was. *)
Theorem update_transaction_spec (fd : store) (year month transaction_id : string)
        (data : gmap string json) :
  (∀ b l1 t l2,
     get_bucket fd year month = Some b →
     transactions b = l1 ++ t :: l2 →
     id_free transaction_id l1 → t_id t = Some transaction_id →
     let t' := {| t_id := t_id t;
                  t_date := default (t_date t) (data !! "date");
                  t_description := default (t_description t) (data !! "description");
                  t_amount := default (t_amount t) (data !! "amount");
                  t_category := default (t_category t) (data !! "category") |} in
     (update_transaction fd year month transaction_id data).2 = Ok [t']
     ∧ get_transactions_by_month
         (update_transaction fd year month transaction_id data).1 year month
       = (l1 ++ t' :: l2, pdf_info b, processed b)
     ∧ (∀ y' m', (y', m') ≠ (year, month) →
          get_bucket (update_transaction fd year month transaction_id data).1 y' m'
          = get_bucket fd y' m'))
  ∧ ((get_bucket fd year month = None
      ∨ ∃ b, get_bucket fd year month = Some b
             ∧ id_free transaction_id (transactions b)) →
     update_transaction fd year month transaction_id data = (fd, Error 404)).
Proof.
  unfold update_transaction. split.
  - intros b l1 t l2 Hb Hl Hf Ht. cbv zeta. rewrite Hb, Hl.
    rewrite (update_first_found _ data _ _ _ Hf Ht). cbn [fst snd].
    fold (apply_update data t). split; [reflexivity |]. split.
    + unfold get_transactions_by_month. now rewrite get_bucket_set_eq.
    + intros y' m' Hne. now apply get_bucket_set_ne.
  - intros [-> | (b & -> & Hf)]; [reflexivity |].
    now rewrite (update_first_missing _ data _ Hf).
Qed.

Lemma update_transaction_spec_witness :
  (update_transaction lunch_store "2024" "03" "2024_03_manual_0"
     {[ "category" := JStr "Meals 50%" ]}).2
  = Ok [ {| t_id := Some "2024_03_manual_0";
            t_date := JStr "2024-03-04";
            t_description := JStr "Lunch";
            t_amount := JFloat (S754_finite false 7036874417766400 (-49));
            t_category := JStr "Meals 50%" |} ]
  ∧ update_transaction lunch_store "2024" "04" "2024_03_manual_0"
      {[ "category" := JStr "Meals 50%" ]} = (lunch_store, Error 404).
Proof.
  split.
  - refine (proj1 (proj1 (update_transaction_spec lunch_store "2024" "03"
                            "2024_03_manual_0" _) lunch_bucket [] lunch [] _ _ _ _)).
    + vm_compute. reflexivity.
    + reflexivity.
    + constructor.
    + reflexivity.
  - apply (proj2 (update_transaction_spec lunch_store "2024" "04"
                    "2024_03_manual_0" _)).
    left. vm_compute. reflexivity.
Defined.

(** X4.  A delete removes the first transaction of the month that has the
    given id and answers with it; the other transactions keep their
    order, the upload record and the processed flag of the month stay,
    and no other month changes.  If the month is unknown or has no
    transaction with that id, the answer is 404 and the store is as it
    was. *)
Theorem delete_transaction_spec (fd : store) (year month transaction_id : string) :
  (∀ b l1 t l2,
     get_bucket fd year month = Some b →
     transactions b = l1 ++ t :: l2 →
     id_free transaction_id l1 → t_id t = Some transaction_id →
     (delete_transaction fd year month transaction_id).2 = Ok [t]
     ∧ get_transactions_by_month
         (delete_transaction fd year month transaction_id).1 year month
       = (l1 ++ l2, pdf_info b, processed b)
     ∧ (∀ y' m', (y', m') ≠ (year, month) →
          get_bucket (delete_transaction fd year month transaction_id).1 y' m'
          = get_bucket fd y' m'))
  ∧ ((get_bucket fd year month = None
      ∨ ∃ b, get_bucket fd year month = Some b
             ∧ id_free transaction_id (transactions b)) →
     delete_transaction fd year month transaction_id = (fd, Error 404)).
Proof.
  unfold delete_transaction. split.
  - intros b l1 t l2 Hb Hl Hf Ht. rewrite Hb, Hl.
    rewrite (delete_first_found _ _ _ _ Hf Ht). cbn [fst snd].
    split; [reflexivity |]. split.
    + unfold get_transactions_by_month. now rewrite get_bucket_set_eq.
    + intros y' m' Hne. now apply get_bucket_set_ne.
  - intros [-> | (b & -> & Hf)]; [reflexivity |].
    now rewrite (delete_first_missing _ _ Hf).
Qed.

Lemma delete_transaction_spec_witness :
  (delete_transaction lunch_store "2024" "03" "2024_03_manual_0").2 = Ok [lunch]
  ∧ delete_transaction lunch_store "2024" "03" "2024_03_manual_7"
    = (lunch_store, Error 404).
Proof.
  split.
  - refine (proj1 (proj1 (delete_transaction_spec lunch_store "2024" "03"
                            "2024_03_manual_0") lunch_bucket [] lunch [] _ _ _ _)).
    + vm_compute. reflexivity.
    + reflexivity.
    + constructor.
    + reflexivity.
  - apply (proj2 (delete_transaction_spec lunch_store "2024" "03"
                    "2024_03_manual_7")).
    right. exists lunch_bucket. split; [vm_compute; reflexivity |].
    repeat constructor. discriminate.
Defined.

Section IdReuse.

Lemma described_id (data : gmap string json) (id : string) (t : transaction) :
  described data id = Some t → t_id t = Some id.
Proof.
  unfold described.
  destruct (data !! "date"), (data !! "description"), (data !! "amount") as [a|];
    try discriminate.
  destruct (py_float a); [| discriminate]. now intros [= <-].
Qed.

Lemma bucket_after_add (fd : store) (year month : string)
      (data : gmap string json) (t : transaction) :
  described data
    (manual_id year month
       (length (transactions (default empty_bucket (get_bucket fd year month)))))
  = Some t →
  get_bucket (add_transaction fd year month data).1 year month
  = Some {| transactions :=
              transactions (default empty_bucket (get_bucket fd year month)) ++ [t];
            pdf_info := pdf_info (default empty_bucket (get_bucket fd year month));
            processed := processed (default empty_bucket (get_bucket fd year month)) |}.
Proof.
  unfold described, add_transaction, manual_id.
  destruct (data !! "date") as [date|]; [| discriminate].
  destruct (data !! "description") as [description|]; [| discriminate].
  destruct (data !! "amount") as [amount|]; [| discriminate].
  cbv zeta. rewrite get_bucket_ensure_eq. cbn [default from_option id].
  destruct (py_float amount) as [a|]; [| discriminate].
  intros [= <-]. cbn [fst snd]. apply get_bucket_set_eq.
Qed.

Lemma bucket_after_delete (fd : store) (year month id : string) (b : bucket)
      (l1 l2 : list transaction) (t : transaction) :
  get_bucket fd year month = Some b → transactions b = l1 ++ t :: l2 →
  id_free id l1 → t_id t = Some id →
  get_bucket (delete_transaction fd year month id).1 year month
  = Some {| transactions := l1 ++ l2; pdf_info := pdf_info b;
            processed := processed b |}.
Proof.
  intros Hb Hl Hf Ht. unfold delete_transaction. rewrite Hb, Hl.
  rewrite (delete_first_found _ _ _ _ Hf Ht). cbn [fst snd].
  apply get_bucket_set_eq.
Qed.

End IdReuse.

(** X5.  The ids of manual adds are not unique.  In a month without
    transactions, add two transactions, delete the first and add a
    third: the month then holds the second and the third, and both have
    the id numbered 1, because the number in a new id is the current
    length of the list. *)
Theorem manual_id_reused (fd : store) (year month : string)
        (d1 d2 d3 : gmap string json) (t1 t2 t3 : transaction) :
  (get_transactions_by_month fd year month).1.1 = [] →
  described d1 (manual_id year month 0) = Some t1 →
  described d2 (manual_id year month 1) = Some t2 →
  described d3 (manual_id year month 1) = Some t3 →
  (get_transactions_by_month
     (run_requests fd [Add year month d1; Add year month d2;
                       Delete year month (manual_id year month 0);
                       Add year month d3])
     year month).1.1 = [t2; t3]
  ∧ t_id t2 = Some (manual_id year month 1)
  ∧ t_id t3 = Some (manual_id year month 1).
Proof.
  intros H0 H1 H2 H3. rewrite get_transactions_default in H0. cbn [fst] in H0.
  split; [| split; eapply described_id; eassumption].
  unfold run_requests. cbn [fold_left handle].
  pose proof (bucket_after_add fd year month d1 t1) as B1.
  rewrite H0 in B1. specialize (B1 H1). cbn [app] in B1.
  set (fd1 := (add_transaction fd year month d1).1) in *.
  pose proof (bucket_after_add fd1 year month d2 t2) as B2.
  rewrite B1 in B2. cbn [default from_option id transactions length] in B2.
  specialize (B2 H2). cbn [app pdf_info processed] in B2.
  set (fd2 := (add_transaction fd1 year month d2).1) in *.
  pose proof (bucket_after_delete fd2 year month (manual_id year month 0)
                _ [] [t2] t1 B2 eq_refl ltac:(constructor)
                (described_id _ _ _ H1)) as B3.
  cbn [app transactions pdf_info processed] in B3.
  set (fd3 := (delete_transaction fd2 year month (manual_id year month 0)).1) in *.
  pose proof (bucket_after_add fd3 year month d3 t3) as B4.
  rewrite B3 in B4. cbn [default from_option id transactions length] in B4.
  specialize (B4 H3). cbn [app] in B4.
  unfold get_transactions_by_month. now rewrite B4.
Qed.

Lemma manual_id_reused_witness :
  ∃ t2 t3,
    (get_transactions_by_month
       (run_requests ∅ [Add "2024" "03" lunch_request; Add "2024" "03" lunch_request;
                        Delete "2024" "03" (manual_id "2024" "03" 0);
                        Add "2024" "03" lunch_request])
       "2024" "03").1.1 = [t2; t3]
    ∧ t_id t2 = Some "2024_03_manual_1" ∧ t_id t3 = Some "2024_03_manual_1".
Proof.
  eexists _, _.
  refine (manual_id_reused ∅ "2024" "03" lunch_request lunch_request lunch_request
            lunch _ _ _ _ _ _); vm_compute; reflexivity.
Defined.

(** X6.  A call that answers with an error leaves the store exactly as it
    was, with two exceptions: a manual add answered with 500, and an
    upload whose saved file cannot be removed afterwards (by then the
    month has been written). *)
Theorem error_leaves_store (fd : store) (r : request) (status : nat) :
  (handle fd r).2 = Error status →
  match r with
  | Add _ _ _ => status = 400%nat
  | Upload fs (Some (fname, _)) _ _ _ => os_remove fs (upload_path fname) = None
  | _ => True
  end →
  (handle fd r).1 = fd.
Proof.
  destruct r as [fs file year month now | year month data | year month id data
                | year month id | year month]; cbn [handle].
  - unfold upload_file.
    destruct file as [[fname content]|]; [| reflexivity].
    destruct (negb (nonempty fname)); [reflexivity |].
    destruct year as [year|], month as [month|]; try reflexivity.
    destruct (negb (nonempty year) || negb (nonempty month)); [reflexivity |].
    destruct (endswith (lower fname) ".pdf"); [| reflexivity].
    cbv zeta. fold (upload_path fname).
    destruct (file_save fs (upload_path fname)); [reflexivity |].
    destruct (extract_transactions_from_pdf content); [| reflexivity].
    intros H Hr. rewrite Hr in H. discriminate H.
  - unfold add_transaction.
    destruct (data !! "date"); [| reflexivity].
    destruct (data !! "description"); [| reflexivity].
    destruct (data !! "amount") as [amount|]; [| reflexivity].
    cbv zeta. destruct (py_float amount); cbn [fst snd]; [discriminate |].
    intros [= <-]. discriminate.
  - unfold update_transaction. intros H _.
    destruct (get_bucket fd year month) as [b|]; [| reflexivity].
    destruct (update_first id data (transactions b)) as [[l t]|];
      [discriminate H | reflexivity].
  - unfold delete_transaction. intros H _.
    destruct (get_bucket fd year month) as [b|]; [| reflexivity].
    destruct (delete_first id (transactions b)) as [[l t]|];
      [discriminate H | reflexivity].
  - unfold mark_month_processed. intros H _.
    destruct (get_bucket fd year month) as [b|]; [discriminate H | reflexivity].
Qed.

Lemma error_leaves_store_witness :
  (handle lunch_store
          (Upload flat_disk (Some ("sub/scan.pdf", Readable [amazon_page]))
                  (Some "2024") (Some "03") "2024-04-01T09:00:00")).1
  = lunch_store.
Proof.
  apply (error_leaves_store lunch_store _ 500); vm_compute; reflexivity.
Defined.

Section UploadFacts.

Lemma str_of_nat_inj (i j : nat) : str_of_nat i = str_of_nat j → i = j.
Proof.
  unfold str_of_nat. intros H. apply Unsigned.to_uint_inj.
  pose proof (NilEmpty.usu (Nat.to_uint i)) as Hi.
  rewrite H, NilEmpty.usu in Hi. now injection Hi.
Qed.

Lemma upload_id_inj (year month fname : string) (i j : nat) :
  upload_id year month fname i = upload_id year month fname j → i = j.
Proof.
  unfold upload_id. intros H. apply str_of_nat_inj.
  repeat apply String.app_inj in H. exact H.
Qed.

Lemma assign_ids_ids (year month fname : string) (i : nat) (l : list transaction) :
  map t_id (assign_ids year month fname i l)
  = map (λ k, Some (upload_id year month fname k)) (seq i (length l)).
Proof.
  revert i. induction l as [|t l IH]; intros i; simpl; [reflexivity |].
  now rewrite IH.
Qed.

Lemma assign_ids_length (year month fname : string) (i : nat) (l : list transaction) :
  length (assign_ids year month fname i l) = length l.
Proof. revert i. induction l as [|t l IH]; intros i; simpl; auto. Qed.

Lemma assign_ids_fields (year month fname : string) (i : nat) (l : list transaction) :
  Forall2 (λ t t', t_date t' = t_date t ∧ t_description t' = t_description t
                   ∧ t_amount t' = t_amount t ∧ t_category t' = t_category t)
          l (assign_ids year month fname i l).
Proof.
  revert i. induction l as [|t l IH]; intros i; simpl; constructor; auto.
Qed.

End UploadFacts.

Section UploadResult.

Lemma nonempty_true (s : string) : s ≠ "" → nonempty s = true.
Proof. intros H. unfold nonempty. apply String.eqb_neq in H. now rewrite H. Qed.

Lemma upload_result (fd : store) (fs : filesystem)
      (fname year month now : string)
      (content : pdf_file) (extracted : list transaction) :
  upload_accepted fname year month →
  file_save fs (upload_path fname) = None →
  extract_transactions_from_pdf content = Returns extracted →
  upload_file fd fs (Some (fname, content)) (Some year) (Some month) now
  = (set_bucket (ensure_bucket fd year month) year month
       {| transactions := assign_ids year month fname 0 extracted;
          pdf_info := Some {| filename := fname; upload_date := now;
                              transaction_count := length extracted |};
          processed := processed (default empty_bucket
                                    (get_bucket fd year month)) |},
     match os_remove fs (upload_path fname) with
     | None => Ok (assign_ids year month fname 0 extracted)
     | Some _ => Error 500
     end).
Proof.
  intros (Hf & Hy & Hm & Hext) Hs He. unfold upload_file.
  rewrite (nonempty_true _ Hf), (nonempty_true _ Hy), (nonempty_true _ Hm).
  cbn [negb orb]. rewrite (proj2 (endswith_spec _ _) Hext).
  cbv zeta. fold (upload_path fname). rewrite Hs, He.
  rewrite get_bucket_ensure_eq. cbn [default from_option id].
  rewrite assign_ids_length.
  now destruct (os_remove fs (upload_path fname)).
Qed.

Lemma upload_unsaved (fd : store) (fs : filesystem)
      (fname year month now : string) (content : pdf_file) :
  upload_accepted fname year month →
  file_save fs (upload_path fname) ≠ None →
  upload_file fd fs (Some (fname, content)) (Some year) (Some month) now
  = (fd, Error 500).
Proof.
  intros (Hf & Hy & Hm & Hext) Hs. unfold upload_file.
  rewrite (nonempty_true _ Hf), (nonempty_true _ Hy), (nonempty_true _ Hm).
  cbn [negb orb]. rewrite (proj2 (endswith_spec _ _) Hext).
  cbv zeta. fold (upload_path fname).
  now destruct (file_save fs (upload_path fname)).
Qed.

End UploadResult.

(** X7.  An upload that is accepted, and whose file can be saved,
    replaces the transactions of the month by those extracted from the
    file, each with its id; the upload record of the month becomes the
    file name, the time and the number of transactions; the processed
    flag of the month is kept, and no other month changes.  The answer is
    200 with the transactions when the saved file can be removed again,
    and 500 when it cannot: the month has been replaced all the same.  An
    accepted upload whose file cannot be saved answers 500 and leaves the
    store as it was. *)
Theorem upload_file_replaces (fd : store) (fs : filesystem)
        (fname year month now : string)
        (content : pdf_file) (extracted : list transaction) :
  upload_accepted fname year month →
  extract_transactions_from_pdf content = Returns extracted →
  (file_save fs (upload_path fname) = None →
   (upload_file fd fs (Some (fname, content)) (Some year) (Some month) now).2
   = match os_remove fs (upload_path fname) with
     | None => Ok (assign_ids year month fname 0 extracted)
     | Some _ => Error 500
     end
   ∧ get_transactions_by_month
       (upload_file fd fs (Some (fname, content)) (Some year) (Some month) now).1
       year month
     = (assign_ids year month fname 0 extracted,
        Some {| filename := fname; upload_date := now;
                transaction_count := length extracted |},
        (get_transactions_by_month fd year month).2)
   ∧ (∀ y' m', (y', m') ≠ (year, month) →
        get_bucket
          (upload_file fd fs (Some (fname, content)) (Some year) (Some month)
                       now).1
          y' m'
        = get_bucket fd y' m'))
  ∧ (file_save fs (upload_path fname) ≠ None →
     upload_file fd fs (Some (fname, content)) (Some year) (Some month) now
     = (fd, Error 500)).
Proof.
  intros Ha He. split; [| now apply upload_unsaved].
  intros Hs. rewrite (upload_result fd fs _ _ _ now _ _ Ha Hs He). cbn [fst snd].
  split; [reflexivity |]. split.
  - rewrite (get_transactions_default fd). cbn [snd].
    unfold get_transactions_by_month. now rewrite get_bucket_set_eq.
  - intros y' m' Hne. rewrite get_bucket_set_ne by exact Hne.
    now apply get_bucket_ensure_ne.
Qed.

Lemma upload_file_replaces_witness :
  (upload_file lunch_store sound_disk (Some ("March.PDF", Readable [amazon_page]))
               (Some "2024") (Some "03") "2024-04-01T09:00:00").2
  = Ok (assign_ids "2024" "03" "March.PDF" 0
          [amazon_transaction; amazon_transaction])
  ∧ (upload_file lunch_store locked_disk
                 (Some ("March.PDF", Readable [amazon_page]))
                 (Some "2024") (Some "03") "2024-04-01T09:00:00").2
    = Error 500
  ∧ upload_file lunch_store flat_disk
                (Some ("sub/scan.pdf", Readable [amazon_page]))
                (Some "2024") (Some "03") "2024-04-01T09:00:00"
    = (lunch_store, Error 500).
Proof.
  split; [| split].
  - refine (proj1 (proj1 (upload_file_replaces lunch_store sound_disk "March.PDF"
                            "2024" "03" _ (Readable [amazon_page]) _ _ _) _)).
    + repeat split; try discriminate. exists "march". reflexivity.
    + vm_compute. reflexivity.
    + reflexivity.
  - refine (proj1 (proj1 (upload_file_replaces lunch_store locked_disk "March.PDF"
                            "2024" "03" _ (Readable [amazon_page]) _ _ _) _)).
    + repeat split; try discriminate. exists "march". reflexivity.
    + vm_compute. reflexivity.
    + reflexivity.
  - refine (proj2 (upload_file_replaces lunch_store flat_disk "sub/scan.pdf"
                     "2024" "03" _ (Readable [amazon_page]) _ _ _) _).
    + repeat split; try discriminate. exists "sub/scan". reflexivity.
    + vm_compute. reflexivity.
    + vm_compute. discriminate.
Defined.

(** X8.  The transactions of an upload get the ids
    year_month_filename_0, year_month_filename_1, ... in order, so no two
    of them have the same id; their date, description, amount and
    category are those extracted. *)
Theorem upload_ids_distinct (year month fname : string) (l : list transaction) :
  map t_id (assign_ids year month fname 0 l)
  = map (λ k, Some (upload_id year month fname k)) (seq 0 (length l))
  ∧ NoDup (map t_id (assign_ids year month fname 0 l))
  ∧ Forall2 (λ t t', t_date t' = t_date t ∧ t_description t' = t_description t
                     ∧ t_amount t' = t_amount t ∧ t_category t' = t_category t)
            l (assign_ids year month fname 0 l).
Proof.
  split; [apply assign_ids_ids |]. split; [| apply assign_ids_fields].
  rewrite assign_ids_ids. apply NoDup_fmap_2.
  - intros i j [= H]. now apply upload_id_inj in H.
  - apply NoDup_ListNoDup, seq_NoDup.
Qed.

(** X9.  An accepted upload of a file that can be saved and removed but
    that cannot be opened as a PDF answers 200 with no transactions and
    empties the month: the transactions the month held are gone, and its
    upload record says 0 transactions. *)
Theorem upload_unreadable_empties (fd : store) (fs : filesystem)
        (fname year month now : string) (e : exn) :
  upload_accepted fname year month →
  file_save fs (upload_path fname) = None →
  os_remove fs (upload_path fname) = None →
  (upload_file fd fs (Some (fname, Unreadable e)) (Some year) (Some month) now).2
  = Ok []
  ∧ get_transactions_by_month
      (upload_file fd fs (Some (fname, Unreadable e)) (Some year) (Some month)
                   now).1
      year month
    = ([], Some {| filename := fname; upload_date := now; transaction_count := 0 |},
       (get_transactions_by_month fd year month).2).
Proof.
  intros Ha Hs Hr.
  rewrite (upload_result fd fs _ _ _ now (Unreadable e) [] Ha Hs eq_refl), Hr.
  cbn [fst snd assign_ids length]. split; [reflexivity |].
  rewrite (get_transactions_default fd). cbn [snd].
  unfold get_transactions_by_month. now rewrite get_bucket_set_eq.
Qed.

Lemma upload_unreadable_empties_witness :
  get_transactions_by_month lunch_store "2024" "03" = ([lunch], None, false)
  ∧ get_transactions_by_month
      (upload_file lunch_store sound_disk
         (Some ("scan.pdf", Unreadable (Exception "No /Root object")))
         (Some "2024") (Some "03") "2024-04-01T09:00:00").1
      "2024" "03"
    = ([], Some {| filename := "scan.pdf"; upload_date := "2024-04-01T09:00:00";
                   transaction_count := 0 |}, false).
Proof.
  split; [vm_compute; reflexivity |].
  refine (proj2 (upload_unreadable_empties lunch_store sound_disk "scan.pdf"
                   "2024" "03" _ _ _ _ _)).
  - repeat split; try discriminate. exists "scan". reflexivity.
  - reflexivity.
  - reflexivity.
Defined.

Section Invariants.

Lemma get_bucket_ensure_some (fd : store) (Y M y m : string) (b : bucket) :
  get_bucket fd y m = Some b → get_bucket (ensure_bucket fd Y M) y m = Some b.
Proof.
  intros H. destruct (decide ((y, m) = (Y, M))) as [[= -> ->]|Hne].
  - rewrite get_bucket_ensure_eq, H. reflexivity.
  - now rewrite get_bucket_ensure_ne.
Qed.

Lemma keep_set (fd : store) (Y M y m : string) (newb b : bucket) :
  get_bucket fd y m = Some b →
  (∀ b0, get_bucket fd Y M = Some b0 → processed b0 = true →
         processed newb = true) →
  ∃ b', get_bucket (set_bucket fd Y M newb) y m = Some b'
        ∧ (processed b = true → processed b' = true).
Proof.
  intros H Hp. destruct (decide ((y, m) = (Y, M))) as [[= -> ->]|Hne].
  - exists newb. rewrite get_bucket_set_eq. split; [reflexivity | eauto].
  - exists b. rewrite get_bucket_set_ne by exact Hne. auto.
Qed.

Lemma handle_keeps_bucket (fd : store) (r : request) (y m : string) (b : bucket) :
  get_bucket fd y m = Some b →
  ∃ b', get_bucket (handle fd r).1 y m = Some b'
        ∧ (processed b = true → processed b' = true).
Proof.
  intros H.
  assert (Hsame : ∃ b', get_bucket fd y m = Some b'
                        ∧ (processed b = true → processed b' = true))
    by (exists b; auto).
  destruct r as [fs file year month now | year month data | year month id data
                | year month id | year month]; cbn [handle].
  - unfold upload_file.
    destruct file as [[fname content]|]; [| exact Hsame].
    destruct (negb (nonempty fname)); [exact Hsame |].
    destruct year as [year|], month as [month|]; try exact Hsame.
    destruct (negb (nonempty year) || negb (nonempty month)); [exact Hsame |].
    destruct (endswith (lower fname) ".pdf"); [| exact Hsame].
    cbv zeta. destruct (file_save fs _); [exact Hsame |].
    destruct (extract_transactions_from_pdf content); [| exact Hsame].
    destruct (os_remove fs _); cbn [fst].
    all: apply keep_set; [now apply get_bucket_ensure_some |].
    all: intros b0 Hb0 Hp; cbn [processed]; rewrite get_bucket_ensure_eq in *.
    all: injection Hb0 as <-; exact Hp.
  - unfold add_transaction.
    destruct (data !! "date"); [| exact Hsame].
    destruct (data !! "description"); [| exact Hsame].
    destruct (data !! "amount") as [amount|]; [| exact Hsame].
    cbv zeta. destruct (py_float amount); cbn [fst].
    + apply keep_set; [now apply get_bucket_ensure_some |].
      intros b0 Hb0 Hp. cbn [processed]. rewrite get_bucket_ensure_eq in *.
      injection Hb0 as <-. exact Hp.
    + exists b. split; [now apply get_bucket_ensure_some | auto].
  - unfold update_transaction.
    destruct (get_bucket fd year month) as [b1|] eqn:E; [| exact Hsame].
    destruct (update_first id data (transactions b1)) as [[l t]|]; [| exact Hsame].
    cbn [fst]. apply keep_set; [exact H |].
    intros b0 Hb0 Hp. cbn [processed]. congruence.
  - unfold delete_transaction.
    destruct (get_bucket fd year month) as [b1|] eqn:E; [| exact Hsame].
    destruct (delete_first id (transactions b1)) as [[l t]|]; [| exact Hsame].
    cbn [fst]. apply keep_set; [exact H |].
    intros b0 Hb0 Hp. cbn [processed]. congruence.
  - unfold mark_month_processed.
    destruct (get_bucket fd year month) as [b1|] eqn:E; [| exact Hsame].
    cbn [fst]. apply keep_set; [exact H | reflexivity].
Qed.

Lemma set_bucket_ids (fd : store) (Y M : string) (newb : bucket) :
  all_have_ids fd → Forall (λ t, is_Some (t_id t)) (transactions newb) →
  all_have_ids (set_bucket fd Y M newb).
Proof.
  intros Hfd Hn y m b. destruct (decide ((y, m) = (Y, M))) as [[= -> ->]|Hne].
  - rewrite get_bucket_set_eq. now intros [= <-].
  - rewrite get_bucket_set_ne by exact Hne. apply Hfd.
Qed.

Lemma ensure_bucket_ids (fd : store) (Y M : string) :
  all_have_ids fd → all_have_ids (ensure_bucket fd Y M).
Proof.
  intros Hfd y m b. destruct (decide ((y, m) = (Y, M))) as [[= -> ->]|Hne].
  - rewrite get_bucket_ensure_eq. intros [= <-].
    destruct (get_bucket fd Y M) as [b0|] eqn:E; simpl; [eauto | constructor].
  - rewrite get_bucket_ensure_ne by exact Hne. apply Hfd.
Qed.

Lemma default_bucket_ids (fd : store) (Y M : string) :
  all_have_ids fd →
  Forall (λ t, is_Some (t_id t))
         (transactions (default empty_bucket (get_bucket fd Y M))).
Proof.
  intros Hfd. destruct (get_bucket fd Y M) as [b0|] eqn:E; simpl;
    [eauto | constructor].
Qed.

Lemma assign_ids_some (year month fname : string) (i : nat) (l : list transaction) :
  Forall (λ t, is_Some (t_id t)) (assign_ids year month fname i l).
Proof.
  revert i. induction l as [|t l IH]; intros i; simpl; constructor; eauto.
Qed.

Lemma update_first_ids (id : string) (data : gmap string json)
      (l l' : list transaction) (t : transaction) :
  Forall (λ t, is_Some (t_id t)) l → update_first id data l = Some (l', t) →
  Forall (λ t, is_Some (t_id t)) l'.
Proof.
  intros H. revert l' t. induction H as [|x l Hx Hl IH]; intros l' t; simpl;
    [discriminate |].
  destruct (bool_decide _).
  - intros [= <- <-]. now constructor.
  - destruct (update_first id data l) as [[l'' t'']|]; [| discriminate].
    intros [= <- <-]. constructor; [exact Hx | eapply IH; reflexivity].
Qed.

Lemma delete_first_ids (id : string) (l l' : list transaction) (t : transaction) :
  Forall (λ t, is_Some (t_id t)) l → delete_first id l = Some (l', t) →
  Forall (λ t, is_Some (t_id t)) l'.
Proof.
  intros H. revert l' t. induction H as [|x l Hx Hl IH]; intros l' t; simpl;
    [discriminate |].
  destruct (bool_decide _).
  - now intros [= <- <-].
  - destruct (delete_first id l) as [[l'' t'']|]; [| discriminate].
    intros [= <- <-]. constructor; [exact Hx | eapply IH; reflexivity].
Qed.

Lemma handle_keeps_ids (fd : store) (r : request) :
  all_have_ids fd → all_have_ids (handle fd r).1.
Proof.
  intros Hfd.
  destruct r as [fs file year month now | year month data | year month id data
                | year month id | year month]; cbn [handle].
  - unfold upload_file.
    destruct file as [[fname content]|]; [| exact Hfd].
    destruct (negb (nonempty fname)); [exact Hfd |].
    destruct year as [year|], month as [month|]; try exact Hfd.
    destruct (negb (nonempty year) || negb (nonempty month)); [exact Hfd |].
    destruct (endswith (lower fname) ".pdf"); [| exact Hfd].
    cbv zeta. destruct (file_save fs _); [exact Hfd |].
    destruct (extract_transactions_from_pdf content); [| exact Hfd].
    destruct (os_remove fs _); cbn [fst].
    all: apply set_bucket_ids; [now apply ensure_bucket_ids |].
    all: apply assign_ids_some.
  - unfold add_transaction.
    destruct (data !! "date"); [| exact Hfd].
    destruct (data !! "description"); [| exact Hfd].
    destruct (data !! "amount") as [amount|]; [| exact Hfd].
    cbv zeta. destruct (py_float amount); cbn [fst];
      [| now apply ensure_bucket_ids].
    apply set_bucket_ids; [now apply ensure_bucket_ids |]. cbn [transactions].
    apply Forall_app. split.
    + apply default_bucket_ids. now apply ensure_bucket_ids.
    + repeat constructor. cbn [t_id]. eauto.
  - unfold update_transaction.
    destruct (get_bucket fd year month) as [b1|] eqn:E; [| exact Hfd].
    destruct (update_first id data (transactions b1)) as [[l t]|] eqn:U;
      [| exact Hfd].
    cbn [fst]. apply set_bucket_ids; [exact Hfd |]. cbn [transactions].
    eapply update_first_ids; [| exact U]. eauto.
  - unfold delete_transaction.
    destruct (get_bucket fd year month) as [b1|] eqn:E; [| exact Hfd].
    destruct (delete_first id (transactions b1)) as [[l t]|] eqn:D;
      [| exact Hfd].
    cbn [fst]. apply set_bucket_ids; [exact Hfd |]. cbn [transactions].
    eapply delete_first_ids; [| exact D]. eauto.
  - unfold mark_month_processed.
    destruct (get_bucket fd year month) as [b1|] eqn:E; [| exact Hfd].
    cbn [fst]. apply set_bucket_ids; [exact Hfd |]. cbn [transactions]. eauto.
Qed.

End Invariants.

(** X10.  Whatever calls are made, a month that exists keeps existing, and
    a month that is marked processed stays marked: no endpoint removes a
    month or clears the flag. *)
Theorem months_persist (rs : list request) (fd : store) (year month : string)
        (b : bucket) :
  get_bucket fd year month = Some b →
  ∃ b', get_bucket (run_requests fd rs) year month = Some b'
        ∧ (processed b = true → processed b' = true).
Proof.
  unfold run_requests. revert fd b.
  induction rs as [|r rs IH]; intros fd b H; simpl; [exists b; auto |].
  destruct (handle_keeps_bucket fd r year month b H) as (b1 & H1 & P1).
  destruct (IH _ b1 H1) as (b' & H' & P'). exists b'. auto.
Qed.

Lemma months_persist_witness :
  ∃ b', get_bucket
          (run_requests lunch_store
             [MarkProcessed "2024" "03";
              Upload locked_disk (Some ("march.pdf", Readable [amazon_page]))
                     (Some "2024") (Some "03") "2024-04-01T09:00:00";
              Delete "2024" "03" "2024_03_march.pdf_0"])
          "2024" "03" = Some b'
        ∧ (processed lunch_bucket = true → processed b' = true).
Proof.
  apply (months_persist _ lunch_store "2024" "03" lunch_bucket).
  vm_compute. reflexivity.
Defined.

(** X11.  Every transaction in the store has an id: starting from a store
    where that holds, and so from the empty store, it holds after any
    sequence of calls. *)
Theorem stored_have_ids (rs : list request) (fd : store) :
  all_have_ids fd → all_have_ids (run_requests fd rs).
Proof.
  unfold run_requests. revert fd.
  induction rs as [|r rs IH]; intros fd H; simpl; [exact H |].
  apply IH. now apply handle_keeps_ids.
Qed.

Lemma stored_have_ids_witness :
  all_have_ids
    (run_requests ∅
       [Add "2024" "03" lunch_request;
        Upload sound_disk (Some ("april.pdf", Readable [amazon_page])) (Some "2024")
               (Some "04") "2024-05-01T09:00:00"]).
Proof.
  apply (stored_have_ids _ ∅). intros y m b H. discriminate H.
Defined.

Section Workflow.

Lemma get_bucket_some (fd : store) (y m : string) (b : bucket) :
  get_bucket fd y m = Some b ↔ ∃ ms, fd !! y = Some ms ∧ ms !! m = Some b.
Proof.
  unfold get_bucket. destruct (fd !! y) as [ms|]; simpl.
  - split; [eauto | now intros (ms' & [= <-] & H)].
  - split; [discriminate | now intros (ms' & H & _)].
Qed.

Lemma all_processed_size (ms : gmap string bucket) :
  size (base.filter (λ kv : string * bucket, processed kv.2 = true) ms) = size ms
  ↔ ∀ m b, ms !! m = Some b → processed b = true.
Proof.
  split.
  - intros Hs m b Hm.
    assert (E : base.filter (λ kv : string * bucket, processed kv.2 = true) ms = ms)
      by (apply map_subseteq_size_eq; [apply map_filter_subseteq | lia]).
    rewrite <- E in Hm. now apply map_lookup_filter_Some in Hm as [_ Hp].
  - intros H. f_equal. apply map_filter_id. intros m b Hm. exact (H m b Hm).
Qed.

End Workflow.

(** X12.  The workflow status never counts more processed months than
    months, and it says completed exactly when the year has at least one
    month and all its months are marked processed. *)
Theorem workflow_completed (fd : store) (year : string) :
  (processed_months (get_workflow_status fd year)
   <= total_months (get_workflow_status fd year))%nat
  ∧ (completed (get_workflow_status fd year) = true
     ↔ (∃ month b, get_bucket fd year month = Some b)
       ∧ ∀ month b, get_bucket fd year month = Some b → processed b = true).
Proof.
  unfold get_workflow_status.
  destruct (fd !! year) as [ms|] eqn:E; cbn [processed_months total_months completed].
  - split; [apply map_subseteq_size, map_filter_subseteq |].
    rewrite andb_true_iff, Nat.eqb_eq, Nat.ltb_lt, all_processed_size.
    split.
    + intros [Hall Hpos]. split.
      * assert (Hne : size ms ≠ 0%nat) by lia.
        apply map_size_ne_0_lookup in Hne. destruct Hne as (m & b & Hm).
        exists m, b. apply get_bucket_some. eauto.
      * intros m b Hb. apply get_bucket_some in Hb.
        destruct Hb as (ms' & Hms & Hm). rewrite E in Hms. injection Hms as <-.
        eauto.
    + intros [(m & b & Hb) Hall]. split.
      * intros m' b' Hm'. apply (Hall m'). apply get_bucket_some. eauto.
      * apply get_bucket_some in Hb. destruct Hb as (ms' & Hms & Hm).
        rewrite E in Hms. injection Hms as <-.
        assert (Hne : size ms ≠ 0%nat)
          by (apply map_size_ne_0_lookup; exists m; eauto).
        lia.
  - split; [lia |]. split; [discriminate |].
    intros [(m & b & Hb) _]. apply get_bucket_some in Hb.
    destruct Hb as (ms' & Hms & _). congruence.
Qed.

Lemma workflow_completed_witness :
  (∃ month b,
     get_bucket (mark_month_processed lunch_store "2024" "03").1 "2024" month
     = Some b)
  ∧ ∀ month b,
      get_bucket (mark_month_processed lunch_store "2024" "03").1 "2024" month
      = Some b →
      processed b = true.
Proof.
  apply (proj1 (proj2 (workflow_completed
                         (mark_month_processed lunch_store "2024" "03").1
                         "2024"))).
  vm_compute. reflexivity.
Defined.

(** X13.  Marking a month that exists answers 200 and sets its flag; the
    transactions and the upload record of the month are untouched and no
    other month changes.  In the workflow status of the year the number
    of months is the same, and the number of processed months grows by
    one if the month was not marked before and is the same otherwise. *)
Theorem mark_month_processed_spec (fd : store) (year month : string) (b : bucket) :
  get_bucket fd year month = Some b →
  (mark_month_processed fd year month).2 = Ok []
  ∧ get_transactions_by_month (mark_month_processed fd year month).1 year month
    = (transactions b, pdf_info b, true)
  ∧ (∀ y' m', (y', m') ≠ (year, month) →
       get_bucket (mark_month_processed fd year month).1 y' m'
       = get_bucket fd y' m')
  ∧ total_months (get_workflow_status (mark_month_processed fd year month).1 year)
    = total_months (get_workflow_status fd year)
  ∧ processed_months
      (get_workflow_status (mark_month_processed fd year month).1 year)
    = (processed_months (get_workflow_status fd year)
       + (if processed b then 0 else 1))%nat.
Proof.
  intros Hb. unfold mark_month_processed. rewrite Hb. cbn [fst snd].
  split; [reflexivity |]. split.
  { unfold get_transactions_by_month. now rewrite get_bucket_set_eq. }
  split.
  { intros y' m' Hne. now apply get_bucket_set_ne. }
  apply get_bucket_some in Hb. destruct Hb as (ms & Hms & Hm).
  unfold get_workflow_status, set_bucket, months_of.
  rewrite lookup_insert_eq, Hms.
  cbn [default from_option id total_months processed_months]. split.
  - apply map_size_insert_Some. eauto.
  - rewrite map_filter_insert_True by reflexivity.
    destruct (processed b) eqn:Hp.
    + rewrite map_size_insert_Some; [lia |].
      exists b. apply map_lookup_filter_Some. auto.
    + rewrite map_size_insert_None; [lia |].
      apply map_lookup_filter_None. right. intros b' Hb'.
      cbn [snd]. congruence.
Qed.

Lemma mark_month_processed_spec_witness :
  completed (get_workflow_status lunch_store "2024") = false
  ∧ processed_months
      (get_workflow_status (mark_month_processed lunch_store "2024" "03").1 "2024")
    = (processed_months (get_workflow_status lunch_store "2024") + 1)%nat.
Proof.
  split; [vm_compute; reflexivity |].
  refine (proj2 (proj2 (proj2 (proj2
            (mark_month_processed_spec lunch_store "2024" "03" lunch_bucket _))))).
  vm_compute. reflexivity.
Defined.

(** * Further properties of the extraction *)

Section ExtractionShape.

Lemma strptime_valid (s : string) (fmt : list Strptime.directive) (d : Strptime.date) :
  Strptime.strptime s fmt = Some d → Strptime.valid_date d = true.
Proof.
  unfold Strptime.strptime.
  destruct (Strptime.match_format fmt _ s) as [|[d0 [|c r]] l]; try discriminate.
  destruct (Strptime.valid_date d0) eqn:E; [| discriminate]. now intros [= <-].
Qed.

Lemma parse_date_valid (s : string) (d : Strptime.date) :
  parse_date s = Some d → Strptime.valid_date d = true.
Proof.
  unfold parse_date.
  destruct (Strptime.strptime s Strptime.fmt_mdy) as [d1|] eqn:E1.
  - intros [= <-]. eapply strptime_valid; eassumption.
  - apply strptime_valid.
Qed.

Lemma candidate_built (date_str description amount_str : string) (t : transaction) :
  candidate_transaction date_str description amount_str = Some t →
  ∃ d a, parse_date date_str = Some d ∧ parse_amount amount_str = Some a
         ∧ built_from d description a t.
Proof.
  unfold candidate_transaction.
  destruct (parse_amount amount_str) as [a|]; [| discriminate].
  destruct (parse_date date_str) as [d|] eqn:E; [| discriminate].
  intros [= <-]. exists d, a. repeat split. eapply parse_date_valid; eassumption.
Qed.

Lemma in_option_list {A : Type} (o : option A) (x : A) :
  In x (option_list o) → o = Some x.
Proof. destruct o; simpl; [intros [-> | []]; reflexivity | intros []]. Qed.

Lemma in_table_pass (p : page) (t : transaction) :
  In t (table_pass p) →
  ∃ table row, In table (extract_tables p) ∧ In row table
               ∧ table_row_transaction row = Some t.
Proof.
  unfold table_pass. rewrite in_flat_map. intros (table & Ht & H).
  apply in_flat_map in H. destruct H as (row & Hr & H).
  apply in_option_list in H. eauto.
Qed.

Lemma in_text_pass (p : page) (t : transaction) :
  In t (text_pass p) →
  ∃ text line, extract_text p = Some text
               ∧ In line (split_on "010"%char text)
               ∧ text_line_transaction line = Some t.
Proof.
  unfold text_pass. destruct (extract_text p) as [text|]; [| intros []].
  rewrite in_flat_map. intros (line & Hl & H).
  apply in_option_list in H. eauto.
Qed.

Lemma in_extracted (pages : list page) (l : list transaction) (t : transaction) :
  extract_transactions_from_pdf (Readable pages) = Returns l → In t l →
  ∃ p, In p pages ∧ (In t (table_pass p) ∨ In t (text_pass p)).
Proof.
  unfold extract_transactions_from_pdf. simpl. rewrite fold_process_page.
  intros [= <-]. simpl. rewrite in_flat_map. intros (p & Hp & H).
  apply in_app_or in H. eauto.
Qed.

End ExtractionShape.

(** X14.  Every transaction the extraction returns has no id, and was
    built from a table row or a text line of some page: its date is the
    ISO form of a valid calendar date that the date parser read from the
    first cell or token, its amount what the amount parser read from the
    last one, and its category is what [categorize_transaction] gives for
    its description and amount. *)
Theorem extracted_shape (f : pdf_file) (l : list transaction) (t : transaction) :
  extract_transactions_from_pdf f = Returns l → In t l →
  ∃ date_str description amount_str d a,
    parse_date date_str = Some d ∧ parse_amount amount_str = Some a
    ∧ built_from d description a t
    ∧ ∃ pages p, f = Readable pages ∧ In p pages
        ∧ ((∃ table row, In table (extract_tables p) ∧ In row table
              ∧ table_row_candidate row = Some (date_str, description, amount_str))
           ∨ (∃ text line, extract_text p = Some text
                ∧ In line (split_on "010"%char text)
                ∧ text_line_candidate line
                  = Some (date_str, description, amount_str))).
Proof.
  destruct f as [e | pages]; [intros [= <-] [] |].
  intros He Hin. destruct (in_extracted _ _ _ He Hin) as (p & Hp & [H | H]).
  - destruct (in_table_pass _ _ H) as (table & row & Htab & Hrow & Ht).
    unfold table_row_transaction in Ht.
    destruct (table_row_candidate row) as [[[ds desc] am]|] eqn:Ec; [| discriminate].
    destruct (candidate_built _ _ _ _ Ht) as (d & a & Hd & Ha & Hb).
    exists ds, desc, am, d, a. repeat split; try assumption; try apply Hb.
    exists pages, p. repeat split; try assumption. left. eauto.
  - destruct (in_text_pass _ _ H) as (text & line & Htext & Hline & Ht).
    unfold text_line_transaction in Ht.
    destruct (text_line_candidate line) as [[[ds desc] am]|] eqn:Ec; [| discriminate].
    destruct (candidate_built _ _ _ _ Ht) as (d & a & Hd & Ha & Hb).
    exists ds, desc, am, d, a. repeat split; try assumption; try apply Hb.
    exists pages, p. repeat split; try assumption. right. eauto.
Qed.

Lemma extracted_shape_witness :
  ∃ date_str description amount_str d a,
    parse_date date_str = Some d ∧ parse_amount amount_str = Some a
    ∧ built_from d description a amazon_transaction
    ∧ ∃ pages p, Readable [amazon_page] = Readable pages ∧ In p pages
        ∧ ((∃ table row, In table (extract_tables p) ∧ In row table
              ∧ table_row_candidate row = Some (date_str, description, amount_str))
           ∨ (∃ text line, extract_text p = Some text
                ∧ In line (split_on "010"%char text)
                ∧ text_line_candidate line
                  = Some (date_str, description, amount_str))).
Proof.
  apply (extracted_shape (Readable [amazon_page])
           [amazon_transaction; amazon_transaction] amazon_transaction).
  - vm_compute. reflexivity.
  - simpl. tauto.
Defined.

(** X15.  A document whose pages all lack tables and text, and so a
    document without pages, gives the empty list. *)
Theorem blank_document_empty (pages : list page) :
  Forall blank_page pages →
  extract_transactions_from_pdf (Readable pages) = Returns [].
Proof.
  intros H. unfold extract_transactions_from_pdf. simpl.
  rewrite fold_process_page. simpl. f_equal.
  induction H as [|p pages [Ht Hx] _ IH]; simpl; [reflexivity |].
  rewrite IH. unfold table_pass, text_pass. rewrite Ht.
  destruct Hx as [-> | ->]; reflexivity.
Qed.

Lemma blank_document_empty_witness :
  extract_transactions_from_pdf
    (Readable [ {| extract_tables := []; extract_text := None |};
                {| extract_tables := []; extract_text := Some "" |} ])
  = Returns [].
Proof.
  apply blank_document_empty.
  constructor; [split; [reflexivity | left; reflexivity] |].
  constructor; [split; [reflexivity | right; reflexivity] | constructor].
Defined.

Section TextLine.

Lemma date_re_starts_with_digit (prev prev' : option ascii) (b s' : string) :
  rmatch date_re prev b prev' s' → ∃ c b', b = String c b' ∧ is_digit c = true.
Proof.
  unfold date_re, Rep, digit. simpl. intros H.
  inversion H as [ | | ? ? ? ? p1 s1 ? ? H1 _ | | | | | ]; subst.
  inversion H1 as [ | | ? ? ? ? p2 s2 ? ? H2 _ | | | | | ]; subst.
  inversion H2 as [ | | ? ? ? ? p3 s3 ? ? H3 _ | | | | | ]; subst.
  inversion H3; subst. eauto.
Qed.

Lemma amount_re_at_digit (prev : option ascii) (c : ascii) (b : string) :
  is_digit c = true → ∃ prev' s', rmatch amount_re prev (String c b) prev' s'.
Proof.
  intros Hc. exists (Some c), b. unfold amount_re, Plus, Opt.
  eapply M_seq.
  - eapply M_seq; [apply M_chr; now rewrite Hc | apply M_star_0].
  - eapply M_seq; [apply M_alt_r, M_eps | apply M_star_0].
Qed.

Lemma date_search_amount_search (s : string) :
  re_search date_re s = true → re_search amount_re s = true.
Proof.
  rewrite !re_search_spec. intros (a & b & prev' & s' & -> & Hm).
  destruct (date_re_starts_with_digit _ _ _ _ Hm) as (c & b' & -> & Hc).
  destruct (amount_re_at_digit (prev_after None a) c b' Hc) as (p2 & s2 & H2).
  now exists a, (String c b'), p2, s2.
Qed.

Lemma split_from_cons (cur : string) (c : ascii) (s : string) :
  split_from cur (String c s)
  = if is_space c
    then match cur with
         | EmptyString => split_from "" s
         | _ => cur :: split_from "" s
         end
    else split_from (cur +:+ String c "") s.
Proof. reflexivity. Qed.

Lemma split_from_rstrip (s cur : string) :
  split_from cur (rstrip_by is_space s) = split_from cur s.
Proof.
  revert cur. induction s as [|c s IH]; intros cur; [reflexivity |].
  cbn [rstrip_by]. destruct (rstrip_by is_space s) as [|x r] eqn:E.
  - destruct (is_space c) eqn:Ec; cbn [split_from]; rewrite Ec.
    + destruct cur; now rewrite <- IH.
    + now rewrite <- IH.
  - rewrite (split_from_cons cur c (String x r)), (split_from_cons cur c s).
    destruct (is_space c); [destruct cur |]; now rewrite IH.
Qed.

Lemma split_from_lstrip (s : string) :
  split_from "" (lstrip_by is_space s) = split_from "" s.
Proof.
  induction s as [|c s IH]; [reflexivity |]. cbn [lstrip_by split_from].
  destruct (is_space c) eqn:Ec; [exact IH |]. cbn [split_from]. now rewrite Ec.
Qed.

Lemma split_strip (s : string) : split (strip s) = split s.
Proof.
  unfold split, strip, strip_by. now rewrite split_from_rstrip, split_from_lstrip.
Qed.

Lemma date_re_not_empty : re_search date_re "" = false.
Proof. reflexivity. Qed.

End TextLine.

(** X16.  In the text-line pass the test for a numeric pattern never
    rejects a line: a text in which the date pattern is found somewhere
    has a digit at that place, and there the numeric pattern is found
    too. *)
Theorem date_found_amount_found (line : string) :
  re_search date_re line = true → re_search amount_re line = true.
Proof. apply date_search_amount_search. Qed.

Lemma date_found_amount_found_witness :
  re_search amount_re "Payment on 03/01/24 to landlord" = true.
Proof.
  apply (date_found_amount_found "Payment on 03/01/24 to landlord").
  vm_compute. reflexivity.
Defined.

(** X17.  A text line is a transaction candidate exactly when, trimmed,
    it has a match of the date pattern somewhere and it has at least
    three words; the date text is then its first word, wherever the date
    pattern was found, the amount text its last word and the description
    the words between them joined by single spaces.  A line of fewer
    than three words yields no transaction. *)
Theorem text_line_candidate_spec (line date_str description amount_str : string) :
  (text_line_candidate line = Some (date_str, description, amount_str)
   ↔ re_search date_re (strip line) = true
     ∧ (3 <= length (split line))%nat
     ∧ date_str = hd "" (split line)
     ∧ description = join " " (interior (split line))
     ∧ amount_str = List.last (split line) "")
  ∧ ((length (split line) < 3)%nat → text_line_transaction line = None).
Proof.
  unfold text_line_transaction, text_line_candidate. cbv zeta.
  rewrite split_strip, nth_0_hd.
  destruct (re_search date_re (strip line)) eqn:Ed.
  - rewrite (date_search_amount_search _ Ed).
    assert (Hne : nonempty (strip line) = true).
    { destruct (strip line); [discriminate Ed | reflexivity]. }
    rewrite Hne. cbn [negb andb].
    destruct (3 <=? length (split line))%nat eqn:El.
    + apply Nat.leb_le in El. split; [| lia]. split.
      * intros [= <- <- <-]. auto.
      * intros (_ & _ & -> & -> & ->). reflexivity.
    + apply Nat.leb_gt in El. split; [| reflexivity].
      split; [discriminate | lia].
  - split.
    + split; [| intros (H & _); discriminate].
      destruct (negb (nonempty (strip line))); discriminate.
    + intros _. now destruct (negb (nonempty (strip line))).
Qed.

Lemma text_line_candidate_spec_witness :
  text_line_candidate "  Paid 03/01/24   rent  1,200.00 "
  = Some ("Paid", "03/01/24 rent", "1,200.00")
  ∧ text_line_transaction "03/01/24 45.67" = None.
Proof.
  split.
  - apply (proj1 (text_line_candidate_spec "  Paid 03/01/24   rent  1,200.00 "
                    "Paid" "03/01/24 rent" "1,200.00")).
    repeat split. simpl. lia.
  - apply (proj2 (text_line_candidate_spec "03/01/24 45.67" "" "" "")).
    simpl. lia.
Defined.

(** * Further properties of the date parser *)

Section DateText.

Import Strptime.

Lemma in_if_single {A : Type} (b : bool) (x y : A) :
  In x (if b then [y] else []) → b = true ∧ x = y.
Proof. destruct b; simpl; [intros [-> | []]; auto | intros []]. Qed.

Lemma in_range_digit (lo hi : nat) (c : ascii) :
  in_range lo hi c = true → (48 <= lo)%nat → (hi <= 57)%nat → is_digit c = true.
Proof.
  unfold is_digit, in_range. rewrite !andb_true_iff, !Nat.leb_le. lia.
Qed.

Lemma eqb_digit (a c : ascii) :
  Ascii.eqb a c = true → is_digit c = true → is_digit a = true.
Proof. intros H. apply Ascii.eqb_eq in H. now subst. Qed.

Lemma digit_is_digit_or_space (c : ascii) :
  is_digit c = true → digit_or_space c = true.
Proof. unfold digit_or_space. now intros ->. Qed.

Ltac split_alternatives H :=
  repeat (apply in_app_or in H; destruct H as [H | H]);
  try (now destruct H);
  apply in_if_single in H; destruct H as [? H]; injection H as ? ? ?; subst;
  repeat match goal with
    | C : _ && _ = true |- _ => apply andb_true_iff in C; destruct C
    end.

Ltac digits :=
  repeat split;
  first [ eapply in_range_digit; [eassumption | lia | lia]
        | eapply eqb_digit; [eassumption | reflexivity]
        | assumption ].

(** What a directive reads is in front of what it leaves. *)
Lemma alternatives_consume (d : directive) (s rest : string) (f : field) (v : Z) :
  In (f, v, rest) (alternatives d s) →
  ∃ piece, s = piece +:+ rest ∧ consumed d piece.
Proof.
  destruct d as [ | | | | x]; cbn [alternatives consumed]; intros H.
  - destruct s as [|a [|b u]]; [destruct H | |].
    + split_alternatives H. exists (String a ""). split; [reflexivity | digits].
    + split_alternatives H;
        [exists (String a (String b "")) | exists (String a (String b ""))
        | exists (String a "")];
        (split; [reflexivity | simpl; digits]).
  - destruct s as [|a [|b u]]; [destruct H | |].
    + split_alternatives H. exists (String a ""). split; [reflexivity |].
      simpl. split; [| exact I]. apply digit_is_digit_or_space. digits.
    + split_alternatives H;
        [exists (String a (String b "")) | exists (String a (String b ""))
        | exists (String a (String b "")) | exists (String a "")
        | exists (String a (String b ""))];
        (split; [reflexivity |]); simpl; repeat split;
        try (apply digit_is_digit_or_space; digits).
      unfold digit_or_space. match goal with E : Ascii.eqb a " " = true |- _ =>
        rewrite E end. apply orb_true_r.
  - destruct s as [|a [|b u]]; try destruct H.
    apply in_if_single in H. destruct H as [C H]. injection H as ? ? ?; subst.
    apply andb_true_iff in C. destruct C.
    exists (String a (String b "")). split; [reflexivity | simpl; auto].
  - destruct s as [|a [|b [|c [|e u]]]]; try destruct H.
    apply in_if_single in H. destruct H as [C H]. injection H as ? ? ?; subst.
    do 3 (apply andb_true_iff in C; destruct C as [C ?]).
    exists (String a (String b (String c (String e "")))).
    split; [reflexivity | simpl; auto 10].
  - destruct s as [|a t]; [destruct H |].
    apply in_if_single in H. destruct H as [C H]. injection H as ? ? ?; subst.
    apply Ascii.eqb_eq in C. exists (String a ""). split; [reflexivity | eauto].
Qed.

(** A match of a format splits the text into one piece per directive,
    followed by what is left. *)
Lemma match_format_consume (fmt : list directive) (acc acc' : date)
      (s rest : string) :
  In (acc', rest) (match_format fmt acc s) →
  ∃ pieces, s = glue pieces +:+ rest ∧ Forall2 consumed fmt pieces.
Proof.
  revert acc s. induction fmt as [|d fmt IH]; intros acc s; cbn [match_format].
  - intros [[= <- <-] | []]. exists []. split; [reflexivity | constructor].
  - rewrite in_flat_map. intros ([[f v] r] & Ha & Hm).
    destruct (alternatives_consume _ _ _ _ _ Ha) as (piece & -> & Hp).
    destruct (IH _ _ Hm) as (pieces & -> & Hps).
    exists (piece :: pieces). split; [| now constructor].
    cbn [glue]. now rewrite str_app_assoc.
Qed.

Lemma strptime_consume (s : string) (fmt : list directive) (d : date) :
  strptime s fmt = Some d →
  ∃ pieces, s = glue pieces ∧ Forall2 consumed fmt pieces.
Proof.
  unfold strptime.
  destruct (match_format fmt _ s) as [|[d0 [|c r]] l] eqn:E; try discriminate.
  intros _.
  destruct (match_format_consume fmt (mkdate 1900 1 1) d0 s "")
    as (pieces & Hs & Hp).
  { rewrite E. now left. }
  exists pieces. now rewrite str_app_nil_r in Hs.
Qed.

End DateText.

Section DateFormats.

Import Strptime.

Lemma slash_only (a : ascii) : lower_char a = lower_char "/" → a = "/"%char.
Proof.
  destruct a as [[] [] [] [] [] [] [] []]; vm_compute; intros H;
    first [reflexivity | discriminate H].
Qed.

Lemma digit_or_space_not_slash (c : ascii) :
  digit_or_space c = true → Ascii.eqb c "/" = false.
Proof.
  destruct c as [[] [] [] [] [] [] [] []]; vm_compute; intros H;
    first [reflexivity | discriminate H].
Qed.

Lemma digit_date_char (c : ascii) : digit_or_space c = true → date_char c = true.
Proof.
  unfold digit_or_space, date_char.
  destruct (is_digit c), (Ascii.eqb c " "), (Ascii.eqb c "/"); simpl; congruence.
Qed.

(** The five pieces of a text that matches one of the two formats:
    month, slash, day, slash, and a year of [n] digits. *)
Lemma pieces_mdy (year_directive : directive) (s : string) (n : nat) :
  (∀ piece, consumed year_directive piece →
            all_chars is_digit piece ∧ String.length piece = n) →
  (∃ pieces, s = glue pieces
             ∧ Forall2 consumed [D_m; D_lit "/"; D_d; D_lit "/"; year_directive]
                       pieces) →
  ∃ m d y, s = m +:+ String "/" (d +:+ String "/" y)
           ∧ all_chars digit_or_space m ∧ all_chars digit_or_space d
           ∧ all_chars is_digit y ∧ String.length y = n.
Proof.
  intros Hy (pieces & -> & H).
  inversion H as [|? p1 ? l1 Hm H1]; subst.
  inversion H1 as [|? p2 ? l2 Hs1 H2]; subst.
  inversion H2 as [|? p3 ? l3 Hd H3]; subst.
  inversion H3 as [|? p4 ? l4 Hs2 H4]; subst.
  inversion H4 as [|? p5 ? l5 Hyr H5]; subst.
  inversion H5; subst.
  destruct Hs1 as (a1 & -> & E1). apply slash_only in E1. subst a1.
  destruct Hs2 as (a2 & -> & E2). apply slash_only in E2. subst a2.
  destruct (Hy _ Hyr) as [Hyd Hyl].
  exists p1, p3, p5. cbn [glue consumed] in *.
  rewrite str_app_nil_r, !str_app_cons, !str_app_nil_l.
  repeat split; try assumption.
  eapply all_chars_impl; [apply digit_is_digit_or_space | exact Hm].
Qed.

Lemma split_at_slash (a1 a2 r1 r2 : string) :
  all_chars digit_or_space a1 → all_chars digit_or_space a2 →
  a1 +:+ String "/" r1 = a2 +:+ String "/" r2 → a1 = a2 ∧ r1 = r2.
Proof.
  revert a2. induction a1 as [|c a1 IH]; intros [|c2 a2] H1 H2 E.
  - rewrite !str_app_nil_l in E. now injection E.
  - rewrite str_app_nil_l, str_app_cons in E. injection E as <- _.
    destruct H2 as [H2 _]. now apply digit_or_space_not_slash in H2.
  - rewrite str_app_nil_l, str_app_cons in E. injection E as -> _.
    destruct H1 as [H1 _]. now apply digit_or_space_not_slash in H1.
  - rewrite !str_app_cons in E. injection E as -> E.
    destruct H1 as [_ H1], H2 as [_ H2].
    destruct (IH _ H1 H2 E) as [-> ->]. auto.
Qed.

Lemma consumed_y (piece : string) :
  consumed D_y piece → all_chars is_digit piece ∧ String.length piece = 2%nat.
Proof. auto. Qed.

Lemma consumed_Y (piece : string) :
  consumed D_Y piece → all_chars is_digit piece ∧ String.length piece = 4%nat.
Proof. auto. Qed.

Lemma formats_exclusive (s : string) (d d' : date) :
  strptime s fmt_mdy = Some d → strptime s fmt_mdY = Some d' → False.
Proof.
  intros H1 H2.
  destruct (pieces_mdy D_y s 2 consumed_y (strptime_consume _ _ _ H1))
    as (m1 & d1 & y1 & E1 & Hm1 & Hd1 & _ & L1).
  destruct (pieces_mdy D_Y s 4 consumed_Y (strptime_consume _ _ _ H2))
    as (m2 & d2 & y2 & E2 & Hm2 & Hd2 & _ & L2).
  rewrite E1 in E2.
  destruct (split_at_slash _ _ _ _ Hm1 Hm2 E2) as [_ E3].
  destruct (split_at_slash _ _ _ _ Hd1 Hd2 E3) as [_ E4].
  subst y2. lia.
Qed.

Lemma parsed_date_chars (s : string) (d : date) :
  parse_date s = Some d → all_chars date_char s.
Proof.
  unfold parse_date. intros H.
  assert (Hp : ∃ m dd y, s = m +:+ String "/" (dd +:+ String "/" y)
                         ∧ all_chars digit_or_space m
                         ∧ all_chars digit_or_space dd ∧ all_chars is_digit y).
  { destruct (strptime s fmt_mdy) as [d1|] eqn:E1.
    - destruct (pieces_mdy D_y s 2 consumed_y (strptime_consume _ _ _ E1))
        as (m1 & dd & y1 & E & Hm & Hd & Hy & _). eauto 10.
    - destruct (pieces_mdy D_Y s 4 consumed_Y (strptime_consume _ _ _ H))
        as (m1 & dd & y1 & E & Hm & Hd & Hy & _). eauto 10. }
  destruct Hp as (m & dd & y & -> & Hm & Hd & Hy).
  apply all_chars_app. split.
  - eapply all_chars_impl; [apply digit_date_char | exact Hm].
  - split; [reflexivity |]. apply all_chars_app. split.
    + eapply all_chars_impl; [apply digit_date_char | exact Hd].
    + split; [reflexivity |].
      eapply all_chars_impl; [| exact Hy].
      intros c Hc. apply digit_date_char. now apply digit_is_digit_or_space.
Qed.

End DateFormats.

(** X18.  A date text that parses is made of digits, slashes and spaces
    only.  The candidate pattern also allows the dash between the numbers
    of a date, but a date text with a dash in it never parses, so a row
    or line dated that way is a candidate that yields no transaction. *)
Theorem dashed_dates_dropped :
  (∀ s d, parse_date s = Some d → all_chars date_char s)
  ∧ (∀ a b description amount_str,
       candidate_transaction (a +:+ String "-" b) description amount_str = None)
  ∧ table_row_candidate [Some "03-01-24"; Some "RENT"; Some "1,200.00"]
    = Some ("03-01-24", "RENT", "1,200.00").
Proof.
  split; [exact parsed_date_chars |]. split; [| reflexivity].
  intros a b description amount_str. unfold candidate_transaction.
  destruct (parse_amount amount_str); [| reflexivity].
  destruct (parse_date (a +:+ String "-" b)) as [d|] eqn:E; [| reflexivity].
  apply parsed_date_chars in E. apply all_chars_app in E.
  destruct E as [_ [E _]]. discriminate E.
Qed.

Lemma dashed_dates_dropped_witness :
  all_chars date_char "3/ 4/24".
Proof.
  apply (proj1 dashed_dates_dropped "3/ 4/24" (Strptime.mkdate 2024 3 4)).
  reflexivity.
Defined.

(** X19.  No text is read by both date formats, so the order in which the
    date parser tries them does not matter: trying the four-digit-year
    format first would give the same result for every text. *)
Theorem date_formats_exclusive (s : string) :
  (∀ d, Strptime.strptime s Strptime.fmt_mdy = Some d →
        Strptime.strptime s Strptime.fmt_mdY = None)
  ∧ parse_date s
    = match Strptime.strptime s Strptime.fmt_mdY with
      | Some d => Some d
      | None => Strptime.strptime s Strptime.fmt_mdy
      end.
Proof.
  assert (H : ∀ d, Strptime.strptime s Strptime.fmt_mdy = Some d →
                   Strptime.strptime s Strptime.fmt_mdY = None).
  { intros d H1. destruct (Strptime.strptime s Strptime.fmt_mdY) as [d'|] eqn:H2;
      [| reflexivity].
    destruct (formats_exclusive s d d' H1 H2). }
  split; [exact H |]. unfold parse_date.
  destruct (Strptime.strptime s Strptime.fmt_mdy) as [d|] eqn:E1.
  - now rewrite (H d eq_refl).
  - now destruct (Strptime.strptime s Strptime.fmt_mdY).
Qed.

Lemma date_formats_exclusive_witness :
  Strptime.strptime "03/04/24" Strptime.fmt_mdY = None.
Proof.
  apply (proj1 (date_formats_exclusive "03/04/24") (Strptime.mkdate 2024 3 4)).
  reflexivity.
Defined.

(** * Further properties of the categoriser *)

Section Categoriser.

Lemma earlier_override_tests (d : string) :
  earlier_override d
  ↔ existsb (λ kw, contains kw (lower d))
            ["tesla"; "home depot"; "hdphotohub"; "affirm"; "amex"] = true.
Proof. apply existsb_keywords. repeat constructor. Qed.

Lemma square_case_tests (d : string) :
  square_case d
  ↔ contains "square inc" (lower d) || startswith (lower d) "square "
    || startswith (lower d) "sq *" = true.
Proof.
  unfold square_case.
  rewrite !orb_true_iff, (ci_contains_lit _ _ eq_refl),
    !(ci_startswith_lit _ _ eq_refl). tauto.
Qed.

Lemma above_zero_tests (amount : option PyFloat.float) :
  above_zero amount
  ↔ match amount with
    | Some a => PyFloat.gt a PyFloat.zero = true
    | None => False
    end.
Proof.
  unfold above_zero. destruct amount as [a|].
  - split; [intros (a' & [= <-] & H); exact H | eauto].
  - split; [intros (a' & [=] & _) | tauto].
Qed.

Lemma table_category_in (s c : string) :
  first_category CATEGORIZATION_RULES s = Some c →
  In c ["Processing"; "Bank Fees"; "Advertisement"; "Marketing";
        "Repairs and Maintenance"; "EV/Gas"; "Supplies"; "Software";
        "Meals 50%"; "Shipping"; "Travel"; "Utilities"; "Professional Services"].
Proof. apply first_category_in. Qed.

Lemma step1_override_decided (d : string) :
  step1_override d ∨ ¬ step1_override d.
Proof.
  destruct (existsb (λ kw, contains kw (lower d))
              ["tesla"; "home depot"; "hdphotohub"; "affirm"; "amex";
               "square inc"; "apple"; "bk od amer"; "cubicasa"]) eqn:E1.
  - left. left. apply existsb_keywords; [repeat constructor | exact E1].
  - destruct (startswith (lower d) "square ") eqn:E2.
    + left. right. left. now apply (ci_startswith_lit _ _ eq_refl).
    + destruct (startswith (lower d) "sq *") eqn:E3.
      * left. right. right. now apply (ci_startswith_lit _ _ eq_refl).
      * right. now apply not_step1_override_tests.
Qed.

(** What the special cases answer. *)
Lemma override_categories (d : string) (amount : option PyFloat.float) :
  step1_override d →
  In (categorize_transaction d amount)
     ["EV/Gas"; "Repairs and Maintenance"; "Software"; "Equipment"; "Bank Fees";
      "Sales"; "Uncategorized"].
Proof.
  intros H. unfold categorize_transaction. cbv zeta.
  destruct (contains "tesla" (lower d)) eqn:E1;
    [destruct (_ || _); simpl; tauto |].
  destruct (contains "home depot" (lower d)) eqn:E2; [simpl; tauto |].
  destruct (contains "hdphotohub" (lower d)) eqn:E3; [simpl; tauto |].
  destruct (contains "affirm" (lower d)) eqn:E4; [simpl; tauto |].
  destruct (contains "amex" (lower d)) eqn:E5; [simpl; tauto |].
  destruct (contains "square inc" (lower d)) eqn:E6;
    [destruct amount as [a|]; [destruct (PyFloat.gt a PyFloat.zero) |];
     simpl; tauto |].
  destruct (startswith (lower d) "square ") eqn:E7;
    [destruct amount as [a|]; [destruct (PyFloat.gt a PyFloat.zero) |];
     simpl; tauto |].
  destruct (startswith (lower d) "sq *") eqn:E8;
    [destruct amount as [a|]; [destruct (PyFloat.gt a PyFloat.zero) |];
     simpl; tauto |].
  destruct (contains "apple" (lower d)) eqn:E9; [simpl; tauto |].
  destruct (contains "bk od amer" (lower d)) eqn:E10; [simpl; tauto |].
  destruct (contains "cubicasa" (lower d)) eqn:E11; [simpl; tauto |].
  exfalso. revert H. apply not_step1_override_tests; [| assumption ..].
  simpl. now rewrite E1, E2, E3, E4, E5, E6, E9, E10, E11.
Qed.

(** With "ad" in the text the keyword table stops at Advertisement at the
    latest. *)
Lemma table_with_ad (s : string) :
  contains "ad" s = true →
  ∃ c, first_category CATEGORIZATION_RULES s = Some c
       ∧ In c ["Processing"; "Bank Fees"; "Advertisement"].
Proof.
  intros H. unfold CATEGORIZATION_RULES, first_category.
  rewrite !(existsb_keywords_ad _ _ H).
  destruct (existsb _ ["square"; "stripe"; "paypal"]);
    [| destruct (existsb _ ["fee"; "charge"; "interest"; "overdraft"])];
    eexists; (split; [reflexivity | simpl; tauto]).
Qed.

End Categoriser.

(** X20.  The amount decides nothing but Sales.  A transaction is
    categorised as Sales exactly when its description is a
    payment-processor one ("square inc" in it, or "square " or "sq *" at
    its start), none of "tesla", "home depot", "hdphotohub", "affirm",
    "amex" is in it, and the amount is above zero; in every other case the
    category is the one the description gets without an amount. *)
Theorem amount_decides_sales (description : string)
        (amount : option PyFloat.float) :
  (categorize_transaction description amount = "Sales"
   ↔ square_case description ∧ ¬ earlier_override description
     ∧ above_zero amount)
  ∧ (categorize_transaction description amount ≠ "Sales" →
     categorize_transaction description amount
     = categorize_transaction description None).
Proof.
  rewrite square_case_tests, earlier_override_tests, above_zero_tests.
  unfold categorize_transaction. cbv zeta. cbn [existsb].
  destruct (contains "tesla" (lower description));
    [destruct (_ || _); (split; [split; [discriminate | intros (_ & H & _); now destruct H] | reflexivity]) |].
  destruct (contains "home depot" (lower description));
    [split; [split; [discriminate | intros (_ & H & _); now destruct H] | reflexivity] |].
  destruct (contains "hdphotohub" (lower description));
    [split; [split; [discriminate | intros (_ & H & _); now destruct H] | reflexivity] |].
  destruct (contains "affirm" (lower description));
    [split; [split; [discriminate | intros (_ & H & _); now destruct H] | reflexivity] |].
  destruct (contains "amex" (lower description));
    [split; [split; [discriminate | intros (_ & H & _); now destruct H] | reflexivity] |].
  cbn [orb].
  destruct (contains "square inc" (lower description)
            || startswith (lower description) "square "
            || startswith (lower description) "sq *") eqn:Esq.
  - destruct amount as [a|]; [destruct (PyFloat.gt a PyFloat.zero) |].
    + split; [split; [intros _; repeat split; discriminate | reflexivity] |].
      intros H. now destruct H.
    + split; [split; [discriminate | intros (_ & _ & [=])] | reflexivity].
    + split; [split; [discriminate | intros (_ & _ & [])] | reflexivity].
  - split; [split; [| intros ([=] & _)] | reflexivity].
    destruct (contains "apple" (lower description)); [discriminate |].
    destruct (contains "bk od amer" (lower description)); [discriminate |].
    destruct (contains "cubicasa" (lower description)); [discriminate |].
    destruct (first_category CATEGORIZATION_RULES (lower description)) as [c|] eqn:E;
      [| discriminate].
    intros ->. apply table_category_in in E. simpl in E.
    intuition discriminate.
Qed.

Lemma amount_decides_sales_witness :
  categorize_transaction "SQ *CORNER BAKERY"
    (Some (S754_finite true 8444249301319680 (-46)))
  = categorize_transaction "SQ *CORNER BAKERY" None.
Proof.
  apply (proj2 (amount_decides_sales "SQ *CORNER BAKERY"
                  (Some (S754_finite true 8444249301319680 (-46))))).
  vm_compute. discriminate.
Defined.

(** X21.  The keyword "ad" of Advertisement shadows what comes after it.
    A description with "ad" in it (any letter case) that no special case
    catches is Processing, Bank Fees or Advertisement, and whatever the
    special cases, it is never Marketing, Supplies, Meals 50%, Shipping,
    Travel, Utilities or Professional Services.  So the Marketing keywords
    "google ads" and "advertising" never select Marketing, and a
    description such as "Panera Bread" is Advertisement. *)
Theorem ad_shadows_later_categories (description : string)
        (amount : option PyFloat.float) :
  ci_contains "ad" description →
  (¬ step1_override description →
   In (categorize_transaction description amount)
      ["Processing"; "Bank Fees"; "Advertisement"])
  ∧ ¬ In (categorize_transaction description amount)
         ["Marketing"; "Supplies"; "Meals 50%"; "Shipping"; "Travel";
          "Utilities"; "Professional Services"].
Proof.
  intros Had. apply (ci_contains_lit _ _ eq_refl) in Had.
  destruct (table_with_ad _ Had) as (c & Ec & Hc).
  assert (Htable : ¬ step1_override description →
                   In (categorize_transaction description amount)
                      ["Processing"; "Bank Fees"; "Advertisement"]).
  { intros Hno. rewrite (categorize_by_table _ _ Hno), Ec. exact Hc. }
  split; [exact Htable |].
  assert (Hcases : In (categorize_transaction description amount)
                      ["EV/Gas"; "Repairs and Maintenance"; "Software";
                       "Equipment"; "Bank Fees"; "Sales"; "Uncategorized";
                       "Processing"; "Advertisement"]).
  { destruct (step1_override_decided description) as [Hov | Hno].
    - pose proof (override_categories description amount Hov) as H.
      simpl in H |- *. tauto.
    - pose proof (Htable Hno) as H. simpl in H |- *. tauto. }
  intros Hin. simpl in Hcases, Hin.
  destruct Hin as [Hin | [Hin | [Hin | [Hin | [Hin | [Hin | [Hin | []]]]]]]];
    rewrite <- Hin in Hcases; intuition discriminate.
Qed.

Lemma ad_shadows_later_categories_witness :
  In (categorize_transaction "Panera Bread #1204" None)
     ["Processing"; "Bank Fees"; "Advertisement"].
Proof.
  refine (proj1 (ad_shadows_later_categories "Panera Bread #1204" None _) _).
  - exists "Panera Bre", "ad", " #1204". split; reflexivity.
  - apply not_step1_override_tests; vm_compute; reflexivity.
Defined.

(** X22.  Three of the enumerated categories are never assigned
    automatically: whatever the description and the amount, the category
    is not Office Rent, Insurance or Other.  Equipment is assigned only to
    a description with "affirm" in it. *)
Theorem categories_never_assigned (description : string)
        (amount : option PyFloat.float) :
  ¬ In (categorize_transaction description amount)
       ["Office Rent"; "Insurance"; "Other"]
  ∧ (categorize_transaction description amount = "Equipment" →
     ci_contains "affirm" description).
Proof.
  rewrite (ci_contains_lit "affirm" _ eq_refl).
  unfold categorize_transaction. cbv zeta.
  repeat match goal with
    | |- context [if ?b then _ else _] => destruct b eqn:?
    | |- context [match ?o with Some _ => _ | None => _ end] => destruct o eqn:?
    end;
    try (split; [simpl; intuition discriminate | first [reflexivity | discriminate]]).
  match goal with
  | H : first_category _ _ = Some _ |- _ => apply table_category_in in H; simpl in H
  end.
  split; [simpl |]; intuition (subst; discriminate).
Qed.

Lemma categories_never_assigned_witness :
  ci_contains "affirm" "AFFIRM * PAY 4R7QZ".
Proof.
  apply (proj2 (categories_never_assigned "AFFIRM * PAY 4R7QZ" None)).
  reflexivity.
Defined.

(** * Properties of the installer *)

Section Installer.

Import Setup.

Lemma check_python_spec (w : world) :
  check_python w = true ↔ (3 <= major (version w) ∧ 10 <= minor (version w))%Z.
Proof. unfold check_python. rewrite andb_true_iff, !Z.leb_le. tauto. Qed.

Lemma main_without_python (w : world) :
  check_python w = false → main w = ([], SysExit 1%Z).
Proof. intros H. unfold main. rewrite H. reflexivity. Qed.


End Installer.

(** X23.  The version test of the installer accepts only a Python that is
    3.10 or later, but not every such Python: whatever the major version,
    a minor version below 10 is rejected, and the installer then exits
    with status 1 without having started any process.  Python 4.0 is
    rejected in this way. *)
Theorem check_python_rejects_low_minor (w : Setup.world) :
  (Setup.check_python w = true → Setup.at_least (Setup.version w) 3 10)
  ∧ ((Setup.minor (Setup.version w) < 10)%Z →
     Setup.check_python w = false ∧ Setup.main w = ([], Setup.SysExit 1%Z)).
Proof.
  split.
  - rewrite check_python_spec. unfold Setup.at_least. lia.
  - intros Hm.
    assert (H : Setup.check_python w = false).
    { apply not_true_is_false. rewrite check_python_spec. lia. }
    split; [exact H | now apply main_without_python].
Qed.

Lemma check_python_rejects_low_minor_witness :
  Setup.at_least (Setup.version (Setup.machine 4 0)) 3 10
  ∧ Setup.main (Setup.machine 4 0) = ([], Setup.SysExit 1%Z).
Proof.
  split; [left; reflexivity |].
  apply (proj2 (check_python_rejects_low_minor (Setup.machine 4 0))).
  reflexivity.
Defined.



(** * Further properties of the vendor normaliser *)

Section VendorName.

Lemma lstrip_by_head (f : ascii → bool) (s r : string) (c : ascii) :
  lstrip_by f s = String c r → f c = false.
Proof.
  induction s as [|x s IH]; simpl; [discriminate |].
  destruct (f x) eqn:E; [exact IH |]. now intros [= <- _].
Qed.

Lemma rstrip_by_head (f : ascii → bool) (s r : string) (c : ascii) :
  rstrip_by f s = String c r → ∃ r', s = String c r'.
Proof.
  destruct s as [|x s]; simpl; [discriminate |].
  destruct (rstrip_by f s); [destruct (f x) |]; intros [= <- _]; eauto.
Qed.

Lemma strip_head (s r : string) (c : ascii) :
  strip s = String c r → is_space c = false.
Proof.
  unfold strip, strip_by. intros H.
  destruct (rstrip_by_head _ _ _ _ H) as [r' Hr'].
  exact (lstrip_by_head _ _ _ _ Hr').
Qed.

(** The word being read is the start of the first word of the result. *)
Lemma split_from_head (s cur : string) :
  cur ≠ "" → ∃ w ws, split_from cur s = (cur +:+ w) :: ws.
Proof.
  revert cur. induction s as [|x s IH]; intros cur Hcur.
  - exists "", []. rewrite str_app_nil_r. now destruct cur.
  - cbn [split_from]. destruct (is_space x).
    + exists "", (split_from "" s). rewrite str_app_nil_r. now destruct cur.
    + destruct (IH (cur +:+ String x "")) as (w & ws & E).
      * destruct cur; [congruence |]. rewrite str_app_cons. discriminate.
      * exists (String x w), ws.
        now rewrite E, str_app_assoc, str_app_cons, str_app_nil_l.
Qed.

Lemma join_head (c : ascii) (w : string) (ws : list string) :
  ∃ rest, join " " (firstn 3 (String c w :: ws)) = String c rest.
Proof.
  unfold join. cbn [firstn String.concat].
  destruct (firstn 2 ws); [eauto |].
  rewrite str_app_cons. eauto.
Qed.

Lemma upper_char_is_upper (c : ascii) :
  is_alpha_az c = true → is_upper_az (upper_char_az c) = true.
Proof.
  destruct c as [[] [] [] [] [] [] [] []]; vm_compute; intros H;
    first [reflexivity | discriminate H].
Qed.

Lemma letters_of_head (d r : string) (c : ascii) :
  letters_of d = String c r → is_alpha_az c = true.
Proof.
  intros H. pose proof (strip_head _ _ _ H) as Hs.
  assert (Ha : all_chars (λ c, is_alpha_az c || is_space c) (letters_of d))
    by (unfold letters_of, strip, strip_by;
        apply all_chars_rstrip, all_chars_lstrip, all_chars_filter).
  rewrite H in Ha. destruct Ha as [Ha _]. rewrite Hs, orb_false_r in Ha.
  exact Ha.
Qed.

(** The fallback name starts with a capital letter. *)
Lemma fallback_head (d : string) :
  letters_of d ≠ "" →
  ∃ c rest, title (join " " (firstn 3 (split (letters_of d)))) = String c rest
            ∧ is_upper_az c = true.
Proof.
  intros Hne. destruct (letters_of d) as [|c r] eqn:E; [congruence |].
  pose proof (letters_of_head _ _ _ E) as Ha.
  pose proof (strip_head _ _ _ E) as Hs.
  unfold split. cbn [split_from]. rewrite Hs, str_app_nil_l.
  destruct (split_from_head r (String c "")) as (w & ws & Hw); [discriminate |].
  rewrite Hw, str_app_cons, str_app_nil_l.
  destruct (join_head c w ws) as [rest Hj]. rewrite Hj.
  unfold title. cbn [title_from]. rewrite Ha.
  eexists _, _. split; [reflexivity | now apply upper_char_is_upper].
Qed.

Lemma first_rule_name (rules : list (regex * string)) (d name : string) :
  first_rule rules d = Some name → In name (map snd rules).
Proof.
  induction rules as [|[p n] rules IH]; simpl; [discriminate |].
  destruct (re_search p d); [intros [= ->]; now left | auto].
Qed.

Lemma normalize_vendor_fallback (d : string) :
  d ≠ "" → no_match VENDOR_NORMALIZATION_RULES d → letters_of d ≠ "" →
  normalize_vendor d = title (join " " (firstn 3 (split (letters_of d)))).
Proof.
  intros Hd Hn Hl. unfold normalize_vendor.
  apply String.eqb_neq in Hd, Hl.
  rewrite Hd, (first_rule_none _ _ Hn), sub_class_letters.
  fold (letters_of d). rewrite Hl. cbv zeta.
  pose proof (up_to_three (split (letters_of d))) as H3.
  destruct (3 <=? length (split (letters_of d)))%nat; [reflexivity |].
  now rewrite <- H3.
Qed.

End VendorName.

(** X25.  The vendor name is never the empty text.  When no rule matches
    and the description has letters, the name starts with a capital
    letter A-Z; when a rule matches, the name is one of the eleven canonical
    names of the rule list. *)
Theorem vendor_name_not_empty (description : string) :
  normalize_vendor description ≠ ""
  ∧ (no_match VENDOR_NORMALIZATION_RULES description →
     letters_of description ≠ "" →
     ∃ c rest, normalize_vendor description = String c rest
               ∧ is_upper_az c = true)
  ∧ (description ≠ "" →
     ¬ no_match VENDOR_NORMALIZATION_RULES description →
     In (normalize_vendor description)
        ["Affirm"; "Google"; "PayPal"; "Amazon"; "McDonald's"; "Starbucks";
         "The Home Depot"; "Apple"; "Microsoft"; "Uber"; "Lyft"]).
Proof.
  assert (Hfall : description ≠ "" →
                  no_match VENDOR_NORMALIZATION_RULES description →
                  letters_of description ≠ "" →
                  ∃ c rest, normalize_vendor description = String c rest
                            ∧ is_upper_az c = true).
  { intros Hd Hn Hl.
    rewrite (normalize_vendor_fallback _ Hd Hn Hl). now apply fallback_head. }
  split; [| split].
  - destruct (String.eqb_spec description "") as [-> | Hd]; [discriminate |].
    destruct (first_rule VENDOR_NORMALIZATION_RULES description) as [name|] eqn:E.
    + unfold normalize_vendor. apply String.eqb_neq in Hd. rewrite Hd, E.
      apply first_rule_name in E. simpl in E.
      intuition (subst; discriminate).
    + assert (Hn : no_match VENDOR_NORMALIZATION_RULES description).
      { destruct (first_rule_complete VENDOR_NORMALIZATION_RULES description)
          as [[name Hm] | Hn]; [| exact Hn].
        apply first_rule_some in Hm. congruence. }
      destruct (String.eqb_spec (letters_of description) "") as [Hl | Hl].
      * unfold normalize_vendor. apply String.eqb_neq in Hd. rewrite Hd, E.
        rewrite sub_class_letters. fold (letters_of description).
        rewrite Hl. cbn. now apply String.eqb_neq.
      * destruct (Hfall Hd Hn Hl) as (c & rest & -> & _). discriminate.
  - intros Hn Hl. apply Hfall; [| exact Hn | exact Hl].
    intros ->. now apply Hl.
  - intros Hd Hn.
    destruct (first_rule VENDOR_NORMALIZATION_RULES description) as [name|] eqn:E.
    + unfold normalize_vendor. apply String.eqb_neq in Hd. rewrite Hd, E.
      apply first_rule_name in E. simpl in E. simpl. tauto.
    + destruct Hn.
      destruct (first_rule_complete VENDOR_NORMALIZATION_RULES description)
        as [[name Hm] | Hn]; [| exact Hn].
      apply first_rule_some in Hm. congruence.
Qed.

Lemma vendor_name_not_empty_witness :
  ∃ c rest, normalize_vendor "4471 joe's diner" = String c rest
            ∧ is_upper_az c = true.
Proof.
  refine (proj1 (proj2 (vendor_name_not_empty "4471 joe's diner")) _ _).
  - repeat constructor.
  - vm_compute. discriminate.
Defined.
